(** * micapipe 03_FC.py: nuisance regression and functional connectomes

    A shallow embedding of [functions/03_FC.py].  Python floats are read as
    exact rationals ([Qc]); [nan] is a separate value where the script can
    produce one.  A two-dimensional numpy array is the list of its rows;
    where an array without rows can occur, its number of columns is kept
    next to the rows.
    Printing, file output, [exit()] and uncaught exceptions are threaded
    through a small state-and-error monad. *)

From Stdlib Require Import ZArith QArith Qcanon Ascii String List Lia.
From stdpp Require Import base option list strings gmap sorting pretty.

Open Scope string_scope.
Open Scope list_scope.
Open Scope Z_scope.

(** ** Python values, numpy arrays *)

(** A command-line flag is a [str]; the literal it is compared with can be
    an [int]. *)
Inductive pyval :=
| PyStr (s : string)
| PyInt (z : Z).

(** Python [==] between the two kinds of value: a [str] never equals an
    [int]. *)
Definition py_eq (a b : pyval) : bool :=
  match a, b with
  | PyStr s, PyStr t => String.eqb s t
  | PyInt x, PyInt y => Z.eqb x y
  | _, _ => false
  end.

(** The float holding an integer, and the float [a / b]. *)
Definition of_Z (z : Z) : Qc := Q2Qc (inject_Z z).
Definition frac (a : Z) (b : positive) : Qc := Q2Qc (a # b).

(** A float64 array with finite entries. *)
Definition matrix := list (list Qc).

(** What [np.loadtxt] can hand back: a 0-d array (file holding one number),
    a 1-D array (one row or one column, or an empty file) or a 2-D array.
    A 2-D array is its number of columns [c] and its rows, each of [c]
    entries: the shape is known also when there is no row. *)
Inductive ndarray :=
| Arr0 (x : Qc)
| Arr1 (v : list Qc)
| Arr2 (c : nat) (m : matrix).

Inductive exn :=
| IndexError
| ValueError
| OSError.

Inductive result (A : Type) :=
| Ok (a : A)
| Err (e : exn).
Arguments Ok {A} a.
Arguments Err {A} e.

(** The second dimension of a 2-D array, read off its first row. *)
Definition ncols {A} (m : list (list A)) : nat :=
  match m with
  | [] => O
  | r :: _ => length r
  end.

(** [a.shape] as a Python tuple. *)
Definition shape (a : ndarray) : list nat :=
  match a with
  | Arr0 _ => []
  | Arr1 v => [length v]
  | Arr2 c m => [length m; c]
  end.

(** [a.ndim] *)
Definition ndim (a : ndarray) : nat := length (shape a).

(** [t[i]] on a tuple. *)
Definition tuple_get (t : list nat) (i : nat) : result nat :=
  match t !! i with
  | Some n => Ok n
  | None => Err IndexError
  end.

Definition Qc_eqb (x y : Qc) : bool := Qc_eq_bool x y.

Fixpoint list_eqb {A} (eqb : A -> A -> bool) (l1 l2 : list A) : bool :=
  match l1, l2 with
  | [], [] => true
  | x :: l1', y :: l2' => eqb x y && list_eqb eqb l1' l2'
  | _, _ => false
  end.

(** [np.array_equal(a, b)]: same shape and same entries. *)
Definition array_equal (a b : ndarray) : bool :=
  match a, b with
  | Arr0 x, Arr0 y => Qc_eqb x y
  | Arr1 v, Arr1 w => list_eqb Qc_eqb v w
  | Arr2 c m, Arr2 d n => Nat.eqb c d && list_eqb (list_eqb Qc_eqb) m n
  | _, _ => false
  end.

(** [np.ones((k, 1))]. *)
Definition np_ones_col (k : nat) : ndarray :=
  Arr2 1 (replicate k [1%Qc]).

Fixpoint hstack_rows (m1 m2 : matrix) : result matrix :=
  match m1, m2 with
  | [], [] => Ok []
  | r1 :: m1', r2 :: m2' =>
      match hstack_rows m1' m2' with
      | Ok m => Ok ((r1 ++ r2) :: m)
      | Err e => Err e
      end
  | _, _ => Err ValueError
  end.

(** [np.append(a, b, axis=1)]: both arguments must be 2-D with the same
    number of rows. *)
Definition np_append_axis1 (a b : ndarray) : result ndarray :=
  match a, b with
  | Arr2 c1 m1, Arr2 c2 m2 =>
      match hstack_rows m1 m2 with
      | Ok m => Ok (Arr2 (c1 + c2) m)
      | Err e => Err e
      end
  | _, _ => Err ValueError
  end.

(** ** The script monad: console, written files, exit and exceptions *)

(** A float64 entry that may be [nan]. *)
Inductive npfloat :=
| Fin (q : Qc)
| NaN.

(** What [np.savetxt] leaves on disk: the format and the array. *)
Record saved := { fmt : string; content : list (list npfloat) }.

Record world := {
  stdout : list string;
  files : gmap string saved
}.

Inductive outcome (A : Type) :=
| Ret (a : A)
| Exited
| Raised (e : exn).
Arguments Ret {A} a.
Arguments Exited {A}.
Arguments Raised {A} e.

(** A piece of the script: it runs in a world and ends with a value, with
    [exit()] or with an uncaught exception. *)
Definition Script (A : Type) : Type := world -> outcome A * world.

Definition ret {A} (a : A) : Script A := fun w => (Ret a, w).

Definition bind {A B} (m : Script A) (k : A -> Script B) : Script B :=
  fun w =>
    match m w with
    | (Ret a, w') => k a w'
    | (Exited, w') => (Exited, w')
    | (Raised e, w') => (Raised e, w')
    end.

Declare Scope script_scope.
Delimit Scope script_scope with script.
Notation "x <~ m ;; k" := (bind m (fun x => k))
  (at level 100, m at next level, right associativity) : script_scope.
Notation "m ;;; k" := (bind m (fun _ => k))
  (at level 100, right associativity) : script_scope.
Open Scope script_scope.

Definition print (s : string) : Script unit :=
  fun w => (Ret tt, {| stdout := stdout w ++ [s]; files := files w |}).

Definition exit {A} : Script A := fun w => (Exited, w).

Definition raise {A} (e : exn) : Script A := fun w => (Raised e, w).

Definition lift {A} (r : result A) : Script A :=
  match r with
  | Ok a => ret a
  | Err e => raise e
  end.

Definition np_savetxt (fname : string) (X : list (list npfloat)) (f : string)
  : Script unit :=
  fun w => (Ret tt, {| stdout := stdout w;
                       files := <[fname := {| fmt := f; content := X |}]> (files w) |}).

Definition initial_world : world := {| stdout := []; files := ∅ |}.

(** ** Dense linear algebra on rows *)

(** The sum of a vector and the dot product of two vectors. *)
Definition Qsum (l : list Qc) : Qc := foldr Qcplus 0%Qc l.

Definition dot (u v : list Qc) : Qc := Qsum (zip_with Qcmult u v).

(** Column [j] of a 2-D array. *)
Definition col_of {A} (d : A) (j : nat) (m : list (list A)) : list A :=
  map (fun r => default d (r !! j)) m.

(** [np.transpose(m)] *)
Definition transpose_of {A} (d : A) (m : list (list A)) : list (list A) :=
  map (fun j => col_of d j m) (seq 0 (ncols m)).

Definition col : nat -> matrix -> list Qc := col_of 0%Qc.
Definition transpose : matrix -> matrix := transpose_of 0%Qc.

Definition all_length {A} (n : nat) (m : list (list A)) : bool :=
  forallb (fun r => Nat.eqb (length r) n) m.

(** Entry [j] of a row, 0 past its end. *)
Definition entry (r : list Qc) (j : nat) : Qc := default 0%Qc (r !! j).

(** A row vector times a matrix. *)
Definition row_times (b : matrix) (r : list Qc) : list Qc :=
  map (fun j => dot r (col j b)) (seq 0 (ncols b)).

(** [np.dot(a, b)] on 2-D arrays: the inner dimensions must agree. *)
Definition np_dot (a b : matrix) : result matrix :=
  if all_length (length b) a
  then Ok (map (row_times b) a)
  else Err ValueError.

(** [a - b] on 2-D arrays of one shape, which is all the script asks of
    it. *)
Fixpoint np_sub (a b : matrix) : result matrix :=
  match a, b with
  | [], [] => Ok []
  | r1 :: a', r2 :: b' =>
      if Nat.eqb (length r1) (length r2)
      then match np_sub a' b' with
           | Ok m => Ok (zip_with Qcminus r1 r2 :: m)
           | Err e => Err e
           end
      else Err ValueError
  | _, _ => Err ValueError
  end.

(** ** Nuisance regression *)

(** Lines 167-170. *)
Definition expand_dim (Data : ndarray) : ndarray :=
  match Data with
  | Arr1 v => Arr2 1 (map (fun x => [x]) v)
  | _ => Data
  end.

(** Truthiness of a Python [str]. *)
Definition str_truthy (s : string) : bool :=
  match s with
  | EmptyString => false
  | _ => true
  end.

Section Regressor.

(** The files on disk as [np.loadtxt] sees them. *)
Variable np_loadtxt : string -> result ndarray.

(** [LinearRegression().fit(X, y).coef_], of shape (targets, features). *)
Variable LinearRegression_fit_coef : matrix -> matrix -> result matrix.

(** Module-level paths found by [glob]. *)
Variables x_dof x_csf x_wm x_gs : string.

(** Lines 196-203; [mdl] and [ones] are the variables of the enclosing
    function. *)
Definition check_arrays (mdl ones : ndarray) (Data : matrix) : Script matrix :=
  if negb (array_equal mdl ones) then
    print "apply regression" ;;;
    X <~ lift (match mdl with Arr2 _ m => Ok m | _ => Err ValueError end) ;;
    coef_ <~ lift (LinearRegression_fit_coef X Data) ;;
    fitted <~ lift (np_dot X (transpose coef_)) ;;
    lift (np_sub Data fitted)
  else
    ret Data.

(** The part of [get_regressed_data] before [check_arrays()]: loads the
    confounds and assembles [mdl] next to [ones]. *)
Definition assemble_mdl (x_spike : string) (performNSR performGSR : pyval)
    (Data_name : string) : Script (ndarray * ndarray) :=
  dof <~ lift (np_loadtxt x_dof) ;;
  csf <~ lift (np_loadtxt x_csf) ;;
  let csf := expand_dim csf in
  wm <~ lift (np_loadtxt x_wm) ;;
  let wm := expand_dim wm in
  gs <~ lift (np_loadtxt x_gs) ;;
  let gs := expand_dim gs in
  print "" ;;;
  if str_truthy x_spike then
    spike <~ lift (np_loadtxt x_spike) ;;
    let spike := expand_dim spike in
    k <~ lift (tuple_get (shape spike) 0) ;;
    let ones := np_ones_col k in
    if py_eq performNSR (PyStr "1") then
      print (Data_name +:+ " model : func ~ spikes + dof + wm + csf") ;;;
      a <~ lift (np_append_axis1 ones spike) ;;
      a <~ lift (np_append_axis1 a dof) ;;
      a <~ lift (np_append_axis1 a wm) ;;
      mdl <~ lift (np_append_axis1 a csf) ;;
      ret (mdl, ones)
    else if py_eq performGSR (PyStr "1") then
      print (Data_name +:+ " model : func ~ spikes + dof + wm + csf + gs") ;;;
      a <~ lift (np_append_axis1 ones spike) ;;
      a <~ lift (np_append_axis1 a dof) ;;
      a <~ lift (np_append_axis1 a wm) ;;
      a <~ lift (np_append_axis1 a csf) ;;
      mdl <~ lift (np_append_axis1 a gs) ;;
      ret (mdl, ones)
    else
      print (Data_name +:+ "Default model : func ~ spikes") ;;;
      mdl <~ lift (np_append_axis1 ones spike) ;;
      ret (mdl, ones)
  else
    k <~ lift (tuple_get (shape wm) 0) ;;
    let ones := np_ones_col k in
    print ("NO spikeRegressors_FD file, will skip loading: " +:+ Data_name) ;;;
    if py_eq performNSR (PyInt 1) then
      print (Data_name +:+ ", model : func ~ dof + wm + csf") ;;;
      a <~ lift (np_append_axis1 ones dof) ;;
      a <~ lift (np_append_axis1 a wm) ;;
      mdl <~ lift (np_append_axis1 a csf) ;;
      ret (mdl, ones)
    else if py_eq performGSR (PyInt 1) then
      print (Data_name +:+ ", model : func ~ dof + wm + csf + gs") ;;;
      a <~ lift (np_append_axis1 ones dof) ;;
      a <~ lift (np_append_axis1 a wm) ;;
      a <~ lift (np_append_axis1 a csf) ;;
      mdl <~ lift (np_append_axis1 a gs) ;;
      ret (mdl, ones)
    else
      print (Data_name +:+ ", model : none") ;;;
      ret (ones, ones).

(** Lines 173-235. *)
Definition get_regressed_data (x_spike : string) (Data : matrix)
    (performNSR performGSR : pyval) (Data_name : string) : Script matrix :=
  p <~ assemble_mdl x_spike performNSR performGSR Data_name ;;
  check_arrays (fst p) (snd p) Data.

End Regressor.

(** ** Cerebellar label reconciliation *)

(** Python [int(x)] on a float: truncation towards zero. *)
Definition py_int (x : Qc) : Z := Z.quot (Qnum x) (Zpos (Qden x)).

(** Storing an integer in an [np.int8] slot keeps its low eight bits. *)
Definition wrap8 (z : Z) : Z := (z + 128) mod 256 - 128.

(** Storing a float in an [np.int8] array, as numpy does it on x86-64:
    the fraction is dropped; a value that fits in 32 bits keeps its low
    eight bits, any other value is stored as 0. *)
Definition cast_int8 (x : Qc) : Z :=
  let z := py_int x in
  if (-2147483648 <=? z) && (z <=? 2147483647) then wrap8 z else 0.

(** [a[i]] along an axis of length [n], negative indices counting from the
    end. *)
Definition py_index (n : nat) (i : Z) : result nat :=
  if (0 <=? i) && (i <? Z.of_nat n) then Ok (Z.to_nat i)
  else if (- Z.of_nat n <=? i) && (i <? 0) then Ok (Z.to_nat (i + Z.of_nat n))
  else Err IndexError.

(** [a[:, j]]: the array must be 2-D and have a column [j]. *)
Definition get_col (j : nat) (a : ndarray) : result (list Qc) :=
  match a with
  | Arr2 c m => if (j <? c)%nat then Ok (col j m) else Err IndexError
  | _ => Err IndexError
  end.

(** [m[:, j] = v] *)
Definition set_col {A} (j : nat) (v : list A) (m : list (list A)) : list (list A) :=
  zip_with (fun r x => <[j := x]> r) m v.

(** The entries of [exclude_labels]: region indices, or the [np.nan]
    sentinel. *)
Inductive pylabel :=
| LInt (z : Z)
| LNaN.

(** [cereb] is either the float array read from disk or the [int8] array
    allocated by the script. *)
Inductive cereb_array :=
| F64 (a : ndarray)
| I8 (m : list (list Z)).

Definition missing_elements (roiList : list Z) : list Z :=
  let start := 0 in
  let end_ := 33 in
  merge_sort Z.le
    (elements ((list_to_set (seqZ start (end_ + 1 - start)) : gset Z)
                 ∖ list_to_set roiList)).

(** The second loop of the reconciliation:
    [cereb[:, roiLabelsInt[0, ii]] = cereb_tmp[:, ii]] for [ii = k, k+1, ...]. *)
Fixpoint scatter_columns (cereb_tmp : ndarray) (ii : nat) (roiLabelsInt : list Z)
    (cereb : list (list Z)) : result (list (list Z)) :=
  match roiLabelsInt with
  | [] => Ok cereb
  | l :: rest =>
      match get_col ii cereb_tmp with
      | Err e => Err e
      | Ok c =>
          match py_index 34 l with
          | Err e => Err e
          | Ok j =>
              scatter_columns cereb_tmp (S ii) rest
                (set_col j (map cast_int8 c) cereb)
          end
      end
  end.

Definition repr_int_list (l : list Z) : string :=
  "[" +:+ String.concat ", " (map pretty l) +:+ "]".

Definition rbind {A B} (r : result A) (k : A -> result B) : result B :=
  match r with
  | Ok a => k a
  | Err e => Err e
  end.

Notation "x <-? r ;; k" := (rbind r (fun x => k))
  (at level 100, r at next level, right associativity) : script_scope.

Fixpoint mapM_result {A B} (f : A -> result B) (l : list A) : result (list B) :=
  match l with
  | [] => Ok []
  | x :: rest =>
      y <-? f x ;; ys <-? mapM_result f rest ;; Ok (y :: ys)
  end.

Section Cerebellum.

(** Python [float(s)]. *)
Variable py_float : string -> result Qc.

(** Lines 136-150. *)
Definition reconcile_cerebellum (cereb_tmp : ndarray) (roiLabels : list string)
  : Script (cereb_array * list pylabel) :=
  if Nat.eqb (length roiLabels) 34 then
    print "All cerebellar labels found in parcellation!" ;;;
    ret (F64 cereb_tmp, [LNaN])
  else
    print "Some cerebellar ROIs were lost in co-registration to fMRI space" ;;;
    T <~ lift (tuple_get (shape cereb_tmp) 0) ;;
    let cereb := replicate T (replicate 34%nat 0) in
    roiLabelsInt <~ lift (mapM_result
                            (fun s => x <-? py_float s ;; Ok (wrap8 (py_int x)))
                            roiLabels) ;;
    let roiLabelsInt := map (fun z => wrap8 (z - 1)) roiLabelsInt in
    cereb <~ lift (scatter_columns cereb_tmp 0 roiLabelsInt cereb) ;;
    let exclude_labels := missing_elements roiLabelsInt in
    print ("Matrix entries for following ROIs will be zero:  "
             +:+ repr_int_list exclude_labels) ;;;
    ret (I8 cereb, map LInt exclude_labels).

End Cerebellum.

(** The float view numpy takes of [cereb] when it is appended to float
    arrays. *)
Definition cereb_values (c : cereb_array) : ndarray :=
  match c with
  | F64 a => a
  | I8 m => Arr2 34 (map (map of_Z) m)
  end.

Definition cereb_shape (c : cereb_array) : list nat :=
  match c with
  | F64 a => shape a
  | I8 m => [length m; 34%nat]
  end.

(** ** Parcellation and correlation *)

(** [np.unique] of a float vector: its distinct values in increasing
    order. *)
Definition np_unique (v : list Qc) : list Qc :=
  merge_sort Qcle (remove_dups v).

Definition np_unique_Z (v : list Z) : list Z :=
  merge_sort Z.le (remove_dups v).

(** [np.mean] of a vector; the mean of an empty slice is [nan]. *)
Definition np_mean (l : list Qc) : npfloat :=
  match l with
  | [] => NaN
  | _ => Fin (Qsum l / of_Z (Z.of_nat (length l)))
  end.

(** The entries of a row kept by a boolean mask. *)
Fixpoint select {A} (mask : list bool) (r : list A) : list A :=
  match mask, r with
  | b :: mask', x :: r' => if b then x :: select mask' r' else select mask' r'
  | _, _ => []
  end.

(** [m[:, mask]]: the mask must be as long as the rows. *)
Definition bool_index (m : matrix) (mask : list bool) : result matrix :=
  if Nat.eqb (length mask) (ncols m) then Ok (map (select mask) m)
  else Err IndexError.

(** [m[:, -n:]] *)
Definition last_cols {A} (n : nat) (m : list (list A)) : list (list A) :=
  map (fun r => if Nat.eqb n 0 then r else drop (length r - n) r) m.

(** [m[:, :n]] *)
Definition first_cols {A} (n : nat) (m : list (list A)) : list (list A) :=
  map (take n) m.

Definition to_npfloat (m : matrix) : list (list npfloat) := map (map Fin) m.

(** [np.append(a, b, axis=1)] on float arrays that may hold [nan]. *)
Fixpoint hstack {A} (m1 m2 : list (list A)) : result (list (list A)) :=
  match m1, m2 with
  | [], [] => Ok []
  | r1 :: m1', r2 :: m2' =>
      m <-? hstack m1' m2' ;; Ok ((r1 ++ r2) :: m)
  | _, _ => Err ValueError
  end.

(** The conte69 averaging loop, from label index [lab] on:
    [ts_ctx[:, lab] = np.mean(data_corr_ctx[:, thisparc == lab], axis=1)]. *)
Fixpoint ts_ctx_loop (data_corr_ctx : matrix) (thisparc : list Qc)
    (labs : list nat) (ts_ctx : list (list npfloat))
  : result (list (list npfloat)) :=
  match labs with
  | [] => Ok ts_ctx
  | lab :: rest =>
      tmpData <-? bool_index data_corr_ctx
                    (map (fun x => Qc_eqb x (of_Z (Z.of_nat lab))) thisparc) ;;
      ts_ctx_loop data_corr_ctx thisparc rest
        (set_col lab (map np_mean tmpData) ts_ctx)
  end.

Definition parcellate_conte (data_corr : matrix) (n_vertex_ctx_c69 : nat)
    (thisparc : list Qc) : result (list (list npfloat)) :=
  let data_corr_ctx := last_cols n_vertex_ctx_c69 data_corr in
  let uparcel := np_unique thisparc in
  let ts_ctx := replicate (length data_corr_ctx)
                  (replicate (length uparcel) (Fin 0%Qc)) in
  ts_ctx_loop data_corr_ctx thisparc (seq 0 (length uparcel)) ts_ctx.

(** The native-surface averaging loop:
    [dataNative_corr[:, native_parc == int(uparcel[lab])]]. *)
Fixpoint ts_native_loop (dataNative_corr : matrix) (native_parc : list Z)
    (uparcel : list Z) (lab : nat) (ts_native_ctx : list (list npfloat))
  : result (list (list npfloat)) :=
  match uparcel with
  | [] => Ok ts_native_ctx
  | u :: rest =>
      tmpData <-? bool_index dataNative_corr
                    (map (fun x => Z.eqb x u) native_parc) ;;
      ts_native_loop dataNative_corr native_parc rest (S lab)
        (set_col lab (map np_mean tmpData) ts_native_ctx)
  end.

Definition parcellate_native (dataNative_corr : matrix) (native_parc : list Z)
  : result (list (list npfloat)) :=
  let uparcel := np_unique_Z native_parc in
  let ts_native_ctx := replicate (length dataNative_corr)
                         (replicate (length uparcel) (Fin 0%Qc)) in
  ts_native_loop dataNative_corr native_parc uparcel 0 ts_native_ctx.

(** [ts_r[:, j] = 0] *)
Definition zero_col (j : Z) (m : list (list npfloat)) : result (list (list npfloat)) :=
  j' <-? py_index (ncols m) j ;;
  Ok (map (fun r => <[j' := Fin 0%Qc]> r) m).

(** [ts_r[j, :] = 0] *)
Definition zero_row (j : Z) (m : list (list npfloat)) : result (list (list npfloat)) :=
  j' <-? py_index (length m) j ;;
  Ok (<[j' := replicate (ncols m) (Fin 0%Qc)]> m).

(** [np.triu(m)]: entries below the main diagonal become 0. *)
Definition np_triu (m : list (list npfloat)) : list (list npfloat) :=
  imap (fun i r => imap (fun j x => if (j <? i)%nat then Fin 0%Qc else x) r) m.

(** [for i in exclude_labels: ts_r[:, i + n_sctx] = 0; ts_r[i + n_sctx, :] = 0] *)
Fixpoint zero_missing (exclude_labels : list pylabel) (n_sctx : nat)
    (ts_r : list (list npfloat)) : result (list (list npfloat)) :=
  match exclude_labels with
  | [] => Ok ts_r
  | LNaN :: _ => Err IndexError
  | LInt i :: rest =>
      ts_r <-? zero_col (i + Z.of_nat n_sctx) ts_r ;;
      ts_r <-? zero_row (i + Z.of_nat n_sctx) ts_r ;;
      zero_missing rest n_sctx ts_r
  end.

(** The block that follows [np.corrcoef] in both connectome loops. *)
Definition mask_connectome (exclude_labels : list pylabel) (n_sctx : nat)
    (ts_r : list (list npfloat)) : result (list (list npfloat)) :=
  match exclude_labels with
  | [] => Err IndexError
  | LInt _ :: _ =>
      ts_r <-? zero_missing exclude_labels n_sctx ts_r ;;
      Ok (np_triu ts_r)
  | LNaN :: _ => Ok (np_triu ts_r)
  end.

(** ** Strings and paths *)

(** Splitting on a separator, Python's [s.split(sep)].  [skip] counts the
    characters of a separator just matched that are still to be passed
    over; [cur] is the piece being collected. *)
Fixpoint split_go (sep : string) (skip : nat) (cur : string) (s : string)
  : list string :=
  match s with
  | EmptyString => [cur]
  | String c s' =>
      match skip with
      | S k => split_go sep k cur s'
      | O =>
          if String.prefix sep s
          then cur :: split_go sep (String.length sep - 1) "" s'
          else split_go sep O (cur +:+ String c "") s'
      end
  end.

Definition str_split (sep s : string) : list string := split_go sep O "" s.

(** [s.replace(old, new)] for a non-empty [old]. *)
Fixpoint replace_go (old new : string) (skip : nat) (s : string) : string :=
  match s with
  | EmptyString => ""
  | String c s' =>
      match skip with
      | S k => replace_go old new k s'
      | O =>
          if String.prefix old s
          then new +:+ replace_go old new (String.length old - 1) s'
          else String c (replace_go old new O s')
      end
  end.

Definition str_replace (old new s : string) : string := replace_go old new O s.

(** [s.find(sub)]: index of the first occurrence, or -1. *)
Fixpoint str_find (sub s : string) : Z :=
  if String.prefix sub s then 0
  else match s with
       | EmptyString => -1
       | String _ s' =>
           match str_find sub s' with
           | Zneg _ => -1
           | i => i + 1
           end
       end.

(** [s[start:]] for a non-negative [start]. *)
Fixpoint str_from (start : nat) (s : string) : string :=
  match start, s with
  | S k, String _ s' => str_from k s'
  | _, _ => s
  end.

(** [l[0::2]] *)
Fixpoint evens {A} (l : list A) : list A :=
  match l with
  | [] => []
  | x :: rest =>
      x :: match rest with
           | [] => []
           | _ :: rest' => evens rest'
           end
  end.

(** [os.path.join(a, b)] *)
Definition os_path_join (a b : string) : string :=
  if String.prefix "/" b then b
  else match a with
       | EmptyString => b
       | _ =>
           match String.get (String.length a - 1) a with
           | Some c => if Ascii.eqb c "/" then a +:+ b else a +:+ "/" +:+ b
           | None => a +:+ "/" +:+ b
           end
       end.

(** [l.remove(x)]: drops the first occurrence, [ValueError] when there is
    none. *)
Fixpoint list_remove (x : string) (l : list string) : result (list string) :=
  match l with
  | [] => Err ValueError
  | y :: rest =>
      if String.eqb x y then Ok rest
      else rest' <-? list_remove x rest ;; Ok (y :: rest')
  end.

(** [l[i]] on a list, for a non-negative [i]. *)
Definition list_get {A} (l : list A) (i : nat) : result A :=
  match l !! i with
  | Some x => Ok x
  | None => Err IndexError
  end.

(** [for x in l: body(x)] *)
Fixpoint for_each {A} (l : list A) (body : A -> Script unit) : Script unit :=
  match l with
  | [] => ret tt
  | x :: rest => body x ;;; for_each rest body
  end.

(** ** The connectome loops and the script as a whole *)

(** A FreeSurfer annotation as [read_annot(..., orig_ids=True)] returns it:
    one label per vertex and the colour table, whose fifth column holds the
    label ids. *)
Record annot := { labels : list Z; ctab : list (list Z) }.

(** [np.where(ctab[:, 4] == label)[0][0]] *)
Fixpoint first_index (ids : list Z) (label : Z) (i : nat) : result Z :=
  match ids with
  | [] => Err IndexError
  | x :: rest =>
      if Z.eqb x label then Ok (Z.of_nat i) else first_index rest label (S i)
  end.

Definition ctab_ids (ct : list (list Z)) : result (list Z) :=
  mapM_result (fun r => list_get r 4) ct.

(** [np.append(a, b, axis=0)] on 2-D arrays. *)
Definition vstack (a b : matrix) : result matrix :=
  match a, b with
  | [], _ => Ok b
  | _, [] => Ok a
  | _, _ => if Nat.eqb (ncols a) (ncols b) then Ok (a ++ b) else Err ValueError
  end.

Definition as_matrix (a : ndarray) : result matrix :=
  match a with
  | Arr2 _ m => Ok m
  | _ => Err ValueError
  end.

(** The subcortical timeseries of a run. *)
Definition sctx_path (funcDir subject func_lab : string) : string :=
  funcDir +:+ "/volumetric/" +:+ subject +:+ func_lab
    +:+ "_timeseries_subcortical.txt".

Section Pipeline.

(** *** The environment of one run *)
Variable os_listdir : string -> result (list string).
Variable glob : string -> list string.
(** [np.squeeze(nib.load(path).get_fdata())], vertices by timepoints. *)
Variable nib_load_fdata : string -> result matrix.
Variable np_loadtxt : string -> result ndarray.
Variable read_text : string -> result string.
(** Python [float(s)]. *)
Variable py_float : string -> result Qc.
Variable read_annot : string -> result annot.
Variable LinearRegression_fit_coef : matrix -> matrix -> result matrix.
Variable np_corrcoef : list (list npfloat) -> list (list npfloat).
(** The closing QC block (framewise-displacement plot and tSNR). *)
Variable additional_QC : Script unit.

(** [sys.argv[1..9]] *)
Variables subject funcDir labelDir parcDir volmDir : string.
Variables performNSR performGSR func_lab noFC : string.

(** Lines 114-119: the subcortical timeseries and its column count. *)
Definition load_subcortex : Script (ndarray * nat) :=
  sctx <~ lift (np_loadtxt (sctx_path funcDir subject func_lab)) ;;
  match shape sctx with
  | _ :: _ =>
      n_sctx <~ lift (tuple_get (shape sctx) 1) ;;
      ret (sctx, n_sctx)
  | [] =>
      print "Uh oh, your subcortical timeseries file is empty; exiting. Bye-bye" ;;;
      exit
  end.

(** Lines 124-150, with the parsing of the ROI statistics file. *)
Definition load_cerebellum : Script (cereb_array * list pylabel) :=
  cereb_tmp <~ lift (np_loadtxt (funcDir +:+ "/volumetric/" +:+ subject +:+ func_lab
                                   +:+ "_timeseries_cerebellum.txt")) ;;
  cerebLabels <~ lift (read_text (funcDir +:+ "/volumetric/" +:+ subject +:+ func_lab
                                    +:+ "_cerebellum_roi_stats.txt")) ;;
  let s1 := str_find "nii.gz" cerebLabels in
  let startROIs := s1 + Z.of_nat (String.length "nii.gz") + 6 in
  let values := str_split (String (ascii_of_nat 9) "")
                  (str_from (Z.to_nat startROIs) cerebLabels) in
  let roiLabels := evens values in
  reconcile_cerebellum py_float cereb_tmp roiLabels.

(** The masking and saving that ends one iteration of either loop. *)
Definition save_connectome (exclude_labels : list pylabel) (n_sctx : nat)
    (ts : list (list npfloat)) (fname : string) : Script unit :=
  let ts_r := np_corrcoef (transpose_of NaN ts) in
  ts_r <~ lift (mask_connectome exclude_labels n_sctx ts_r) ;;
  np_savetxt fname ts_r "%.6f".

(** One iteration of the conte69 loop (lines 257-290). *)
Definition conte_iteration (data_corr : matrix) (n_vertex_ctx_c69 n n_sctx : nat)
    (exclude_labels : list pylabel) (parcellation : string) : Script unit :=
  let parcPath := os_path_join parcDir parcellation +:+ ".csv" in
  if String.eqb parcellation "aparc-a2009s_conte69" then
    print ("parcellation " +:+ parcellation +:+ " currently not supported")
  else
    thisparc <~ lift (np_loadtxt parcPath) ;;
    thisparc <~ lift (match thisparc with
                      | Arr1 v => Ok v
                      | Arr0 _ => Err ValueError
                      | Arr2 _ _ => Err IndexError
                      end) ;;
    ts_ctx <~ lift (parcellate_conte data_corr n_vertex_ctx_c69 thisparc) ;;
    ts <~ lift (hstack (to_npfloat (first_cols n data_corr)) ts_ctx) ;;
    save_connectome exclude_labels n_sctx ts
      (funcDir +:+ "/surfaces/" +:+ subject +:+ "_func_space-conte69-32k_atlas-"
         +:+ str_replace "_conte69" "" parcellation +:+ "_desc-FC.txt").

(** One iteration of the native-surface loop (lines 334-378). *)
Definition native_iteration (dataNative_corr sctx_cereb_corr : matrix)
    (n_sctx : nat) (exclude_labels : list pylabel) (parcellation : string)
  : Script unit :=
  let fname_lh := "lh." +:+ parcellation +:+ "_mics.annot" in
  lh <~ lift (read_annot (os_path_join labelDir fname_lh)) ;;
  let fname_rh := "rh." +:+ parcellation +:+ "_mics.annot" in
  rh <~ lift (read_annot (os_path_join labelDir fname_rh)) ;;
  let nativeLength := (length (labels lh) + length (labels rh))%nat in
  if negb (Nat.eqb (ncols dataNative_corr) nativeLength) then
    print ("ERROR.." +:+ parcellation +:+ "_mics.annot"
             +:+ " has a mismatch between the native surface and the annot file!!")
  else
    ids_lh <~ lift (match labels lh with [] => Ok [] | _ => ctab_ids (ctab lh) end) ;;
    parc_lh <~ lift (mapM_result (fun l => first_index ids_lh l 0) (labels lh)) ;;
    ids_rh <~ lift (match labels rh with [] => Ok [] | _ => ctab_ids (ctab rh) end) ;;
    parc_rh <~ lift (mapM_result
                       (fun l => i <-? first_index ids_rh l 0 ;;
                                 Ok (i + Z.of_nat (length (ctab lh))))
                       (labels rh)) ;;
    let native_parc := parc_lh ++ parc_rh in
    ts_native_ctx <~ lift (parcellate_native dataNative_corr native_parc) ;;
    ts <~ lift (hstack (to_npfloat sctx_cereb_corr) ts_native_ctx) ;;
    np_savetxt (funcDir +:+ "/surfaces/" +:+ subject +:+ "_func_space-fsnative_atlas-"
                  +:+ parcellation +:+ "_desc-timeseries.txt") ts "%.12f" ;;;
    save_connectome exclude_labels n_sctx ts
      (funcDir +:+ "/surfaces/" +:+ subject +:+ "_func_space-fsnative_atlas-"
         +:+ parcellation +:+ "_desc-FC.txt").

Definition no_FC_notice : Script unit :=
  print "" ;;;
  print "...... no FC was selected, will skipp the functional connectome generation".

Definition conte_connectomes (data_corr : matrix) (n_vertex_ctx_c69 n n_sctx : nat)
    (exclude_labels : list pylabel) (parcellationList_conte : list string)
  : Script unit :=
  if negb (String.eqb noFC "TRUE") then
    for_each parcellationList_conte
      (conte_iteration data_corr n_vertex_ctx_c69 n n_sctx exclude_labels)
  else no_FC_notice.

Definition native_connectomes (dataNative_corr sctx_cereb_corr : matrix)
    (n_sctx : nat) (exclude_labels : list pylabel) (parcellationList : list string)
  : Script unit :=
  if negb (String.eqb noFC "TRUE") then
    for_each parcellationList
      (native_iteration dataNative_corr sctx_cereb_corr n_sctx exclude_labels)
  else no_FC_notice.

Definition surfaces_found_banner : Script unit :=
  print "" ;;;
  print "-+-+-+-+-+-+-+-+-+-+-+-+-+-+-+-+-+-+-+-+-+-+-+-+-+-+-" ;;;
  print "surfaces directory found; lets get the party started!" ;;;
  print "-+-+-+-+-+-+-+-+-+-+-+-+-+-+-+-+-+-+-+-+-+-+-+-+-+-+-" ;;;
  print "".

Definition no_surfaces_banner : Script unit :=
  print "" ;;;
  print ":( sad face :( sad face :( sad face :(" ;;;
  print "No surface directory. Exiting. Bye-bye" ;;;
  print "Run the module -proc_freesurfer first!" ;;;
  print ":( sad face :( sad face :( sad face :(" ;;;
  print "".

Definition one_scan_banner : Script unit :=
  print "" ;;;
  print "-+-+-+-+-+-+-+-+-+-+-+-+-+-+-+-+-+-+-+-+-" ;;;
  print "only one scan found; all good in the hood" ;;;
  print "-+-+-+-+-+-+-+-+-+-+-+-+-+-+-+-+-+-+-+-+-" ;;;
  print "".

Definition regress (x_spike : string) (Data : matrix) (Data_name : string)
  : Script matrix :=
  let x_dof := String.concat " " (glob (funcDir +:+ "/volumetric/*" +:+ func_lab +:+ ".1D")) in
  let x_csf := String.concat " " (glob (funcDir +:+ "/volumetric/" +:+ "*CSF*")) in
  let x_wm := String.concat " " (glob (funcDir +:+ "/volumetric/" +:+ "*WM*")) in
  let x_gs := String.concat " " (glob (funcDir +:+ "/volumetric/" +:+ "*global*")) in
  get_regressed_data np_loadtxt LinearRegression_fit_coef x_dof x_csf x_wm x_gs
    x_spike Data (PyStr performNSR) (PyStr performGSR) Data_name.

(** The script from top to bottom.  [os.chdir] is left out: every path
    it uses starts from [funcDir]. *)
Definition main : Script unit :=
  listing <~ lift (os_listdir (funcDir +:+ "/surfaces/")) ;;
  match listing with
  | _ :: _ => surfaces_found_banner
  | [] => no_surfaces_banner ;;; exit
  end ;;;
  let x_lh := String.concat " "
                (glob (funcDir +:+ "/surfaces/" +:+ "*space-conte69-32k_lh_10mm*")) in
  let x_rh := String.concat " "
                (glob (funcDir +:+ "/surfaces/" +:+ "*space-conte69-32k_rh_10mm*")) in
  lh_data <~ lift (nib_load_fdata x_lh) ;;
  rh_data <~ lift (nib_load_fdata x_rh) ;;
  (if Nat.eqb (length (str_split " " x_lh)) 1 then one_scan_banner
   else print "more than one scan found; exiting. Bye-bye" ;;; exit) ;;;
  data <~ lift (vstack lh_data rh_data) ;;
  let data := transpose data in
  let n_vertex_ctx_c69 := ncols data in
  p <~ load_subcortex ;;
  let sctx := fst p in
  let n_sctx := snd p in
  q <~ load_cerebellum ;;
  let cereb := fst q in
  let exclude_labels := snd q in
  c1 <~ lift (tuple_get (shape sctx) 1) ;;
  c2 <~ lift (tuple_get (cereb_shape cereb) 1) ;;
  let n := (c1 + c2)%nat in
  sc <~ lift (np_append_axis1 sctx (cereb_values cereb)) ;;
  data <~ lift (np_append_axis1 sc (Arr2 (ncols data) data)) ;;
  data <~ lift (as_matrix data) ;;
  let x_spike := String.concat " "
                   (glob (funcDir +:+ "/volumetric/" +:+ "*spikeRegressors_FD.1D")) in
  data_corr <~ regress x_spike data "conte69" ;;
  np_savetxt (funcDir +:+ "/surfaces/" +:+ subject
                +:+ "_func_space-conte69-32k_desc-timeseries_clean.txt")
    (to_npfloat data_corr) "%.6f" ;;;
  parcellationList <~ lift (os_listdir volmDir) ;;
  parcellationList <~ lift (mapM_result
                              (fun sub => a <-? list_get (str_split "atlas-" sub) 1 ;;
                                          list_get (str_split ".nii" a) 0)
                              parcellationList) ;;
  parcellationList <~ lift (list_remove "subcortical" parcellationList) ;;
  parcellationList <~ lift (list_remove "cerebellum" parcellationList) ;;
  let parcellationList_conte := map (fun sub => sub +:+ "_conte69") parcellationList in
  conte_connectomes data_corr n_vertex_ctx_c69 n n_sctx exclude_labels
    parcellationList_conte ;;;
  let x_lh_nat := String.concat " "
                    (glob (funcDir +:+ "/surfaces/" +:+ subject
                             +:+ "_func_space-fsnative_lh_10mm.mgh")) in
  lh_data_nat <~ lift (nib_load_fdata x_lh_nat) ;;
  let lh_data_nat := transpose lh_data_nat in
  lh_data_nat_corr <~ regress x_spike lh_data_nat "lh_native" ;;
  let x_rh_nat := String.concat " "
                    (glob (funcDir +:+ "/surfaces/"
                             +:+ "*_func_space-fsnative_rh_10mm.mgh")) in
  rh_data_nat <~ lift (nib_load_fdata x_rh_nat) ;;
  let rh_data_nat := transpose rh_data_nat in
  rh_data_nat_corr <~ regress x_spike rh_data_nat "rh_native" ;;
  dataNative_corr <~ lift (hstack lh_data_nat_corr rh_data_nat_corr) ;;
  sctx_cereb <~ lift (np_append_axis1 sctx (cereb_values cereb)) ;;
  sctx_cereb <~ lift (as_matrix sctx_cereb) ;;
  sctx_cereb_corr <~ regress x_spike sctx_cereb "sctx_cereb" ;;
  native_connectomes dataNative_corr sctx_cereb_corr n_sctx exclude_labels
    parcellationList ;;;
  additional_QC.

End Pipeline.

(** ** The specification's side *)

(** The confound groups a design matrix is assembled from. *)
Inductive confound :=
| Intercept
| Spikes
| Dof
| Wm
| Csf
| Gs.

(** The priority table of the specification (section 4.1), first match
    wins. *)
Definition spec_design_columns (spike_present nsr gsr : bool) : list confound :=
  if spike_present then
    if nsr then [Intercept; Spikes; Dof; Wm; Csf]
    else if gsr then [Intercept; Spikes; Dof; Wm; Csf; Gs]
    else [Intercept; Spikes]
  else
    if nsr then [Intercept; Dof; Wm; Csf]
    else if gsr then [Intercept; Dof; Wm; Csf; Gs]
    else [Intercept].

(** A flag is enabled when the command line passes ["1"]. *)
Definition flag_enabled (flag : string) : bool := String.eqb flag "1".

(** The design matrix made of the listed groups, left to right. *)
Fixpoint design_of (block : confound -> ndarray) (acc : ndarray)
    (groups : list confound) : result ndarray :=
  match groups with
  | [] => Ok acc
  | g :: rest => a <-? np_append_axis1 acc (block g) ;; design_of block a rest
  end.

Definition spec_design (ones spike dof wm csf gs : ndarray)
    (spike_present nsr gsr : bool) : result ndarray :=
  let block g :=
    match g with
    | Intercept => ones
    | Spikes => spike
    | Dof => dof
    | Wm => wm
    | Csf => csf
    | Gs => gs
    end in
  match spec_design_columns spike_present nsr gsr with
  | [] => Err ValueError
  | g :: rest => design_of block (block g) rest
  end.

(** Every row of a 2-D array has the same length. *)
Definition rectangular {A} (m : list (list A)) : Prop :=
  Forall (fun r => length r = ncols m) m.

(** Column means and mean-centring, as [LinearRegression] applies them
    to both of its arguments when [fit_intercept] is left at its default
    [True]. *)
Definition col_means (X : matrix) : list Qc :=
  map (fun j => (Qsum (col j X) / of_Z (Z.of_nat (length X)))%Qc) (seq 0 (ncols X)).

Definition center_row (means r : list Qc) : list Qc := zip_with Qcminus r means.

Definition center (X : matrix) : matrix := map (center_row (col_means X)) X.

(** The contract of [LinearRegression().fit(X, y).coef_] in exact
    arithmetic: [coef_] has one row per target and one column per feature;
    on the centred data its transpose [B] satisfies the normal equations
    (every centred feature is orthogonal to every column of the centred
    residual) and is the least-norm such solution (its columns lie in the
    row space of the centred features). *)
Definition sklearn_coef_spec (X y coef_ : matrix) : Prop :=
  length coef_ = ncols y /\
  Forall (fun r => length r = ncols X) coef_ /\
  let B := transpose coef_ in
  (exists fitted resid,
      np_dot (center X) B = Ok fitted /\
      np_sub (center y) fitted = Ok resid /\
      forall j k, (j < ncols X)%nat -> (k < ncols y)%nat ->
                  dot (col j (center X)) (col k resid) = 0%Qc) /\
  (exists W, np_dot (transpose (center X)) W = Ok B).

(** Orthogonality of two families of columns. *)
Definition columns_orthogonal (X R : matrix) : Prop :=
  forall j k, (j < ncols X)%nat -> (k < ncols R)%nat ->
              dot (col j X) (col k R) = 0%Qc.

(** ** A small run used to evaluate the script *)

Module Sample.

(** [float(s)] on plain decimal numerals such as ["12"] or ["3.50"]. *)
Fixpoint digits (s : string) (acc : Z) : option Z :=
  match s with
  | EmptyString => Some acc
  | String c s' =>
      let n := Z.of_nat (nat_of_ascii c) - 48 in
      if (0 <=? n) && (n <=? 9) then digits s' (10 * acc + n) else None
  end.

Definition py_float (s : string) : result Qc :=
  match str_split "." s with
  | [i] =>
      match i, digits i 0 with
      | String _ _, Some z => Ok (of_Z z)
      | _, _ => Err ValueError
      end
  | [i; f] =>
      match i +:+ f, digits i 0, digits f 0 with
      | String _ _, Some z, Some d =>
          Ok (of_Z z + frac d (Pos.pow 10 (Pos.of_nat (String.length f))))%Qc
      | _, _, _ => Err ValueError
      end
  | _ => Err ValueError
  end.

(** Two timepoints; six motion parameters are cut down to two. *)
Definition dof : ndarray := Arr2 2 [[of_Z 1; of_Z 2]; [of_Z 3; of_Z 5]].
Definition wm : ndarray := Arr1 [of_Z 4; of_Z 6].
Definition csf : ndarray := Arr1 [of_Z 7; of_Z 9].
Definition gs : ndarray := Arr1 [of_Z 8; of_Z 3].
Definition spike : ndarray := Arr1 [of_Z 1; of_Z 0].

Definition np_loadtxt (path : string) : result ndarray :=
  if String.eqb path "dof.1D" then Ok dof
  else if String.eqb path "WM.txt" then Ok wm
  else if String.eqb path "CSF.txt" then Ok csf
  else if String.eqb path "global.txt" then Ok gs
  else if String.eqb path "spikeRegressors_FD.1D" then Ok spike
  else Err OSError.

(** A fit that is never reached. *)
Definition no_fit (X y : matrix) : result matrix := Err ValueError.

Definition Data : matrix := [[of_Z 3]; [of_Z 1]].

(** A stand-in for [np.corrcoef] of the right shape: one row and one
    column per variable, every entry [nan]. *)
Definition np_corrcoef (vars : list (list npfloat)) : list (list npfloat) :=
  map (fun _ => map (fun _ => NaN) vars) vars.

(** Two timepoints, two cerebellar regions kept by the co-registration:
    regions 2 and 1 of the atlas, in that order. *)
Definition cereb_tmp : ndarray :=
  Arr2 2 [[frac 1 2; of_Z 3]; [frac 3 2; of_Z 4]].
Definition roiLabels : list string := ["2"; "1"].

(** One subcortical column, the 34 cerebellar ones and one cortical
    region. *)
Definition n_sctx : nat := 1.

(** A row of the 34-column cerebellar array: the given leading entries,
    then zeros. *)
Definition of_list_34 (l : list Z) : list Z := l ++ replicate (34 - length l) 0.

(** The cerebellar array the script rebuilds from [cereb_tmp]. *)
Definition cereb : list (list Z) := [of_list_34 [3; 0]; of_list_34 [4; 1]].
Definition ts : list (list npfloat) := [replicate 36 (Fin 1%Qc)].

(** Atlas regions 1 and 2 are present, so indices 2 to 33 are missing. *)
Definition exclude_labels : list pylabel := map LInt (seqZ 2 32).

(** Three cortical vertices at one timepoint; the parcellation carries the
    labels 1, 2, 2 (no vertex is labelled 0). *)
Definition data_corr_ctx : matrix := [[of_Z 10; of_Z 20; of_Z 30]].
Definition thisparc : list Qc := [of_Z 1; of_Z 2; of_Z 2].

(** A run in which the surfaces are in place and every text file is
    empty, so that [np.loadtxt] returns a 1-D array without entries. *)
Definition os_listdir (path : string) : result (list string) :=
  Ok ["sub-01_func_space-conte69-32k_lh_10mm.mgh"].
Definition glob (pattern : string) : list string := [pattern].
(** Two vertices per hemisphere, two timepoints. *)
Definition nib_load_fdata (path : string) : result matrix :=
  Ok [[of_Z 1; of_Z 2]; [of_Z 3; of_Z 4]].
Definition loadtxt_empty (path : string) : result ndarray := Ok (Arr1 []).
Definition read_text (path : string) : result string := Ok "".
Definition read_annot (path : string) : result annot := Err OSError.
Definition additional_QC : Script unit := ret tt.

(** Two parcellations per space, one of which has to be skipped: on
    conte69 the unsupported [aparc-a2009s]; on the native surface [aparc],
    whose annotation has four labels for two vertices. *)
Definition parc_loadtxt (path : string) : result ndarray :=
  if String.eqb path "/parc/schaefer-100_conte69.csv"
  then Ok (Arr1 [of_Z 0; of_Z 1])
  else Err OSError.

Definition annots (path : string) : result annot :=
  if String.eqb path "/labels/lh.schaefer-100_mics.annot"
  then Ok {| labels := [5]; ctab := [[0; 0; 0; 0; 5]] |}
  else if String.eqb path "/labels/rh.schaefer-100_mics.annot"
  then Ok {| labels := [7]; ctab := [[0; 0; 0; 0; 7]] |}
  else if String.eqb path "/labels/lh.aparc_mics.annot"
  then Ok {| labels := [1; 1]; ctab := [[0; 0; 0; 0; 1]] |}
  else if String.eqb path "/labels/rh.aparc_mics.annot"
  then Ok {| labels := [1; 1]; ctab := [[0; 0; 0; 0; 1]] |}
  else Err OSError.

Definition parcellationList : list string := ["aparc"; "schaefer-100"].
Definition parcellationList_conte : list string :=
  ["aparc-a2009s_conte69"; "schaefer-100_conte69"].

(** One timepoint; 1 subcortical, 34 cerebellar and 2 cortical columns. *)
Definition data_corr : matrix := [map of_Z (seqZ 1 37)].
Definition dataNative_corr : matrix := [[of_Z 4; of_Z 6]].
Definition sctx_cereb_corr : matrix := [map of_Z (seqZ 1 35)].

(** The design [ones, spike] of the sample run, its least-squares
    coefficients on the centred data ([coef_], one row per target), and a
    fit that returns them. *)
Definition design : matrix := [[of_Z 1; of_Z 1]; [of_Z 1; of_Z 0]].
Definition coef_ : matrix := [[of_Z 0; of_Z 2]].
Definition fit (X y : matrix) : result matrix := Ok coef_.

End Sample.

(** ** Names used to state what the loops leave behind *)

Definition conte_fc_name (funcDir subject parcellation : string) : string :=
  funcDir +:+ "/surfaces/" +:+ subject +:+ "_func_space-conte69-32k_atlas-"
    +:+ str_replace "_conte69" "" parcellation +:+ "_desc-FC.txt".

Definition native_fc_name (funcDir subject parcellation : string) : string :=
  funcDir +:+ "/surfaces/" +:+ subject +:+ "_func_space-fsnative_atlas-"
    +:+ parcellation +:+ "_desc-FC.txt".

Definition unsupported_notice (parcellation : string) : string :=
  "parcellation " +:+ parcellation +:+ " currently not supported".

Definition mismatch_notice (parcellation : string) : string :=
  "ERROR.." +:+ parcellation +:+ "_mics.annot"
    +:+ " has a mismatch between the native surface and the annot file!!".

(** Both annotation files of a parcellation are readable and their label
    arrays do not add up to the number of native timeseries columns. *)
Definition annot_length_mismatch (read_annot : string -> result annot)
    (labelDir : string) (dataNative_corr : matrix) (parcellation : string) : bool :=
  match read_annot (os_path_join labelDir ("lh." +:+ parcellation +:+ "_mics.annot")),
        read_annot (os_path_join labelDir ("rh." +:+ parcellation +:+ "_mics.annot")) with
  | Ok lh, Ok rh =>
      negb (Nat.eqb (ncols dataNative_corr)
              (length (labels lh) + length (labels rh)))
  | _, _ => false
  end.

(** [w'] has every file and every printed line of [w]. *)
Definition extends (w w' : world) : Prop :=
  (forall f, is_Some (files w !! f) -> is_Some (files w' !! f)) /\
  (forall line, line ∈ stdout w -> line ∈ stdout w').

(** Two arrays with the same number of rows, of the same lengths. *)
Definition same_row_lengths (a b : matrix) : Prop :=
  Forall2 (fun r1 r2 => length r1 = length r2) a b.

(** ** Predicates on matrices, labels and loops *)

Definition zero : npfloat := Fin 0%Qc.

(** Every entry of column [c] is zero. *)
Definition col_zero (c : nat) (m : list (list npfloat)) : Prop :=
  forall r row x, m !! r = Some row -> row !! c = Some x -> x = zero.

(** Every entry of row [r] is zero. *)
Definition row_zero (r : nat) (m : list (list npfloat)) : Prop :=
  forall row x c, m !! r = Some row -> row !! c = Some x -> x = zero.

(** Every entry below the main diagonal is zero. *)
Definition upper_triangular (m : list (list npfloat)) : Prop :=
  forall i j row x, m !! i = Some row -> row !! j = Some x -> (j < i)%nat -> x = zero.

(** Every entry of [m'] is zero or is the entry of [m] at that place. *)
Definition only_zeroed (m m' : list (list npfloat)) : Prop :=
  forall r row' c x, m' !! r = Some row' -> row' !! c = Some x ->
    x = zero \/ exists row, m !! r = Some row /\ row !! c = Some x.

(** The mask [thisparc == lab]. *)
Definition position_mask (thisparc : list Qc) (lab : nat) : list bool :=
  map (fun x => Qc_eqb x (of_Z (Z.of_nat lab))) thisparc.

(** [m'] has as many rows and columns as [m]. *)
Definition same_shape (m m' : list (list npfloat)) : Prop :=
  length m' = length m /\ ncols m' = ncols m.

(** The two forms [exclude_labels] takes in the script. *)
Definition exclude_labels_form (excl : list pylabel) : Prop :=
  excl = [LNaN] \/ exists l, excl = map LInt l.

(** What a finished loop owes to one parcellation: its notice when it was
    skipped, its connectivity matrix otherwise. *)
Definition conte_outcome (subject funcDir : string) (p : string) (w : world) : Prop :=
  if String.eqb p "aparc-a2009s_conte69"
  then unsupported_notice p ∈ stdout w
  else is_Some (files w !! conte_fc_name funcDir subject p).

Definition native_outcome (read_annot : string -> result annot)
    (subject funcDir labelDir : string) (dataNative_corr : matrix)
    (p : string) (w : world) : Prop :=
  if annot_length_mismatch read_annot labelDir dataNative_corr p
  then mismatch_notice p ∈ stdout w
  else is_Some (files w !! native_fc_name funcDir subject p).

(** ** Shapes, cells and character counts *)

(** A 2-D array whose first row has an entry. *)
Definition has_entries (a : ndarray) : Prop :=
  match a with
  | Arr2 _ ((_ :: _) :: _) => True
  | _ => False
  end.

(** An array whose first row has at least two entries. *)
Definition wide (a : ndarray) : Prop :=
  exists c x y t m, a = Arr2 c ((x :: y :: t) :: m).

(** The entry at row [r] and column [c], when there is one. *)
Definition cell (m : list (list npfloat)) (r c : nat) : option npfloat :=
  match m !! r with
  | Some row => row !! c
  | None => None
  end.

(** The mask [native_parc == u]. *)
Definition label_mask (native_parc : list Z) (u : Z) : list bool :=
  map (fun x => Z.eqb x u) native_parc.

(** The number of occurrences of a character in a string. *)
Fixpoint count_char (c : ascii) (s : string) : nat :=
  match s with
  | EmptyString => O
  | String a s' => (if Ascii.eqb c a then 1 else 0) + count_char c s'
  end.

(** A character does not occur in a string. *)
Fixpoint lacks (c : ascii) (s : string) : Prop :=
  match s with
  | EmptyString => True
  | String a s' => a <> c /\ lacks c s'
  end.

(** The tab character. *)
Definition tab : ascii := ascii_of_nat 9.

(** A script that writes no file, however it ends. *)
Definition keeps_files {A} (m : Script A) : Prop :=
  forall w o w', m w = (o, w') -> files w' = files w.

(** ** Further runs used to evaluate the script *)

Module Runs.

(** The design of the sample run with [performNSR = "1"] and a spike file:
    intercept, spike, the two motion parameters, white matter and CSF. *)
Definition mdl_nsr : ndarray :=
  Arr2 6 [[1%Qc; of_Z 1; of_Z 1; of_Z 2; of_Z 4; of_Z 7];
        [1%Qc; of_Z 0; of_Z 3; of_Z 5; of_Z 6; of_Z 9]].

(** The sample run without a global-signal file. *)
Definition loadtxt_no_gs (path : string) : result ndarray :=
  if String.eqb path "global.txt" then Err OSError else Sample.np_loadtxt path.

(** The sample run with a spike file that exists and is empty, and a fit
    that turns down a design without samples, as sklearn does. *)
Definition loadtxt_empty_spike (path : string) : result ndarray :=
  if String.eqb path "spikeRegressors_FD.1D" then Ok (Arr1 [])
  else Sample.np_loadtxt path.
Definition fit_needs_samples (X y : matrix) : result matrix :=
  match X with
  | [] => Err ValueError
  | _ => Ok Sample.coef_
  end.

(** The sample run with a motion file of a single row. *)
Definition flat_dof : list Qc := [of_Z 1; of_Z 2].
Definition loadtxt_flat_dof (path : string) : result ndarray :=
  if String.eqb path "dof.1D" then Ok (Arr1 flat_dof) else Sample.np_loadtxt path.

(** Thirty-five cerebellar labels that cover all 34 regions: region 0 comes
    twice. *)
Definition roiList : list Z := seqZ 0 34 ++ [0].

(** A correlation matrix over two regions, and what is left of it when
    region 0 is missing. *)
Definition ts_r : list (list npfloat) :=
  [[Fin (of_Z 1); Fin (of_Z 2)]; [Fin (of_Z 3); Fin (of_Z 4)]].
Definition masked : list (list npfloat) :=
  [[Fin (of_Z 0); Fin (of_Z 0)]; [Fin (of_Z 0); Fin (of_Z 4)]].

(** Annotations whose left hemisphere carries the label 9, which the
    colour table (label 5 only) does not list. *)
Definition annots (path : string) : result annot :=
  if String.eqb path "/labels/lh.schaefer-100_mics.annot"
  then Ok {| labels := [5; 9]; ctab := [[0; 0; 0; 0; 5]] |}
  else if String.eqb path "/labels/rh.schaefer-100_mics.annot"
  then Ok {| labels := []; ctab := [[0; 0; 0; 0; 7]] |}
  else Err OSError.

(** Two hemispheres with two and one regions. *)
Definition lh : annot :=
  {| labels := [5; 3; 5]; ctab := [[0; 0; 0; 0; 3]; [0; 0; 0; 0; 5]] |}.
Definition rh : annot :=
  {| labels := [7; 7]; ctab := [[0; 0; 0; 0; 7]] |}.

(** A surfaces directory that is empty, one that does not exist, and
    surface files that cannot be read. *)
Definition listdir_empty (path : string) : result (list string) := Ok [].
Definition listdir_absent (path : string) : result (list string) := Err OSError.
Definition nib_unreadable (path : string) : result matrix := Err OSError.

(** A subcortical file that holds a single number. *)
Definition loadtxt_scalar (path : string) : result ndarray := Ok (Arr0 (of_Z 5)).

(** A ROI statistics file: the name of the volume, the sub-brick label
    between two tabs, then labels and means in turn. *)
Definition stats_header : string :=
  "sub-01_cerebellum.nii.gz" +:+ String tab ("0[?]" +:+ String tab "").
Definition stats_fields : list string := ["2"; "0.50"; "1"; "3.00"].
Definition read_stats (path : string) : result string :=
  Ok (stats_header +:+ String.concat (String tab "") stats_fields).
Definition loadtxt_cereb (path : string) : result ndarray := Ok Sample.cereb_tmp.

(** Three conte69 parcellations, the second of which has no csv file. *)
Definition done_ : list string := ["schaefer-100_conte69"].
Definition rest : list string := ["economo_conte69"].

End Runs.

(** ** Files of a run *)

(** The other files the script saves in the surfaces directory. *)
Definition clean_name (funcDir subject : string) : string :=
  funcDir +:+ "/surfaces/" +:+ subject
    +:+ "_func_space-conte69-32k_desc-timeseries_clean.txt".

Definition native_ts_name (funcDir subject parcellation : string) : string :=
  funcDir +:+ "/surfaces/" +:+ subject +:+ "_func_space-fsnative_atlas-"
    +:+ parcellation +:+ "_desc-timeseries.txt".

(** The name of a connectivity matrix, of either space and of any
    parcellation. *)
Definition fc_file (funcDir subject f : string) : Prop :=
  exists parcellation,
    f = conte_fc_name funcDir subject parcellation \/
    f = native_fc_name funcDir subject parcellation.

(** Under [m], a file whose name is in [P] keeps its content or gets one
    that satisfies [G], however [m] ends. *)
Definition guards {A} (P : string -> Prop) (G : saved -> Prop) (m : Script A) : Prop :=
  forall w o w' f s,
    m w = (o, w') -> P f -> files w' !! f = Some s ->
    files w !! f = Some s \/ G s.

(** A script that leaves the connectivity matrices as they are. *)
Definition spares_connectomes (funcDir subject : string) (m : Script unit) : Prop :=
  forall w o w' f,
    m w = (o, w') -> fc_file funcDir subject f -> files w' !! f = files w !! f.

(** A connectivity matrix as the masking block saves it in this run: the
    correlation matrix of some regional timeseries, masked with the
    number of subcortical columns and the missing regions that the run
    has computed. *)
Definition connectome_of_run (np_loadtxt : string -> result ndarray)
    (read_text : string -> result string) (py_float : string -> result Qc)
    (np_corrcoef : list (list npfloat) -> list (list npfloat))
    (subject funcDir func_lab : string) (s : saved) : Prop :=
  exists sctx n_sctx cereb excl wa wb wc wd ts,
    load_subcortex np_loadtxt subject funcDir func_lab wa = (Ret (sctx, n_sctx), wb) /\
    load_cerebellum np_loadtxt read_text py_float subject funcDir func_lab wc
    = (Ret (cereb, excl), wd) /\
    mask_connectome excl n_sctx (np_corrcoef (transpose_of NaN ts)) = Ok (content s) /\
    fmt s = "%.6f".

(** ** A complete run *)

(** Two vertices per hemisphere on the conte69 and on the native surface,
    two timepoints, two subcortical columns, the two cerebellar regions of
    [Sample.cereb_tmp], no spike file and one parcellation. *)
Module Full.

Definition os_listdir (path : string) : result (list string) :=
  if String.eqb path "/volm"
  then Ok ["sub-01_atlas-subcortical.nii.gz"; "sub-01_atlas-cerebellum.nii.gz";
           "sub-01_atlas-schaefer-100.nii.gz"]
  else Ok ["sub-01_func_space-conte69-32k_lh_10mm.mgh";
           "sub-01_func_space-conte69-32k_rh_10mm.mgh"].

Definition glob (pattern : string) : list string :=
  if String.eqb pattern "/func/volumetric/*spikeRegressors_FD.1D" then []
  else [pattern].

Definition sctx : ndarray := Arr2 2 [[of_Z 1; of_Z 2]; [of_Z 2; of_Z 1]].

Definition np_loadtxt (path : string) : result ndarray :=
  if String.eqb path "/func/volumetric/sub-01_timeseries_subcortical.txt"
  then Ok sctx
  else if String.eqb path "/func/volumetric/sub-01_timeseries_cerebellum.txt"
  then Ok Sample.cereb_tmp
  else if String.eqb path "/parc/schaefer-100_conte69.csv"
  then Ok (Arr1 [of_Z 0; of_Z 0; of_Z 1; of_Z 1])
  else Ok Sample.dof.

Definition read_annot (path : string) : result annot :=
  if String.eqb path "/labels/lh.schaefer-100_mics.annot"
  then Ok {| labels := [5; 3]; ctab := [[0; 0; 0; 0; 3]; [0; 0; 0; 0; 5]] |}
  else if String.eqb path "/labels/rh.schaefer-100_mics.annot"
  then Ok {| labels := [7; 7]; ctab := [[0; 0; 0; 0; 7]] |}
  else Err OSError.

Definition run : outcome unit * world :=
  main os_listdir glob Sample.nib_load_fdata np_loadtxt Runs.read_stats
    Sample.py_float read_annot Sample.no_fit Sample.np_corrcoef
    Sample.additional_QC "sub-01" "/func" "/labels" "/parc" "/volm"
    "1" "0" "" "FALSE" initial_world.

Definition no_file : saved := {| fmt := "none"; content := [] |}.

Definition conte_fc : saved :=
  default no_file
    (files (snd run) !! conte_fc_name "/func" "sub-01" "schaefer-100_conte69").

Definition native_fc : saved :=
  default no_file
    (files (snd run) !! native_fc_name "/func" "sub-01" "schaefer-100").

End Full.

(** ** Tactics *)

(** Runs the [print] at the head of the script in the goal. *)
Ltac run_print :=
  match goal with
  | |- context [bind (print ?s) ?k ?w] =>
      change (bind (print s) k w)
        with (k tt {| stdout := stdout w ++ [s]; files := files w |});
      cbv beta
  end.

(** Closes an equation between evaluated arrays: the numerators and
    denominators are compared, the canonicity proofs are not. *)
Ltac qc_eval :=
  vm_compute;
  repeat match goal with
    | |- @eq Qc _ _ => apply Qc_is_canon; reflexivity
    | |- _ = _ => reflexivity
    | |- Ok _ = Ok _ => f_equal
    | |- Fin _ = Fin _ => f_equal
    | |- _ :: _ = _ :: _ => f_equal
    end.

(** * Properties *)

(** ** The monad *)

Lemma bind_lift_ok {A B} (a : A) (k : A -> Script B) :
  bind (lift (Ok a)) k = k a.
Proof. reflexivity. Qed.

Lemma bind_ret {A B} (a : A) (k : A -> Script B) : bind (ret a) k = k a.
Proof. reflexivity. Qed.

Lemma bind_print {B} (s : string) (k : unit -> Script B) (w : world) :
  bind (print s) k w = k tt {| stdout := stdout w ++ [s]; files := files w |}.
Proof. reflexivity. Qed.


(** ** Array equality *)

Lemma Qc_eqb_refl (x : Qc) : Qc_eqb x x = true.
Proof.
  unfold Qc_eqb, Qc_eq_bool. destruct (Qcanon.Qc_eq_dec x x); congruence.
Qed.

Lemma list_eqb_refl {A} (eqb : A -> A -> bool) (l : list A) :
  (forall x, eqb x x = true) -> list_eqb eqb l l = true.
Proof.
  intros Hrefl. induction l as [|x l IH]; simpl; [reflexivity|].
  rewrite Hrefl, IH. reflexivity.
Qed.

Lemma array_equal_refl (a : ndarray) : array_equal a a = true.
Proof.
  destruct a; simpl.
  - apply Qc_eqb_refl.
  - apply list_eqb_refl, Qc_eqb_refl.
  - rewrite Nat.eqb_refl. cbn [andb].
    apply list_eqb_refl. intros r. apply list_eqb_refl, Qc_eqb_refl.
Qed.

(** A [str] flag never passes the test [flag == 1]. *)
Lemma str_flag_is_not_int_one (flag : string) : py_eq (PyStr flag) (PyInt 1) = false.
Proof. reflexivity. Qed.

(** ** The regressor without a spike file *)

Section NoSpike.

Variable np_loadtxt : string -> result ndarray.
Variable fit : matrix -> matrix -> result matrix.
Variables x_dof x_csf x_wm x_gs : string.
Variables dof csf wm gs : ndarray.
Hypothesis load_dof : np_loadtxt x_dof = Ok dof.
Hypothesis load_csf : np_loadtxt x_csf = Ok csf.
Hypothesis load_wm : np_loadtxt x_wm = Ok wm.
Hypothesis load_gs : np_loadtxt x_gs = Ok gs.
Hypothesis wm_not_scalar : ndim wm <> O.

Lemma expand_dim_rows :
  exists k, tuple_get (shape (expand_dim wm)) 0 = Ok k.
Proof.
  destruct wm as [x|v|m]; simpl.
  - exfalso. apply wm_not_scalar. reflexivity.
  - eexists. reflexivity.
  - eexists. reflexivity.
Qed.

(** With string flags the branch without a spike file always ends on
    [mdl = ones]. *)
Lemma assemble_mdl_no_spike (nsr gsr Data_name : string) (w : world) :
  exists k,
    tuple_get (shape (expand_dim wm)) 0 = Ok k /\
    assemble_mdl np_loadtxt x_dof x_csf x_wm x_gs "" (PyStr nsr) (PyStr gsr)
      Data_name w
    = (Ret (np_ones_col k, np_ones_col k),
       {| stdout := stdout w ++ [""]
                      ++ ["NO spikeRegressors_FD file, will skip loading: " +:+ Data_name]
                      ++ [Data_name +:+ ", model : none"];
          files := files w |}).
Proof.
  destruct expand_dim_rows as [k Hk]. exists k. split; [exact Hk|].
  unfold assemble_mdl. cbv zeta.
  rewrite load_dof, bind_lift_ok, load_csf, bind_lift_ok, load_wm, bind_lift_ok,
    load_gs, bind_lift_ok.
  run_print. change (str_truthy "") with false. cbv iota.
  rewrite Hk, bind_lift_ok. run_print.
  rewrite !str_flag_is_not_int_one. cbv iota. run_print.
  unfold ret. cbn [stdout files]. rewrite <- !app_assoc. reflexivity.
Qed.

Lemma check_arrays_same (fit' : matrix -> matrix -> result matrix)
    (ones : ndarray) (Data : matrix) (w : world) :
  check_arrays fit' ones ones Data w = (Ret Data, w).
Proof. unfold check_arrays. rewrite array_equal_refl. reflexivity. Qed.

(** C2. Without a spike-regressor file ([x_spike] empty),
    [get_regressed_data] returns its input [Data] unchanged whatever the
    string values of [performNSR] and [performGSR]: both tests of that
    branch compare a string with the integer 1 and fail, so the model is
    the intercept alone.  Nothing is written to disk. *)
Theorem no_spike_returns_input (Data : matrix) (nsr gsr Data_name : string)
    (w : world) :
  exists w',
    get_regressed_data np_loadtxt fit x_dof x_csf x_wm x_gs ""
      Data (PyStr nsr) (PyStr gsr) Data_name w = (Ret Data, w') /\
    files w' = files w.
Proof.
  destruct (assemble_mdl_no_spike nsr gsr Data_name w) as (k & _ & Hasm).
  eexists. unfold get_regressed_data, bind. rewrite Hasm.
  cbn [fst snd]. rewrite check_arrays_same. split; reflexivity.
Qed.

(** C6. With no spike file and neither flag enabled the assembled design
    matrix is the intercept column itself, and [get_regressed_data] takes
    the branch of [check_arrays] that returns [Data] as it is: the result
    is the same for every fitting routine, and the only lines printed are
    the three of the model selection (no "apply regression"). *)
Theorem intercept_only_design_skips_fit (Data : matrix)
    (nsr gsr Data_name : string) (w : world) :
  flag_enabled nsr = false ->
  flag_enabled gsr = false ->
  exists k w',
    assemble_mdl np_loadtxt x_dof x_csf x_wm x_gs "" (PyStr nsr) (PyStr gsr)
      Data_name w = (Ret (np_ones_col k, np_ones_col k), w') /\
    stdout w' = stdout w ++ [""; "NO spikeRegressors_FD file, will skip loading: "
                                   +:+ Data_name;
                             Data_name +:+ ", model : none"] /\
    files w' = files w /\
    forall fit' : matrix -> matrix -> result matrix,
      get_regressed_data np_loadtxt fit' x_dof x_csf x_wm x_gs ""
        Data (PyStr nsr) (PyStr gsr) Data_name w = (Ret Data, w').
Proof.
  intros _ _.
  destruct (assemble_mdl_no_spike nsr gsr Data_name w) as (k & _ & Hasm).
  exists k. eexists. split; [exact Hasm|]. cbn [stdout files].
  split; [reflexivity|]. split; [reflexivity|].
  intros fit'. unfold get_regressed_data, bind. rewrite Hasm.
  cbn [fst snd]. apply check_arrays_same.
Qed.

End NoSpike.

Lemma no_spike_returns_input_witness :
  Sample.np_loadtxt "dof.1D" = Ok Sample.dof /\
  Sample.np_loadtxt "CSF.txt" = Ok Sample.csf /\
  Sample.np_loadtxt "WM.txt" = Ok Sample.wm /\
  Sample.np_loadtxt "global.txt" = Ok Sample.gs /\
  ndim Sample.wm <> O /\
  exists w',
    get_regressed_data Sample.np_loadtxt Sample.no_fit
      "dof.1D" "CSF.txt" "WM.txt" "global.txt" ""
      Sample.Data (PyStr "1") (PyStr "1") "conte69" initial_world
    = (Ret Sample.Data, w') /\
    files w' = files initial_world.
Proof.
  repeat (split; [reflexivity || (simpl; discriminate)|]).
  apply (no_spike_returns_input Sample.np_loadtxt Sample.no_fit
           "dof.1D" "CSF.txt" "WM.txt" "global.txt"
           Sample.dof Sample.csf Sample.wm Sample.gs);
    reflexivity || (simpl; discriminate).
Defined.

Lemma intercept_only_design_skips_fit_witness :
  flag_enabled "0" = false /\
  exists k w',
    assemble_mdl Sample.np_loadtxt "dof.1D" "CSF.txt" "WM.txt" "global.txt" ""
      (PyStr "0") (PyStr "0") "conte69" initial_world
    = (Ret (np_ones_col k, np_ones_col k), w') /\
    stdout w' = stdout initial_world
                  ++ [""; "NO spikeRegressors_FD file, will skip loading: " +:+ "conte69";
                      "conte69" +:+ ", model : none"] /\
    files w' = files initial_world /\
    forall fit' : matrix -> matrix -> result matrix,
      get_regressed_data Sample.np_loadtxt fit'
        "dof.1D" "CSF.txt" "WM.txt" "global.txt" ""
        Sample.Data (PyStr "0") (PyStr "0") "conte69" initial_world
      = (Ret Sample.Data, w').
Proof.
  split; [reflexivity|].
  apply (intercept_only_design_skips_fit Sample.np_loadtxt
           "dof.1D" "CSF.txt" "WM.txt" "global.txt"
           Sample.dof Sample.csf Sample.wm Sample.gs);
    reflexivity || (simpl; discriminate).
Defined.

(** ** The priority table against the assembled design *)

(** With a spike file the three rows of the table are what the code
    assembles. *)
Lemma spike_branch_follows_table
    (np_loadtxt : string -> result ndarray) (x_dof x_csf x_wm x_gs x_spike : string)
    (dof csf wm gs spike : ndarray) (nsr gsr Data_name : string) (w : world)
    (k : nat) (design : ndarray) :
  np_loadtxt x_dof = Ok dof -> np_loadtxt x_csf = Ok csf ->
  np_loadtxt x_wm = Ok wm -> np_loadtxt x_gs = Ok gs ->
  np_loadtxt x_spike = Ok spike ->
  str_truthy x_spike = true ->
  tuple_get (shape (expand_dim spike)) 0 = Ok k ->
  spec_design (np_ones_col k) (expand_dim spike) dof (expand_dim wm)
    (expand_dim csf) (expand_dim gs) true (flag_enabled nsr) (flag_enabled gsr)
  = Ok design ->
  fst (assemble_mdl np_loadtxt x_dof x_csf x_wm x_gs x_spike
         (PyStr nsr) (PyStr gsr) Data_name w)
  = Ret (design, np_ones_col k).
Proof.
  intros Hdof Hcsf Hwm Hgs Hspike Htruthy Hk Hspec.
  unfold assemble_mdl. cbv zeta.
  rewrite Hdof, bind_lift_ok, Hcsf, bind_lift_ok, Hwm, bind_lift_ok,
    Hgs, bind_lift_ok.
  run_print. rewrite Htruthy. cbv iota.
  rewrite Hspike, bind_lift_ok, Hk, bind_lift_ok.
  unfold spec_design, spec_design_columns, flag_enabled in Hspec.
  change (py_eq (PyStr nsr) (PyStr "1")) with (String.eqb nsr "1").
  change (py_eq (PyStr gsr) (PyStr "1")) with (String.eqb gsr "1").
  destruct (String.eqb nsr "1"); [|destruct (String.eqb gsr "1")];
    run_print; cbn [design_of rbind] in Hspec; cbv beta iota zeta in Hspec;
    repeat match type of Hspec with
      | context [np_append_axis1 ?a ?b] =>
          destruct (np_append_axis1 a b); [|discriminate Hspec];
          rewrite ?bind_lift_ok; cbn [rbind] in Hspec
      end;
    injection Hspec as ->; reflexivity.
Qed.

(** C1. Evaluated on a run without a spike file and with the command line
    flag [performNSR = "1"], the code assembles the intercept column only,
    whereas the priority table asks for [intercept, dof, wm, csf] (five
    columns here, since [dof] has two). *)
Theorem no_spike_NSR_design_is_intercept_only :
  fst (assemble_mdl Sample.np_loadtxt "dof.1D" "CSF.txt" "WM.txt" "global.txt" ""
         (PyStr "1") (PyStr "0") "conte69" initial_world)
  = Ret (np_ones_col 2, np_ones_col 2) /\
  exists design,
    spec_design (np_ones_col 2) (expand_dim Sample.spike) Sample.dof
      (expand_dim Sample.wm) (expand_dim Sample.csf) (expand_dim Sample.gs)
      false (flag_enabled "1") (flag_enabled "0") = Ok design /\
    shape design = [2; 5]%nat /\
    design <> np_ones_col 2.
Proof.
  split; [reflexivity|].
  eexists. split; [reflexivity|]. split; [reflexivity|]. discriminate.
Qed.

(** ** Zeroing and the upper triangle *)

Lemma lookup_map {A B} (f : A -> B) (l : list A) (i : nat) :
  map f l !! i = f <$> (l !! i).
Proof. exact (list_lookup_fmap f l i). Qed.


Lemma only_zeroed_refl m : only_zeroed m m.
Proof. intros r row c x Hr Hc. right. eauto. Qed.

Lemma only_zeroed_trans m1 m2 m3 :
  only_zeroed m1 m2 -> only_zeroed m2 m3 -> only_zeroed m1 m3.
Proof.
  intros H12 H23 r row c x Hr Hc.
  destruct (H23 r row c x Hr Hc) as [->|(row2 & Hr2 & Hc2)]; [left; reflexivity|].
  exact (H12 r row2 c x Hr2 Hc2).
Qed.

Lemma only_zeroed_col_zero m m' c :
  only_zeroed m m' -> col_zero c m -> col_zero c m'.
Proof.
  intros Hz Hc r row x Hr Hx.
  destruct (Hz r row c x Hr Hx) as [->|(row0 & Hr0 & Hx0)]; [reflexivity|].
  exact (Hc r row0 x Hr0 Hx0).
Qed.

Lemma only_zeroed_row_zero m m' r :
  only_zeroed m m' -> row_zero r m -> row_zero r m'.
Proof.
  intros Hz Hrz row x c Hr Hx.
  destruct (Hz r row c x Hr Hx) as [->|(row0 & Hr0 & Hx0)]; [reflexivity|].
  exact (Hrz row0 x c Hr0 Hx0).
Qed.

Lemma py_index_nonneg (n : nat) (i : Z) (j : nat) :
  0 <= i -> py_index n i = Ok j -> j = Z.to_nat i /\ (j < n)%nat.
Proof.
  intros Hi. unfold py_index.
  destruct (0 <=? i) eqn:E0; [|lia].
  destruct (i <? Z.of_nat n) eqn:E1; simpl.
  - intros [= <-]. split; [reflexivity|]. apply Z.ltb_lt in E1. lia.
  - destruct (- Z.of_nat n <=? i); simpl; [|discriminate].
    destruct (i <? 0) eqn:E2; [|discriminate]. apply Z.ltb_lt in E2. lia.
Qed.

Lemma zero_col_spec (j : Z) (m m' : list (list npfloat)) :
  zero_col j m = Ok m' ->
  exists j', py_index (ncols m) j = Ok j' /\ col_zero j' m' /\ only_zeroed m m'.
Proof.
  unfold zero_col, rbind. destruct (py_index (ncols m) j) as [j'|]; [|discriminate].
  intros [= <-]. exists j'. split; [reflexivity|]. split.
  - intros r row x Hr Hx. rewrite lookup_map in Hr.
    destruct (m !! r) as [row0|]; [|discriminate]. injection Hr as <-.
    rewrite list_lookup_insert in Hx.
    destruct (decide (j' = j' /\ (j' < length row0)%nat)) as [_|Hn].
    + injection Hx as <-. reflexivity.
    + destruct (row0 !! j') eqn:E; [|discriminate].
      exfalso. apply Hn. split; [reflexivity|].
      apply lookup_lt_Some in E. exact E.
  - intros r row c x Hr Hx. rewrite lookup_map in Hr.
    destruct (m !! r) as [row0|] eqn:E0; [|discriminate]. injection Hr as <-.
    rewrite list_lookup_insert in Hx.
    destruct (decide (j' = c /\ (j' < length row0)%nat)) as [_|_].
    + injection Hx as <-. left. reflexivity.
    + right. exists row0. split; [reflexivity | exact Hx].
Qed.

Lemma zero_row_spec (j : Z) (m m' : list (list npfloat)) :
  zero_row j m = Ok m' ->
  exists j', py_index (length m) j = Ok j' /\ row_zero j' m' /\ only_zeroed m m'.
Proof.
  unfold zero_row, rbind. destruct (py_index (length m) j) as [j'|]; [|discriminate].
  intros [= <-]. exists j'. split; [reflexivity|]. split.
  - intros row x c Hr Hx. rewrite list_lookup_insert in Hr.
    destruct (decide (j' = j' /\ (j' < length m)%nat)) as [_|Hn].
    + injection Hr as <-. apply lookup_replicate in Hx. tauto.
    + exfalso. apply Hn. split; [reflexivity|].
      apply lookup_lt_Some in Hr. exact Hr.
  - intros r row c x Hr Hx. rewrite list_lookup_insert in Hr.
    destruct (decide (j' = r /\ (j' < length m)%nat)) as [_|_].
    + injection Hr as <-. apply lookup_replicate in Hx. left. tauto.
    + right. exists row. split; [exact Hr | exact Hx].
Qed.

Lemma np_triu_only_zeroed m : only_zeroed m (np_triu m).
Proof.
  intros r row c x Hr Hx. unfold np_triu in Hr. rewrite list_lookup_imap in Hr.
  destruct (m !! r) as [row0|]; [|discriminate]. injection Hr as <-.
  rewrite list_lookup_imap in Hx.
  destruct (row0 !! c) as [y|] eqn:E; [|discriminate]. simpl in Hx.
  injection Hx as <-. destruct (c <? r)%nat; [left; reflexivity|].
  right. exists row0. split; [reflexivity | exact E].
Qed.

Lemma np_triu_upper_triangular m : upper_triangular (np_triu m).
Proof.
  intros i j row x Hr Hx Hlt. unfold np_triu in Hr. rewrite list_lookup_imap in Hr.
  destruct (m !! i) as [row0|]; [|discriminate]. injection Hr as <-.
  rewrite list_lookup_imap in Hx.
  destruct (row0 !! j) as [y|]; [|discriminate]. simpl in Hx. injection Hx as <-.
  apply Nat.ltb_lt in Hlt. rewrite Hlt. reflexivity.
Qed.

Lemma zero_missing_only_zeroed excl n_sctx m m' :
  zero_missing excl n_sctx m = Ok m' -> only_zeroed m m'.
Proof.
  revert m. induction excl as [|[i|] rest IH]; intros m; simpl.
  - intros [= <-]. apply only_zeroed_refl.
  - unfold rbind.
    destruct (zero_col _ m) as [m1|] eqn:E1; [|discriminate].
    destruct (zero_row _ m1) as [m2|] eqn:E2; [|discriminate].
    intros H. apply IH in H.
    destruct (zero_col_spec _ _ _ E1) as (_ & _ & _ & H1).
    destruct (zero_row_spec _ _ _ E2) as (_ & _ & _ & H2).
    eauto using only_zeroed_trans.
  - discriminate.
Qed.

(** After the loop, the row and the column of every listed region are
    zero. *)
Lemma zero_missing_zeroes excl n_sctx m m' :
  zero_missing excl n_sctx m = Ok m' ->
  forall i, LInt i ∈ excl -> 0 <= i ->
    col_zero (Z.to_nat i + n_sctx) m' /\ row_zero (Z.to_nat i + n_sctx) m'.
Proof.
  revert m. induction excl as [|[i0|] rest IH]; intros m; simpl.
  - intros _ i Hin. apply elem_of_nil in Hin. contradiction.
  - unfold rbind.
    destruct (zero_col _ m) as [m1|] eqn:E1; [|discriminate].
    destruct (zero_row _ m1) as [m2|] eqn:E2; [|discriminate].
    intros H i Hin Hi. apply elem_of_cons in Hin as [[= ->]|Hin].
    + destruct (zero_col_spec _ _ _ E1) as (j1 & Hj1 & Hc1 & _).
      destruct (zero_row_spec _ _ _ E2) as (j2 & Hj2 & Hr2 & Hz2).
      apply py_index_nonneg in Hj1 as [-> _]; [|lia].
      apply py_index_nonneg in Hj2 as [-> _]; [|lia].
      replace (Z.to_nat i0 + n_sctx)%nat with (Z.to_nat (i0 + Z.of_nat n_sctx)) by lia.
      apply zero_missing_only_zeroed in H. split.
      * eapply only_zeroed_col_zero; [exact H|].
        eapply only_zeroed_col_zero; [exact Hz2 | exact Hc1].
      * eapply only_zeroed_row_zero; [exact H | exact Hr2].
    + exact (IH m2 H i Hin Hi).
  - discriminate.
Qed.

Lemma zero_col_shape j m m' : zero_col j m = Ok m' -> same_shape m m'.
Proof.
  unfold zero_col, rbind. destruct (py_index (ncols m) j) as [j'|]; [|discriminate].
  intros [= <-]. split; [apply length_map|].
  destruct m as [|r m]; [reflexivity|]. cbn [map ncols]. apply length_insert.
Qed.

Lemma zero_row_shape j m m' : zero_row j m = Ok m' -> same_shape m m'.
Proof.
  unfold zero_row, rbind. destruct (py_index (length m) j) as [j'|]; [|discriminate].
  intros [= <-]. split; [apply length_insert|].
  destruct m as [|r m]; [reflexivity|].
  destruct j' as [|j']; cbn; [apply length_replicate | reflexivity].
Qed.

Lemma np_triu_shape m : same_shape m (np_triu m).
Proof.
  unfold np_triu. split; [apply length_imap|].
  destruct m as [|r m]; [reflexivity|]. cbn [imap ncols]. apply length_imap.
Qed.

Lemma same_shape_trans m1 m2 m3 :
  same_shape m1 m2 -> same_shape m2 m3 -> same_shape m1 m3.
Proof. intros [L1 C1] [L2 C2]. split; congruence. Qed.

Lemma zero_missing_shape excl n_sctx m m' :
  zero_missing excl n_sctx m = Ok m' -> same_shape m m'.
Proof.
  revert m. induction excl as [|[i|] rest IH]; intros m; simpl.
  - intros [= <-]. split; reflexivity.
  - unfold rbind.
    destruct (zero_col _ m) as [m1|] eqn:E1; [|discriminate].
    destruct (zero_row _ m1) as [m2|] eqn:E2; [|discriminate].
    intros H. apply IH in H. apply zero_col_shape in E1. apply zero_row_shape in E2.
    eauto using same_shape_trans.
  - discriminate.
Qed.

(** The loop only completes when every listed index is inside the
    matrix. *)
Lemma zero_missing_in_range excl n_sctx m m' :
  zero_missing excl n_sctx m = Ok m' ->
  forall i, LInt i ∈ excl -> 0 <= i ->
    (Z.to_nat i + n_sctx < length m)%nat /\ (Z.to_nat i + n_sctx < ncols m)%nat.
Proof.
  revert m. induction excl as [|[i0|] rest IH]; intros m; simpl.
  - intros _ i Hin. apply elem_of_nil in Hin. contradiction.
  - unfold rbind.
    destruct (zero_col _ m) as [m1|] eqn:E1; [|discriminate].
    destruct (zero_row _ m1) as [m2|] eqn:E2; [|discriminate].
    intros H i Hin Hi.
    destruct (zero_col_shape _ _ _ E1) as [L1 C1].
    destruct (zero_row_shape _ _ _ E2) as [L2 C2].
    apply elem_of_cons in Hin as [[= ->]|Hin].
    + destruct (zero_col_spec _ _ _ E1) as (j1 & Hj1 & _).
      destruct (zero_row_spec _ _ _ E2) as (j2 & Hj2 & _).
      apply py_index_nonneg in Hj1 as [-> B1]; [|lia].
      apply py_index_nonneg in Hj2 as [-> B2]; [|lia].
      split; lia.
    + destruct (IH m2 H i Hin Hi) as [B1 B2]. split; congruence.
  - discriminate.
Qed.

Lemma mask_connectome_shape excl n_sctx ts_r m :
  mask_connectome excl n_sctx ts_r = Ok m -> same_shape ts_r m.
Proof.
  unfold mask_connectome, rbind. destruct excl as [|[i|] rest]; [discriminate| |].
  - destruct (zero_missing _ _ _) as [m1|] eqn:E; [|discriminate].
    intros [= <-]. apply zero_missing_shape in E.
    eapply same_shape_trans; [exact E | apply np_triu_shape].
  - intros [= <-]. apply np_triu_shape.
Qed.

Lemma mask_connectome_upper_triangular excl n_sctx ts_r m :
  mask_connectome excl n_sctx ts_r = Ok m -> upper_triangular m.
Proof.
  unfold mask_connectome, rbind. destruct excl as [|[i|] rest]; [discriminate| |].
  - destruct (zero_missing _ _ _); [|discriminate].
    intros [= <-]. apply np_triu_upper_triangular.
  - intros [= <-]. apply np_triu_upper_triangular.
Qed.


Lemma mask_connectome_zeroes excl n_sctx ts_r m :
  exclude_labels_form excl ->
  mask_connectome excl n_sctx ts_r = Ok m ->
  forall i, LInt i ∈ excl -> 0 <= i ->
    (Z.to_nat i + n_sctx < length m)%nat /\
    (Z.to_nat i + n_sctx < ncols m)%nat /\
    col_zero (Z.to_nat i + n_sctx) m /\ row_zero (Z.to_nat i + n_sctx) m.
Proof.
  intros [->|[l ->]].
  - intros _ i Hin. apply list_elem_of_singleton in Hin. discriminate.
  - intros Hmask. pose proof (mask_connectome_shape _ _ _ _ Hmask) as [HL HC].
    revert Hmask.
    unfold mask_connectome, rbind. destruct l as [|i0 rest]; [discriminate|].
    cbn [map]. change (LInt i0 :: map LInt rest) with (map LInt (i0 :: rest)).
    destruct (zero_missing _ _ _) as [m1|] eqn:E; [|discriminate].
    intros [= <-] i Hin Hi.
    destruct (zero_missing_zeroes _ _ _ _ E i Hin Hi) as [Hc Hr].
    destruct (zero_missing_in_range _ _ _ _ E i Hin Hi) as [B1 B2].
    split; [lia|]. split; [lia|]. split.
    + eapply only_zeroed_col_zero; [apply np_triu_only_zeroed | exact Hc].
    + eapply only_zeroed_row_zero; [apply np_triu_only_zeroed | exact Hr].
Qed.

(** ** The missing-region set *)

Lemma missing_elements_spec (roiList : list Z) (i : Z) :
  i ∈ missing_elements roiList <-> (0 <= i <= 33 /\ i ∉ roiList).
Proof.
  unfold missing_elements. cbv zeta.
  rewrite merge_sort_Permutation, elem_of_elements, elem_of_difference,
    !elem_of_list_to_set, elem_of_seqZ.
  split; intros [H1 H2]; (split; [lia | exact H2]).
Qed.

Lemma missing_elements_sorted (roiList : list Z) :
  Sorted Z.le (missing_elements roiList).
Proof. unfold missing_elements. apply (Sorted_merge_sort Z.le). Qed.

Lemma missing_elements_NoDup (roiList : list Z) : NoDup (missing_elements roiList).
Proof.
  unfold missing_elements. cbv zeta.
  rewrite merge_sort_Permutation. apply NoDup_elements.
Qed.

Section CerebellumFacts.

Variable py_float : string -> result Qc.

(** What [reconcile_cerebellum] returns when it returns: either the input
    itself with the sentinel, or an [int8] array with the sorted missing
    set. *)
Lemma reconcile_cerebellum_cases cereb_tmp roiLabels w cereb excl w' :
  reconcile_cerebellum py_float cereb_tmp roiLabels w = (Ret (cereb, excl), w') ->
  (length roiLabels = 34%nat /\ cereb = F64 cereb_tmp /\ excl = [LNaN]) \/
  (length roiLabels <> 34%nat /\
   exists T labels m,
     tuple_get (shape cereb_tmp) 0 = Ok T /\
     mapM_result (fun s => x <-? py_float s ;; Ok (wrap8 (py_int x))) roiLabels
     = Ok labels /\
     scatter_columns cereb_tmp 0 (map (fun z => wrap8 (z - 1)) labels)
       (replicate T (replicate 34%nat 0)) = Ok m /\
     cereb = I8 m /\
     excl = map LInt (missing_elements (map (fun z => wrap8 (z - 1)) labels))).
Proof.
  unfold reconcile_cerebellum.
  destruct (Nat.eqb (length roiLabels) 34) eqn:E.
  - apply Nat.eqb_eq in E. run_print. unfold ret. intros [= <- <- <-].
    left. split; [exact E|]. split; reflexivity.
  - apply Nat.eqb_neq in E. run_print. intros H. right. split; [exact E|].
    revert H. unfold bind at 1.
    destruct (tuple_get (shape cereb_tmp) 0) as [T|] eqn:ET; [|discriminate].
    cbn [lift ret]. unfold bind at 1.
    destruct (mapM_result _ roiLabels) as [labels|] eqn:EL; [|discriminate].
    cbn [lift ret]. cbv zeta. unfold bind at 1.
    destruct (scatter_columns _ _ _ _) as [m|] eqn:ES; [|discriminate].
    cbn [lift ret]. run_print. unfold ret. intros [= <- <- <-].
    exists T, labels, m. split; [reflexivity|]. split; [reflexivity|].
    split; [exact ES|]. split; reflexivity.
Qed.

Lemma reconcile_cerebellum_labels cereb_tmp roiLabels w cereb excl w' :
  reconcile_cerebellum py_float cereb_tmp roiLabels w = (Ret (cereb, excl), w') ->
  exclude_labels_form excl /\ forall i, LInt i ∈ excl -> 0 <= i <= 33.
Proof.
  intros H. apply reconcile_cerebellum_cases in H
    as [(_ & _ & ->)|(_ & T & labels & m & _ & _ & _ & _ & ->)].
  - split; [left; reflexivity|].
    intros i Hin. apply list_elem_of_singleton in Hin. discriminate.
  - split; [right; eauto|].
    intros i Hin. apply list_elem_of_fmap in Hin as (z & [= ->] & Hz).
    apply missing_elements_spec in Hz. tauto.
Qed.

End CerebellumFacts.

(** ** Persisted connectivity matrices *)

Section Connectomes.

Variable np_corrcoef : list (list npfloat) -> list (list npfloat).

Lemma save_connectome_inv excl n_sctx ts fname w w' :
  save_connectome np_corrcoef excl n_sctx ts fname w = (Ret tt, w') ->
  exists m,
    mask_connectome excl n_sctx (np_corrcoef (transpose_of NaN ts)) = Ok m /\
    w' = {| stdout := stdout w;
            files := <[fname := {| fmt := "%.6f"; content := m |}]> (files w) |}.
Proof.
  unfold save_connectome. cbv zeta. unfold bind.
  destruct (mask_connectome _ _ _) as [m|]; [|discriminate].
  cbn [lift ret]. unfold np_savetxt. intros [= <-]. exists m. auto.
Qed.

(** With no missing region the masking block cannot fail. *)
Lemma save_connectome_all_present n_sctx ts fname w :
  exists w', save_connectome np_corrcoef [LNaN] n_sctx ts fname w = (Ret tt, w').
Proof. eexists. reflexivity. Qed.

End Connectomes.

(** ** Evaluating on concrete runs *)


(** C3. Two of the 34 cerebellar regions survive, with the timeseries
    values 0.5, 1.5 (atlas region 2) and 3, 4 (atlas region 1) at two
    timepoints.  The rebuilt array has 34 columns and the missing set is
    the complement of the present indices, but the array is allocated with
    [dtype=np.int8]: the values 0.5 and 1.5 scattered to column 1 arrive
    as 0 and 1. *)
Theorem scattered_column_is_truncated_to_int8 :
  fst (reconcile_cerebellum Sample.py_float Sample.cereb_tmp Sample.roiLabels
         initial_world)
  = Ret (I8 Sample.cereb, Sample.exclude_labels) /\
  get_col 0 Sample.cereb_tmp = Ok [frac 1 2; frac 3 2] /\
  get_col 1 (cereb_values (I8 Sample.cereb)) = Ok [of_Z 0; of_Z 1] /\
  frac 1 2 <> of_Z 0 /\
  frac 3 2 <> of_Z 1.
Proof.
  split; [vm_compute; reflexivity|].
  split; [vm_compute; reflexivity|].
  split; [vm_compute; reflexivity|].
  split; intros H; apply (f_equal this) in H; vm_compute in H; discriminate H.
Qed.

(** Integers that fit in eight bits pass through the cast unchanged. *)
Lemma cast_int8_of_Z (z : Z) : -128 <= z <= 127 -> cast_int8 (of_Z z) = z.
Proof.
  intros Hz. unfold cast_int8, py_int, of_Z, wrap8. cbn [this Q2Qc].
  rewrite Qred_identity by apply Z.gcd_1_r. cbn [Qnum Qden inject_Z]. cbv zeta.
  rewrite Z.quot_1_r.
  destruct (Z.leb_spec (-2147483648) z); [|lia].
  destruct (Z.leb_spec z 2147483647); [|lia]. cbn [andb].
  rewrite Z.mod_small by lia. lia.
Qed.

(** C4. On the label vector [1, 2, 2] the unique labels are 1 and 2.  The
    conte69 loop tests [thisparc == lab] with the position [lab] instead of
    the label [uparcel[lab]]: the column of label 1 is the mean of the
    vertices labelled 0 (none, hence [nan]) and the column of label 2 is
    the mean of the vertices labelled 1.  The native loop, which tests
    against [uparcel[lab]], averages the right vertices. *)
Theorem conte_loop_averages_by_position :
  np_unique Sample.thisparc = [of_Z 1; of_Z 2] /\
  parcellate_conte Sample.data_corr_ctx 3 Sample.thisparc
  = Ok [[NaN; Fin (of_Z 10)]] /\
  map (fun u => np_mean (select (map (fun x => Qc_eqb x u) Sample.thisparc)
                           [of_Z 10; of_Z 20; of_Z 30]))
    (np_unique Sample.thisparc)
  = [Fin (of_Z 10); Fin (of_Z 25)] /\
  parcellate_native Sample.data_corr_ctx [1; 2; 2]
  = Ok [[Fin (of_Z 10); Fin (of_Z 25)]].
Proof.
  split; [qc_eval|]. split; [qc_eval|]. split; qc_eval.
Qed.

(** The mean of a single column is that column. *)
Lemma np_mean_singleton (x : Qc) : np_mean [x] = Fin x.
Proof.
  unfold np_mean, Qsum. cbn [foldr length]. f_equal.
  change (of_Z (Z.of_nat 1)) with 1%Qc. field. discriminate.
Qed.

(** ** The subcortical precondition *)

Section Subcortex.

Variable np_loadtxt : string -> result ndarray.
Variables subject funcDir func_lab : string.

(** The test [if sctx.shape:] fails for a 0-d array only; the script then
    prints its message and exits. *)
Lemma load_subcortex_scalar (x : Qc) (w : world) :
  np_loadtxt (sctx_path funcDir subject func_lab) = Ok (Arr0 x) ->
  load_subcortex np_loadtxt subject funcDir func_lab w
  = (Exited,
     {| stdout := stdout w
          ++ ["Uh oh, your subcortical timeseries file is empty; exiting. Bye-bye"];
        files := files w |}).
Proof.
  intros Hload. unfold load_subcortex.
  rewrite Hload, bind_lift_ok. cbn [shape]. run_print. reflexivity.
Qed.

(** Any 1-D array, the empty one included, has a non-empty shape tuple
    and no second dimension: the script stops on an [IndexError] without
    printing. *)
Lemma load_subcortex_vector (v : list Qc) (w : world) :
  np_loadtxt (sctx_path funcDir subject func_lab) = Ok (Arr1 v) ->
  load_subcortex np_loadtxt subject funcDir func_lab w = (Raised IndexError, w).
Proof.
  intros Hload. unfold load_subcortex.
  rewrite Hload, bind_lift_ok. reflexivity.
Qed.

End Subcortex.

(** C10. A run whose subcortical timeseries file is empty: [np.loadtxt]
    returns an array of shape (0,), the test [if sctx.shape:] passes, and
    [sctx.shape[1]] raises [IndexError].  The script stops there, having
    printed the two banners but not the diagnostic, and having written no
    file. *)
Theorem empty_subcortical_file_raises_IndexError :
  Sample.loadtxt_empty "/data/func/volumetric/sub-01_timeseries_subcortical.txt"
  = Ok (Arr1 []) /\
  shape (Arr1 []) = [O] /\
  exists w',
    main Sample.os_listdir Sample.glob Sample.nib_load_fdata Sample.loadtxt_empty
      Sample.read_text Sample.py_float Sample.read_annot Sample.no_fit
      Sample.np_corrcoef Sample.additional_QC
      "sub-01" "/data/func" "/labels" "/parc" "/volm" "0" "0" "" "FALSE"
      initial_world
    = (Raised IndexError, w') /\
    ("Uh oh, your subcortical timeseries file is empty; exiting. Bye-bye" ∉ stdout w') /\
    files w' = ∅.
Proof.
  split; [reflexivity|]. split; [reflexivity|].
  eexists. split; [vm_compute; reflexivity|].
  split; [|reflexivity].
  rewrite list_elem_of_In. cbn. intros H.
  repeat (destruct H as [H|H]; [discriminate H|]). exact H.
Qed.

(** ** Loops that skip *)

Lemma extends_refl w : extends w w.
Proof. split; auto. Qed.

Lemma extends_trans w1 w2 w3 : extends w1 w2 -> extends w2 w3 -> extends w1 w3.
Proof. intros [F1 L1] [F2 L2]. split; auto. Qed.

Lemma extends_print w s :
  extends w {| stdout := stdout w ++ [s]; files := files w |}.
Proof.
  split; cbn [files stdout]; [auto|].
  intros line Hin. apply elem_of_app. left. exact Hin.
Qed.

Lemma extends_insert w fname x :
  extends w {| stdout := stdout w; files := <[fname := x]> (files w) |}.
Proof.
  split; cbn [files stdout]; [|auto].
  intros f Hf. destruct (decide (fname = f)) as [->|Hne].
  - rewrite lookup_insert_eq. eauto.
  - rewrite lookup_insert_ne by exact Hne. exact Hf.
Qed.

(** A loop whose every iteration completes, completes; what an iteration
    establishes survives the later ones when it is stable under
    extension. *)
Lemma for_each_completes {A} (l : list A) (body : A -> Script unit)
    (P : A -> world -> Prop) :
  (forall p w, p ∈ l -> exists w', body p w = (Ret tt, w') /\ extends w w' /\ P p w') ->
  (forall p w w', P p w -> extends w w' -> P p w') ->
  forall w, exists wf,
    for_each l body w = (Ret tt, wf) /\ extends w wf /\ forall p, p ∈ l -> P p wf.
Proof.
  intros Hbody Hstable. induction l as [|x l IH]; intros w.
  - exists w. split; [reflexivity|]. split; [apply extends_refl|].
    intros p Hin. apply elem_of_nil in Hin. contradiction.
  - destruct (Hbody x w) as (w1 & Hx & Hext1 & HP1); [apply elem_of_cons; auto|].
    destruct IH with (w := w1) as (wf & Hrest & Hext2 & HPs).
    { intros p w0 Hin. apply Hbody. apply elem_of_cons. auto. }
    exists wf. split; [|split].
    + cbn [for_each]. unfold bind. rewrite Hx. exact Hrest.
    + eapply extends_trans; eassumption.
    + intros p Hin. apply elem_of_cons in Hin as [->|Hin].
      * eapply Hstable; eassumption.
      * apply HPs, Hin.
Qed.

Section SkippedParcellations.

Variable np_loadtxt : string -> result ndarray.
Variable read_annot : string -> result annot.
Variable np_corrcoef : list (list npfloat) -> list (list npfloat).
Variables subject funcDir labelDir parcDir noFC : string.

(** The unsupported conte69 parcellation only leaves its notice. *)
Lemma conte_iteration_unsupported data_corr n_vertex n n_sctx excl w :
  conte_iteration np_loadtxt np_corrcoef subject funcDir parcDir
    data_corr n_vertex n n_sctx excl "aparc-a2009s_conte69" w
  = (Ret tt, {| stdout := stdout w ++ [unsupported_notice "aparc-a2009s_conte69"];
                files := files w |}).
Proof. reflexivity. Qed.

(** Any other conte69 parcellation that completes has saved its matrix. *)
Lemma conte_iteration_saves data_corr n_vertex n n_sctx excl p w w' :
  p <> "aparc-a2009s_conte69" ->
  conte_iteration np_loadtxt np_corrcoef subject funcDir parcDir
    data_corr n_vertex n n_sctx excl p w = (Ret tt, w') ->
  extends w w' /\ is_Some (files w' !! conte_fc_name funcDir subject p).
Proof.
  intros Hne. unfold conte_iteration. cbv zeta.
  apply String.eqb_neq in Hne. rewrite Hne.
  unfold bind at 1. destruct (np_loadtxt _) as [a|]; [|discriminate].
  cbn [lift ret]. unfold bind at 1.
  destruct (match a with Arr1 v => Ok v | _ => _ end) as [v|]; [|destruct a; discriminate].
  cbn [lift ret]. unfold bind at 1.
  destruct (parcellate_conte _ _ _) as [ts_ctx|]; [|discriminate].
  cbn [lift ret]. unfold bind at 1.
  destruct (hstack _ _) as [ts|]; [|discriminate].
  cbn [lift ret]. intros Hsave.
  apply save_connectome_inv in Hsave as (m & _ & ->). split.
  - apply extends_insert.
  - cbn [files]. unfold conte_fc_name. rewrite lookup_insert_eq. eauto.
Qed.

(** A parcellation whose annotation does not fit the native timeseries
    only leaves its error line. *)
Lemma native_iteration_mismatch dataNative_corr sctx_cereb_corr n_sctx excl p w :
  annot_length_mismatch read_annot labelDir dataNative_corr p = true ->
  native_iteration read_annot np_corrcoef subject funcDir labelDir
    dataNative_corr sctx_cereb_corr n_sctx excl p w
  = (Ret tt, {| stdout := stdout w ++ [mismatch_notice p]; files := files w |}).
Proof.
  unfold annot_length_mismatch, native_iteration. cbv zeta.
  destruct (read_annot (os_path_join labelDir ("lh." +:+ p +:+ "_mics.annot")))
    as [lh|]; [|discriminate].
  destruct (read_annot (os_path_join labelDir ("rh." +:+ p +:+ "_mics.annot")))
    as [rh|]; [|discriminate].
  intros Hmis. rewrite !bind_lift_ok, Hmis. reflexivity.
Qed.

(** Any other native parcellation that completes has saved its matrix. *)
Lemma native_iteration_saves dataNative_corr sctx_cereb_corr n_sctx excl p w w' :
  annot_length_mismatch read_annot labelDir dataNative_corr p = false ->
  native_iteration read_annot np_corrcoef subject funcDir labelDir
    dataNative_corr sctx_cereb_corr n_sctx excl p w = (Ret tt, w') ->
  extends w w' /\ is_Some (files w' !! native_fc_name funcDir subject p).
Proof.
  unfold annot_length_mismatch, native_iteration. cbv zeta.
  unfold bind at 1.
  destruct (read_annot (os_path_join labelDir ("lh." +:+ p +:+ "_mics.annot")))
    as [lh|]; [|discriminate].
  cbn [lift ret]. unfold bind at 1.
  destruct (read_annot (os_path_join labelDir ("rh." +:+ p +:+ "_mics.annot")))
    as [rh|]; [|discriminate].
  cbn [lift ret]. intros ->. cbn [negb].
  unfold bind at 1. destruct (match labels lh with [] => _ | _ => _ end) as [ids_lh|];
    [|discriminate].
  cbn [lift ret]. unfold bind at 1. destruct (mapM_result _ (labels lh)) as [parc_lh|];
    [|discriminate].
  cbn [lift ret]. unfold bind at 1.
  destruct (match labels rh with [] => _ | _ => _ end) as [ids_rh|]; [|discriminate].
  cbn [lift ret]. unfold bind at 1. destruct (mapM_result _ (labels rh)) as [parc_rh|];
    [|discriminate].
  cbn [lift ret]. unfold bind at 1. destruct (parcellate_native _ _) as [ts_ctx|];
    [|discriminate].
  cbn [lift ret]. unfold bind at 1. destruct (hstack _ _) as [ts|]; [|discriminate].
  cbn [lift ret]. unfold bind at 1. cbn [np_savetxt]. intros Hsave.
  apply save_connectome_inv in Hsave as (m & _ & ->). cbn [stdout files]. split.
  - eapply extends_trans; [apply extends_insert|].
    apply (extends_insert {| stdout := stdout w; files := _ |}).
  - unfold native_fc_name. rewrite lookup_insert_eq. eauto.
Qed.


(** C9. A parcellation-specific failure does not stop the run.  In the
    conte69 loop the unsupported parcellation [aparc-a2009s], and in the
    native loop a parcellation whose annotation labels do not add up to the
    number of native timeseries columns, only print their notice and leave
    the files as they are.  If each of the other parcellations can be
    processed on its own, both loops run to the end, every skipped
    parcellation has its notice on the console and every other one has its
    connectivity matrix on disk. *)
Theorem parcellation_failures_are_skipped
    (data_corr dataNative_corr sctx_cereb_corr : matrix)
    (n_vertex n n_sctx : nat) (excl : list pylabel)
    (parcellationList_conte parcellationList : list string) :
  let conte := conte_iteration np_loadtxt np_corrcoef subject funcDir parcDir
                 data_corr n_vertex n n_sctx excl in
  let native := native_iteration read_annot np_corrcoef subject funcDir labelDir
                  dataNative_corr sctx_cereb_corr n_sctx excl in
  noFC <> "TRUE" ->
  (forall p, p ∈ parcellationList_conte -> p <> "aparc-a2009s_conte69" ->
             forall w, exists w', conte p w = (Ret tt, w')) ->
  (forall p, p ∈ parcellationList ->
             annot_length_mismatch read_annot labelDir dataNative_corr p = false ->
             forall w, exists w', native p w = (Ret tt, w')) ->
  forall w,
    (conte "aparc-a2009s_conte69" w
     = (Ret tt, {| stdout := stdout w ++ [unsupported_notice "aparc-a2009s_conte69"];
                   files := files w |})) /\
    (forall p, annot_length_mismatch read_annot labelDir dataNative_corr p = true ->
               native p w
               = (Ret tt, {| stdout := stdout w ++ [mismatch_notice p];
                             files := files w |})) /\
    (exists wf,
        conte_connectomes np_loadtxt np_corrcoef subject funcDir parcDir noFC
          data_corr n_vertex n n_sctx excl parcellationList_conte w = (Ret tt, wf) /\
        forall p, p ∈ parcellationList_conte -> conte_outcome subject funcDir p wf) /\
    (exists wf,
        native_connectomes read_annot np_corrcoef subject funcDir labelDir noFC
          dataNative_corr sctx_cereb_corr n_sctx excl parcellationList w = (Ret tt, wf) /\
        forall p, p ∈ parcellationList ->
                  native_outcome read_annot subject funcDir labelDir
                    dataNative_corr p wf).
Proof.
  intros conte native HnoFC Hconte Hnative w.
  apply String.eqb_neq in HnoFC.
  split; [apply conte_iteration_unsupported|].
  split; [intros p Hp; apply native_iteration_mismatch; exact Hp|].
  split.
  - unfold conte_connectomes. rewrite HnoFC. cbn [negb].
    destruct (for_each_completes parcellationList_conte conte
                (conte_outcome subject funcDir))
      with (w := w) as (wf & Hrun & _ & Hall).
    + intros p w0 Hin. unfold conte_outcome.
      destruct (String.eqb p "aparc-a2009s_conte69") eqn:E.
      * apply String.eqb_eq in E. subst p. eexists.
        split; [apply conte_iteration_unsupported|].
        split; [apply extends_print|]. cbn [stdout].
        apply elem_of_app. right. apply list_elem_of_singleton. reflexivity.
      * apply String.eqb_neq in E.
        destruct (Hconte p Hin E w0) as [w' Hw']. exists w'.
        split; [exact Hw'|]. eapply conte_iteration_saves; eassumption.
    + intros p w1 w2. unfold conte_outcome.
      destruct (String.eqb p "aparc-a2009s_conte69"); intros H [Hf Hl]; auto.
    + exists wf. split; assumption.
  - unfold native_connectomes. rewrite HnoFC. cbn [negb].
    destruct (for_each_completes parcellationList native
                (native_outcome read_annot subject funcDir labelDir dataNative_corr))
      with (w := w) as (wf & Hrun & _ & Hall).
    + intros p w0 Hin. unfold native_outcome.
      destruct (annot_length_mismatch read_annot labelDir dataNative_corr p) eqn:E.
      * eexists. split; [apply native_iteration_mismatch; exact E|].
        split; [apply extends_print|]. cbn [stdout].
        apply elem_of_app. right. apply list_elem_of_singleton. reflexivity.
      * destruct (Hnative p Hin E w0) as [w' Hw']. exists w'.
        split; [exact Hw'|]. eapply native_iteration_saves; eassumption.
    + intros p w1 w2. unfold native_outcome.
      destruct (annot_length_mismatch read_annot labelDir dataNative_corr p);
        intros H [Hf Hl]; auto.
    + exists wf. split; assumption.
Qed.

End SkippedParcellations.

Lemma parcellation_failures_are_skipped_witness :
  (exists wf,
      conte_connectomes Sample.parc_loadtxt Sample.np_corrcoef "sub-01" "/func" "/parc"
        "FALSE" Sample.data_corr 2 35 1 [LNaN] Sample.parcellationList_conte
        initial_world = (Ret tt, wf) /\
      forall p, p ∈ Sample.parcellationList_conte ->
                conte_outcome "sub-01" "/func" p wf) /\
  (exists wf,
      native_connectomes Sample.annots Sample.np_corrcoef "sub-01" "/func" "/labels"
        "FALSE" Sample.dataNative_corr Sample.sctx_cereb_corr 1 [LNaN]
        Sample.parcellationList initial_world = (Ret tt, wf) /\
      forall p, p ∈ Sample.parcellationList ->
                native_outcome Sample.annots "sub-01" "/func" "/labels"
                  Sample.dataNative_corr p wf).
Proof.
  apply (parcellation_failures_are_skipped Sample.parc_loadtxt Sample.annots
           Sample.np_corrcoef "sub-01" "/func" "/labels" "/parc" "FALSE"
           Sample.data_corr Sample.dataNative_corr Sample.sctx_cereb_corr
           2 35 1 [LNaN] Sample.parcellationList_conte Sample.parcellationList).
  - discriminate.
  - intros p Hin Hne w. apply list_elem_of_In in Hin.
    destruct Hin as [<-|[<-|[]]]; [contradiction|].
    eexists. cbv -[insert]. reflexivity.
  - intros p Hin Hmis w. apply list_elem_of_In in Hin.
    destruct Hin as [<-|[<-|[]]]; [discriminate Hmis|].
    eexists. cbv -[insert]. reflexivity.
Defined.

(** * Least squares *)

(** ** Sums and dot products *)

Lemma Qsum_cons (x : Qc) (l : list Qc) : Qsum (x :: l) = (x + Qsum l)%Qc.
Proof. reflexivity. Qed.

Lemma dot_nil_l (v : list Qc) : dot [] v = 0%Qc.
Proof. reflexivity. Qed.

Lemma dot_nil_r (u : list Qc) : dot u [] = 0%Qc.
Proof. destruct u; reflexivity. Qed.

Lemma dot_cons (a b : Qc) (u v : list Qc) :
  dot (a :: u) (b :: v) = (a * b + dot u v)%Qc.
Proof. reflexivity. Qed.

Lemma dot_minus_l (u v b : list Qc) :
  length u = length v ->
  dot (zip_with Qcminus u v) b = (dot u b - dot v b)%Qc.
Proof.
  revert v b. induction u as [|x u IH]; intros [|y v] b Hlen; try discriminate.
  - rewrite !dot_nil_l. ring.
  - destruct b as [|z b]; [rewrite !dot_nil_r; ring|].
    cbn [zip_with]. rewrite !dot_cons, IH by (simpl in Hlen; lia). ring.
Qed.

Lemma dot_zeros_r (u v : list Qc) : Forall (fun e => e = 0%Qc) v -> dot u v = 0%Qc.
Proof.
  intros Hv. revert u. induction Hv as [|e v -> _ IH]; intros [|a u];
    rewrite ?dot_nil_l, ?dot_nil_r, ?dot_cons, ?IH; ring.
Qed.

(** ** Entries of rows *)

Lemma entry_nil (j : nat) : entry [] j = 0%Qc.
Proof. reflexivity. Qed.

Lemma entry_ge (r : list Qc) (j : nat) : (length r <= j)%nat -> entry r j = 0%Qc.
Proof. intros H. unfold entry. rewrite lookup_ge_None_2 by exact H. reflexivity. Qed.

Lemma entry_zip_with_minus (u v : list Qc) (k : nat) :
  length u = length v ->
  entry (zip_with Qcminus u v) k = (entry u k - entry v k)%Qc.
Proof.
  revert v k. induction u as [|x u IH]; intros [|y v] k Hlen; try discriminate.
  - rewrite !entry_nil. ring.
  - destruct k as [|k]; [reflexivity|]. injection Hlen as Hlen. exact (IH v k Hlen).
Qed.

Lemma col_cons (j : nat) (r : list Qc) (m : matrix) :
  col j (r :: m) = entry r j :: col j m.
Proof. reflexivity. Qed.

Lemma col_past_end (k : nat) (m : matrix) :
  Forall (fun r => (length r <= k)%nat) m -> Forall (fun e => e = 0%Qc) (col k m).
Proof.
  induction 1 as [|r m Hr _ IH]; [constructor|].
  rewrite col_cons. constructor; [apply entry_ge, Hr | exact IH].
Qed.

Lemma entry_row_times (b : matrix) (x : list Qc) (k : nat) :
  rectangular b -> entry (row_times b x) k = dot x (col k b).
Proof.
  intros Hb. unfold row_times, entry.
  destruct (decide (k < ncols b)%nat) as [Hk|Hk].
  - rewrite lookup_map, lookup_seq_lt by exact Hk. reflexivity.
  - rewrite lookup_map, lookup_seq_ge by lia. cbn.
    symmetry. apply dot_zeros_r, col_past_end.
    eapply Forall_impl; [exact Hb|]. cbn. intros r ->. lia.
Qed.

Lemma length_row_times (b : matrix) (x : list Qc) :
  length (row_times b x) = ncols b.
Proof. unfold row_times. rewrite length_map, length_seq. reflexivity. Qed.

(** ** [np_sub] and [np_dot] *)

Lemma np_sub_inv (a b m : matrix) :
  np_sub a b = Ok m ->
  m = zip_with (zip_with Qcminus) a b /\ same_row_lengths a b.
Proof.
  revert b m. induction a as [|r1 a IH]; intros [|r2 b] m; simpl; try discriminate.
  - intros [= <-]. split; [reflexivity | constructor].
  - destruct (Nat.eqb (length r1) (length r2)) eqn:E; [|discriminate].
    apply Nat.eqb_eq in E.
    destruct (np_sub a b) as [m'|] eqn:E'; [|discriminate].
    intros [= <-]. destruct (IH b m' E') as [-> Hrows].
    split; [reflexivity | constructor; assumption].
Qed.

Lemma np_sub_ok (a b : matrix) :
  same_row_lengths a b -> np_sub a b = Ok (zip_with (zip_with Qcminus) a b).
Proof.
  induction 1 as [|r1 r2 a b Hr _ IH]; [reflexivity|].
  simpl. rewrite Hr, Nat.eqb_refl, IH. reflexivity.
Qed.

Lemma all_length_Forall {A} (n : nat) (m : list (list A)) :
  all_length n m = true <-> Forall (fun r => length r = n) m.
Proof.
  unfold all_length. rewrite forallb_forall, Forall_forall.
  split; intros H r Hr.
  - apply Nat.eqb_eq, H, list_elem_of_In, Hr.
  - apply Nat.eqb_eq, H, list_elem_of_In, Hr.
Qed.

Lemma np_dot_inv (a b f : matrix) :
  np_dot a b = Ok f ->
  f = map (row_times b) a /\ Forall (fun r => length r = length b) a.
Proof.
  unfold np_dot. destruct (all_length (length b) a) eqn:E; [|discriminate].
  intros [= <-]. split; [reflexivity|]. apply all_length_Forall, E.
Qed.

Lemma np_dot_ok (a b : matrix) :
  Forall (fun r => length r = length b) a -> np_dot a b = Ok (map (row_times b) a).
Proof.
  intros H. unfold np_dot. apply all_length_Forall in H. rewrite H. reflexivity.
Qed.

(** ** Centring *)

Lemma length_col_means (X : matrix) : length (col_means X) = ncols X.
Proof. unfold col_means. rewrite length_map, length_seq. reflexivity. Qed.

Lemma of_Z_S (n : nat) : of_Z (Z.of_nat (S n)) = (of_Z (Z.of_nat n) + 1)%Qc.
Proof.
  unfold of_Z. apply Qc_is_canon. cbn [this Q2Qc Qcplus].
  rewrite !Qred_correct, Nat2Z.inj_succ. unfold Z.succ.
  rewrite inject_Z_plus. reflexivity.
Qed.

Lemma of_Z_nat_nonzero (n : nat) : of_Z (Z.of_nat (S n)) <> 0%Qc.
Proof.
  unfold of_Z. intros H. apply Q2Qc_eq_iff in H.
  unfold Qeq in H. cbn in H. lia.
Qed.

(** The sum of a column is the number of rows times its mean. *)
Lemma col_sum_mean (X : matrix) (j : nat) :
  rectangular X ->
  Qsum (col j X) = (of_Z (Z.of_nat (length X)) * entry (col_means X) j)%Qc.
Proof.
  intros HX. unfold col_means, entry.
  destruct (decide (j < ncols X)%nat) as [Hj|Hj].
  - rewrite lookup_map, lookup_seq_lt by exact Hj. cbn.
    destruct X as [|r X]; [simpl in Hj; lia|].
    rewrite Qcmult_div_r by apply of_Z_nat_nonzero. reflexivity.
  - rewrite lookup_map, lookup_seq_ge by lia. cbn.
    assert (Hz : Forall (fun e => e = 0%Qc) (col j X)).
    { apply col_past_end. eapply Forall_impl; [exact HX|]. cbn. intros r ->. lia. }
    clear HX. induction Hz as [|e l -> _ IH]; [cbn; ring|].
    rewrite Qsum_cons, IH. ring.
Qed.

Lemma Qsum_const_minus (l : list Qc) (c : Qc) :
  Qsum (map (fun x => (x - c)%Qc) l)
  = (Qsum l - of_Z (Z.of_nat (length l)) * c)%Qc.
Proof.
  induction l as [|x l IH].
  - change (0 = 0 - 0 * c)%Qc. ring.
  - cbn [map length]. rewrite !Qsum_cons, IH, of_Z_S. ring.
Qed.

Lemma col_center (X : matrix) (means : list Qc) (j : nat) :
  Forall (fun r => length r = length means) X ->
  col j (map (center_row means) X)
  = map (fun x => (x - entry means j)%Qc) (col j X).
Proof.
  induction 1 as [|r X Hr _ IH]; [reflexivity|].
  cbn [map]. rewrite !col_cons. cbn [map]. unfold center_row at 1.
  rewrite entry_zip_with_minus by exact Hr. f_equal. exact IH.
Qed.

(** Centred columns sum to zero. *)
Lemma centered_col_sum (X : matrix) (j : nat) :
  rectangular X -> Qsum (col j (center X)) = 0%Qc.
Proof.
  intros HX. unfold center. rewrite col_center.
  - rewrite Qsum_const_minus, (col_sum_mean X j HX).
    replace (length (col j X)) with (length X); [ring|].
    unfold col, col_of. rewrite length_map. reflexivity.
  - eapply Forall_impl; [exact HX|]. cbn. intros r ->.
    symmetry. apply length_col_means.
Qed.

Lemma Forall2_map_inv {A B C D} (P : C -> D -> Prop) (f : A -> C) (g : B -> D)
    (l : list A) (k : list B) :
  Forall2 P (map f l) (map g k) -> Forall2 (fun a b => P (f a) (g b)) l k.
Proof.
  revert k. induction l as [|a l IH]; intros [|b k] H; inversion H; subst;
    constructor; auto.
Qed.

Lemma rectangular_transpose (m : matrix) : rectangular (transpose m).
Proof.
  unfold rectangular, transpose, transpose_of.
  destruct (seq 0 (ncols m)) as [|j0 js]; [constructor|].
  apply Forall_forall. intros r Hr. cbn [map ncols].
  apply list_elem_of_In, in_map_iff in Hr as (j & <- & _).
  unfold col_of. rewrite !length_map. reflexivity.
Qed.

Lemma ncols_center (X : matrix) : rectangular X -> ncols (center X) = ncols X.
Proof.
  intros HX. destruct X as [|x X]; [reflexivity|].
  unfold center, center_row. cbn [map ncols].
  rewrite length_zip_with, length_col_means.
  cbn [ncols]. lia.
Qed.

(** ** The residual against the centred residual *)

Section Residuals.

Variables xbar ybar : list Qc.
Variable B : matrix.
Hypothesis B_rect : rectangular B.
Variables j k : nat.

(** Row by row, the residual [Data - X·B] and the residual of the centred
    problem differ by the same vector [ybar - xbar·B]. *)
Lemma residual_shift (X D : matrix) :
  Forall2 (fun y x => length x = length xbar /\ length y = length ybar /\
                      length y = ncols B) D X ->
  dot (col j (map (center_row xbar) X))
    (col k (zip_with (zip_with Qcminus) D (map (row_times B) X)))
  = (dot (col j (map (center_row xbar) X))
       (col k (zip_with (zip_with Qcminus) (map (center_row ybar) D)
                 (map (row_times B) (map (center_row xbar) X))))
     + (entry ybar k - dot xbar (col k B)) * Qsum (col j (map (center_row xbar) X)))%Qc.
Proof.
  induction 1 as [|y x D X (Hx & Hy & HyB) _ IH].
  - cbn. ring.
  - cbn [map zip_with]. rewrite !col_cons, !dot_cons, Qsum_cons, IH.
    rewrite (entry_zip_with_minus y) by (rewrite length_row_times; exact HyB).
    rewrite (entry_zip_with_minus (center_row ybar y)).
    2:{ rewrite length_row_times. unfold center_row.
        rewrite length_zip_with. lia. }
    rewrite !(entry_row_times B) by exact B_rect.
    unfold center_row.
    rewrite (entry_zip_with_minus y ybar) by exact Hy.
    rewrite (dot_minus_l x xbar) by exact Hx.
    ring.
Qed.

End Residuals.

Lemma ncols_zip_with_minus (D F : matrix) :
  same_row_lengths D F ->
  ncols (zip_with (zip_with Qcminus) D F) = ncols D.
Proof.
  destruct 1 as [|y f D F Hyf _]; [reflexivity|].
  cbn [zip_with ncols]. rewrite length_zip_with. lia.
Qed.

Lemma paired_row_lengths (xbar ybar : list Qc) (B X D : matrix) :
  Forall (fun x => length x = length xbar) X ->
  Forall (fun y => length y = length ybar) D ->
  Forall2 (fun y x => length (center_row ybar y)
                      = length (row_times B (center_row xbar x))) D X ->
  Forall2 (fun y x => length x = length xbar /\ length y = length ybar /\
                      length y = ncols B) D X.
Proof.
  intros HX HD Hrows. revert HX HD.
  induction Hrows as [|y x D' X' Hyx _ IH]; intros HX HD; [constructor|].
  apply Forall_cons in HX as [Hx HX]. apply Forall_cons in HD as [Hy HD].
  constructor; [|apply IH; assumption].
  unfold center_row in Hyx. rewrite length_zip_with, length_row_times in Hyx.
  split; [exact Hx|]. split; [exact Hy|]. lia.
Qed.

Lemma centred_rows_length (xbar : list Qc) (n : nat) (X : matrix) :
  Forall (fun x => length x = length xbar) X ->
  Forall (fun r => length r = n) (map (center_row xbar) X) ->
  Forall (fun r => length r = n) X.
Proof.
  induction X as [|x X IH]; intros HX Hl; [constructor|].
  apply Forall_cons in HX as [Hx HX]. cbn [map] in Hl.
  apply Forall_cons in Hl as [Hl Hls].
  constructor; [|apply IH; assumption].
  unfold center_row in Hl. rewrite length_zip_with in Hl. lia.
Qed.

(** What the fitting branch of [check_arrays] returns under the contract of
    the fit. *)
Lemma fitted_residual (X Data coef_ : matrix) :
  rectangular X -> rectangular Data ->
  sklearn_coef_spec X Data coef_ ->
  exists fitted R,
    np_dot X (transpose coef_) = Ok fitted /\
    np_sub Data fitted = Ok R /\
    columns_orthogonal (center X) R.
Proof.
  intros HX HD (_ & _ & (fitted_c & resid & Hdot & Hsub & Horth) & _).
  set (B := transpose coef_) in *.
  assert (HB : rectangular B) by apply rectangular_transpose.
  apply np_dot_inv in Hdot as [-> HlenX].
  apply np_sub_inv in Hsub as [-> Hrows].
  assert (HXbar : Forall (fun x => length x = length (col_means X)) X).
  { eapply Forall_impl; [exact HX|]. cbn. intros r ->.
    symmetry. apply length_col_means. }
  assert (HDbar : Forall (fun y => length y = length (col_means Data)) Data).
  { eapply Forall_impl; [exact HD|]. cbn. intros r ->.
    symmetry. apply length_col_means. }
  unfold center in Hrows. unfold same_row_lengths in Hrows.
  rewrite map_map in Hrows. apply Forall2_map_inv in Hrows.
  pose proof (paired_row_lengths _ _ _ _ _ HXbar HDbar Hrows) as Hpairs.
  pose proof (centred_rows_length _ _ _ HXbar HlenX) as HlenXB.
  assert (HrowsR : same_row_lengths Data (map (row_times B) X)).
  { clear -Hpairs. induction Hpairs as [|y x D X' (_ & _ & HyB) _ IH]; [constructor|].
    cbn [map]. constructor; [rewrite length_row_times; exact HyB | exact IH]. }
  exists (map (row_times B) X), (zip_with (zip_with Qcminus) Data (map (row_times B) X)).
  split; [apply np_dot_ok, HlenXB|]. split; [apply np_sub_ok, HrowsR|].
  intros j k Hj Hk.
  rewrite ncols_center in Hj by exact HX.
  rewrite ncols_zip_with_minus in Hk by exact HrowsR.
  unfold center at 1.
  rewrite (residual_shift (col_means X) (col_means Data) B HB j k X Data Hpairs).
  fold (center X). fold (center Data).
  rewrite (Horth j k Hj Hk), (centered_col_sum X j HX). ring.
Qed.

(** ** The residual returned by the regressor *)

Section FittedModel.

Variable np_loadtxt : string -> result ndarray.
Variable fit : matrix -> matrix -> result matrix.
Variables x_dof x_csf x_wm x_gs : string.

(** C5, as the code has it.  For a non-degenerate model the regressor
    returns the residual [Data - mdl·coef_.T], where [coef_] comes from a
    fit that centres both of its arguments ([LinearRegression] with its
    default [fit_intercept=True], under the contract [sklearn_coef_spec]).
    In exact arithmetic the dot product of every mean-centred column of the
    design matrix with every column of that residual is zero; a
    floating-point run attains this up to rounding only. *)
Theorem residual_is_orthogonal_to_centred_design
    (x_spike : string) (Data : matrix) (nsr gsr : pyval) (Data_name : string)
    (w w1 : world) (c : nat) (X : matrix) (ones : ndarray) (coef_ : matrix) :
  assemble_mdl np_loadtxt x_dof x_csf x_wm x_gs x_spike nsr gsr Data_name w
  = (Ret (Arr2 c X, ones), w1) ->
  array_equal (Arr2 c X) ones = false ->
  rectangular X ->
  rectangular Data ->
  fit X Data = Ok coef_ ->
  sklearn_coef_spec X Data coef_ ->
  exists fitted R w2,
    get_regressed_data np_loadtxt fit x_dof x_csf x_wm x_gs x_spike
      Data nsr gsr Data_name w = (Ret R, w2) /\
    np_dot X (transpose coef_) = Ok fitted /\
    np_sub Data fitted = Ok R /\
    columns_orthogonal (center X) R.
Proof.
  intros Hasm Hne HX HD Hfit Hspec.
  destruct (fitted_residual X Data coef_ HX HD Hspec) as (fitted & R & Hdot & Hsub & Horth).
  exists fitted, R. eexists.
  split; [|split; [exact Hdot | split; [exact Hsub | exact Horth]]].
  unfold get_regressed_data, bind at 1. rewrite Hasm. cbn [fst snd].
  unfold check_arrays. rewrite Hne. cbn [negb]. run_print.
  rewrite !bind_lift_ok, Hfit, bind_lift_ok, Hdot, bind_lift_ok, Hsub.
  reflexivity.
Qed.

End FittedModel.

(** The sample coefficients meet the contract of the fit. *)
Lemma sample_coef_meets_contract :
  sklearn_coef_spec Sample.design Sample.Data Sample.coef_.
Proof.
  split; [reflexivity|]. split; [repeat constructor|]. split.
  - exists [[of_Z 1]; [of_Z (-1)]], [[of_Z 0]; [of_Z 0]].
    split; [qc_eval|]. split; [qc_eval|].
    intros [|[|j]] [|k] Hj Hk; cbn in Hj, Hk; try lia; qc_eval.
  - exists [[of_Z 2]; [of_Z (-2)]]. qc_eval.
Qed.

(** C5, as stated, fails.  With a spike file and neither flag enabled the
    design is [ones, spike]; on the sample data the residual returned is
    the constant column 1, whose dot product with the intercept column is
    2 and with the spike column 1. *)
Lemma residual_not_orthogonal_to_design :
  fst (assemble_mdl Sample.np_loadtxt "dof.1D" "CSF.txt" "WM.txt" "global.txt"
         "spikeRegressors_FD.1D" (PyStr "0") (PyStr "0") "conte69" initial_world)
  = Ret (Arr2 2 Sample.design, np_ones_col 2) /\
  array_equal (Arr2 2 Sample.design) (np_ones_col 2) = false /\
  sklearn_coef_spec Sample.design Sample.Data Sample.coef_ /\
  fst (get_regressed_data Sample.np_loadtxt Sample.fit
         "dof.1D" "CSF.txt" "WM.txt" "global.txt" "spikeRegressors_FD.1D"
         Sample.Data (PyStr "0") (PyStr "0") "conte69" initial_world)
  = Ret [[of_Z 1]; [of_Z 1]] /\
  dot (col 0 Sample.design) (col 0 [[of_Z 1]; [of_Z 1]]) = of_Z 2 /\
  dot (col 1 Sample.design) (col 0 [[of_Z 1]; [of_Z 1]]) = of_Z 1 /\
  ~ columns_orthogonal Sample.design [[of_Z 1]; [of_Z 1]].
Proof.
  split; [vm_compute; reflexivity|]. split; [reflexivity|].
  split; [exact sample_coef_meets_contract|].
  split; [qc_eval|]. split; [qc_eval|]. split; [qc_eval|].
  intros H. specialize (H 0%nat 0%nat).
  assert (H2 : dot (col 0 Sample.design) (col 0 [[of_Z 1]; [of_Z 1]]) = 0%Qc)
    by (apply H; cbn; lia).
  apply (f_equal this) in H2. vm_compute in H2. discriminate H2.
Qed.

Lemma residual_is_orthogonal_to_centred_design_witness :
  exists fitted R w2,
    get_regressed_data Sample.np_loadtxt Sample.fit
      "dof.1D" "CSF.txt" "WM.txt" "global.txt" "spikeRegressors_FD.1D"
      Sample.Data (PyStr "0") (PyStr "0") "conte69" initial_world = (Ret R, w2) /\
    np_dot Sample.design (transpose Sample.coef_) = Ok fitted /\
    np_sub Sample.Data fitted = Ok R /\
    columns_orthogonal (center Sample.design) R.
Proof.
  apply (residual_is_orthogonal_to_centred_design Sample.np_loadtxt Sample.fit
           "dof.1D" "CSF.txt" "WM.txt" "global.txt" "spikeRegressors_FD.1D"
           Sample.Data (PyStr "0") (PyStr "0") "conte69" initial_world
           (snd (assemble_mdl Sample.np_loadtxt "dof.1D" "CSF.txt" "WM.txt"
                   "global.txt" "spikeRegressors_FD.1D" (PyStr "0") (PyStr "0")
                   "conte69" initial_world))
           2%nat Sample.design (np_ones_col 2) Sample.coef_).
  - vm_compute. reflexivity.
  - reflexivity.
  - repeat constructor.
  - repeat constructor.
  - reflexivity.
  - exact sample_coef_meets_contract.
Defined.

(** * The loops of the script, entry by entry *)

(** ** Column assignment *)

Lemma lookup_set_col {A} (j : nat) (v : list A) (m : list (list A)) (t : nat)
    (r : list A) (x : A) :
  m !! t = Some r -> v !! t = Some x -> set_col j v m !! t = Some (<[j := x]> r).
Proof.
  intros Hr Hx. unfold set_col. rewrite lookup_zip_with, Hr, Hx. reflexivity.
Qed.

Lemma length_set_col {A} (j : nat) (v : list A) (m : list (list A)) :
  length v = length m -> length (set_col j v m) = length m.
Proof. intros H. unfold set_col. rewrite length_zip_with. lia. Qed.

(** ** What the conte69 averaging loop computes *)

Lemma bool_index_inv (m : matrix) (mask : list bool) (tmp : matrix) :
  bool_index m mask = Ok tmp -> tmp = map (select mask) m.
Proof.
  unfold bool_index. destruct (Nat.eqb _ _); [|discriminate]. intros [= <-]. reflexivity.
Qed.

Lemma ts_ctx_loop_spec (data : matrix) (thisparc : list Qc) (labs : list nat)
    (ts ts' : list (list npfloat)) :
  ts_ctx_loop data thisparc labs ts = Ok ts' ->
  length ts = length data ->
  length ts' = length data /\
  forall t row r, data !! t = Some row -> ts !! t = Some r ->
    exists r', ts' !! t = Some r' /\ length r' = length r /\
      forall lab, (lab < length r)%nat ->
        r' !! lab = if decide (lab ∈ labs)
                    then Some (np_mean (select (position_mask thisparc lab) row))
                    else r !! lab.
Proof.
  revert ts. induction labs as [|lab0 labs IH]; intros ts; cbn [ts_ctx_loop].
  - intros [= <-] Hlen. split; [exact Hlen|].
    intros t row r _ Hr. exists r. split; [exact Hr|]. split; [reflexivity|].
    intros lab _. destruct (decide (lab ∈ [])) as [Hin|_]; [|reflexivity].
    apply elem_of_nil in Hin. contradiction.
  - unfold rbind. fold (position_mask thisparc lab0).
    destruct (bool_index data (position_mask thisparc lab0)) as [tmp|] eqn:E;
      [|discriminate].
    apply bool_index_inv in E. subst tmp. intros Hloop Hlen.
    assert (Hlen1 : length (set_col lab0
                              (map np_mean (map (select (position_mask thisparc lab0)) data))
                              ts) = length data).
    { rewrite length_set_col; [exact Hlen|]. rewrite !length_map. lia. }
    destruct (IH _ Hloop Hlen1) as [Hlen' Hrows]. split; [exact Hlen'|].
    intros t row r Hrow Hr.
    destruct (Hrows t row (<[lab0 := np_mean (select (position_mask thisparc lab0) row)]> r))
      as (r' & Hr' & Hlr & Hent).
    { exact Hrow. }
    { apply lookup_set_col; [exact Hr|].
      rewrite !lookup_map. unfold matrix in *. rewrite Hrow. reflexivity. }
    exists r'. split; [exact Hr'|]. rewrite length_insert in Hlr. split; [exact Hlr|].
    intros lab Hlab. rewrite Hent by (rewrite length_insert; exact Hlab).
    destruct (decide (lab ∈ labs)) as [Hin|Hnin].
    + rewrite decide_True by (apply elem_of_cons; auto). reflexivity.
    + destruct (decide (lab = lab0)) as [->|Hne].
      * rewrite decide_True by (apply elem_of_cons; auto).
        apply list_lookup_insert_eq. exact Hlab.
      * rewrite decide_False.
        -- apply list_lookup_insert_ne. congruence.
        -- intros Hin. apply elem_of_cons in Hin as [?|?]; contradiction.
Qed.

(** Column [lab] of the regional timeseries is the mean of the vertices
    whose label equals the position [lab]. *)
Lemma parcellate_conte_spec (data_corr : matrix) (n_vertex : nat)
    (thisparc : list Qc) (ts_ctx : list (list npfloat)) :
  parcellate_conte data_corr n_vertex thisparc = Ok ts_ctx ->
  length ts_ctx = length data_corr /\
  forall t row, last_cols n_vertex data_corr !! t = Some row ->
    exists r, ts_ctx !! t = Some r /\
      length r = length (np_unique thisparc) /\
      forall lab, (lab < length (np_unique thisparc))%nat ->
        r !! lab = Some (np_mean (select (position_mask thisparc lab) row)).
Proof.
  unfold parcellate_conte. cbv zeta. intros Hloop.
  apply ts_ctx_loop_spec in Hloop as [Hlen Hrows]; [|apply length_replicate].
  split; [rewrite Hlen; unfold last_cols; apply length_map|].
  intros t row Hrow.
  destruct (Hrows t row (replicate (length (np_unique thisparc)) (Fin 0%Qc)) Hrow)
    as (r & Hr & Hlr & Hent).
  { apply lookup_replicate_2. apply lookup_lt_Some in Hrow. exact Hrow. }
  rewrite length_replicate in Hlr, Hent.
  exists r. split; [exact Hr|]. split; [exact Hlr|].
  intros lab Hlab. rewrite (Hent lab Hlab).
  rewrite decide_True; [reflexivity|]. apply elem_of_seq. lia.
Qed.

(** Where the unique labels are 0, 1, ..., the position is the label and
    the column is the mean over that label's vertices. *)
Lemma parcellate_conte_contiguous (data_corr : matrix) (n_vertex : nat)
    (thisparc : list Qc) (ts_ctx : list (list npfloat)) :
  parcellate_conte data_corr n_vertex thisparc = Ok ts_ctx ->
  (forall lab u, np_unique thisparc !! lab = Some u -> u = of_Z (Z.of_nat lab)) ->
  forall t row lab u,
    last_cols n_vertex data_corr !! t = Some row ->
    np_unique thisparc !! lab = Some u ->
    exists r, ts_ctx !! t = Some r /\
      r !! lab = Some (np_mean (select (map (fun x => Qc_eqb x u) thisparc) row)).
Proof.
  intros Hparc Hcontig t row lab u Hrow Hu.
  destruct (parcellate_conte_spec _ _ _ _ Hparc) as [_ Hrows].
  destruct (Hrows t row Hrow) as (r & Hr & _ & Hent).
  exists r. split; [exact Hr|].
  rewrite (Hent lab) by (apply lookup_lt_Some in Hu; exact Hu).
  rewrite (Hcontig lab u Hu). reflexivity.
Qed.

(** ** What the scatter loop computes *)

Lemma get_col_inv (j k : nat) (m : matrix) (c : list Qc) :
  get_col j (Arr2 k m) = Ok c -> c = map (fun r => entry r j) m /\ (j < k)%nat.
Proof.
  cbn [get_col]. destruct (Nat.ltb_spec j k); [|discriminate].
  intros [= <-]. split; [reflexivity | assumption].
Qed.

(** Column by column: a target column holds the cast of the last input
    column scattered to it, any other column is as it was. *)
Lemma scatter_columns_spec (k : nat) (m : matrix) (labels : list Z) :
  forall (ii : nat) (cereb c : list (list Z)),
    scatter_columns (Arr2 k m) ii labels cereb = Ok c ->
    length cereb = length m ->
    exists targets,
      mapM_result (py_index 34) labels = Ok targets /\
      length c = length m /\
      forall t row r, m !! t = Some row -> cereb !! t = Some r ->
        exists r', c !! t = Some r' /\ length r' = length r /\
          (forall p j, targets !! p = Some j -> (j < length r)%nat ->
                       (forall p', (p < p')%nat -> targets !! p' <> Some j) ->
                       r' !! j = Some (cast_int8 (entry row (ii + p)))) /\
          (forall j, j ∉ targets -> r' !! j = r !! j).
Proof.
  induction labels as [|l labels IH]; intros ii cereb c; cbn [scatter_columns].
  - intros [= <-] Hlen. exists []. split; [reflexivity|].
    split; [exact Hlen|]. intros t row r _ Hr. exists r.
    split; [exact Hr|]. split; [reflexivity|]. split.
    + intros p j Hp. discriminate Hp.
    + reflexivity.
  - destruct (get_col ii (Arr2 k m)) as [col_ii|] eqn:Ecol; [|discriminate].
    destruct (py_index 34 l) as [j0|] eqn:Eidx; [|discriminate].
    apply get_col_inv in Ecol as [-> _]. intros Hloop Hlen.
    assert (Hlen1 : length (set_col j0 (map cast_int8 (map (fun r => entry r ii) m)) cereb)
                    = length m).
    { rewrite length_set_col; [exact Hlen|]. rewrite !length_map. lia. }
    destruct (IH _ _ _ Hloop Hlen1) as (targets & Htargets & Hlenc & Hrows).
    exists (j0 :: targets). split.
    { cbn [mapM_result]. unfold rbind. rewrite Eidx, Htargets. reflexivity. }
    split; [exact Hlenc|].
    intros t row r Hrow Hr.
    destruct (Hrows t row (<[j0 := cast_int8 (entry row ii)]> r))
      as (r' & Hr' & Hlr & Hset & Hkeep).
    { exact Hrow. }
    { apply lookup_set_col; [exact Hr|].
      rewrite !lookup_map. unfold matrix in *. rewrite Hrow. reflexivity. }
    rewrite length_insert in Hlr.
    exists r'. split; [exact Hr'|]. split; [exact Hlr|]. split.
    + intros [|p] j Hp Hj Hlast.
      * injection Hp as <-. rewrite Nat.add_0_r.
        assert (Hnin : j0 ∉ targets).
        { intros Hin. apply list_elem_of_lookup in Hin as [p' Hp'].
          apply (Hlast (S p')); [lia | exact Hp']. }
        rewrite (Hkeep j0 Hnin). apply list_lookup_insert_eq. exact Hj.
      * rewrite (Hset p j Hp).
        -- do 3 f_equal. lia.
        -- rewrite length_insert. exact Hj.
        -- intros p' Hlt. apply (Hlast (S p')). lia.
    + intros j Hj. apply not_elem_of_cons in Hj as [Hne Hj].
      rewrite (Hkeep j Hj). apply list_lookup_insert_ne. congruence.
Qed.

(** ** The masking block completes on a matrix that is large enough *)

Lemma py_index_in_range (n : nat) (i : Z) :
  0 <= i < Z.of_nat n -> py_index n i = Ok (Z.to_nat i).
Proof.
  intros Hi. unfold py_index.
  destruct (Z.leb_spec 0 i); [|lia]. destruct (Z.ltb_spec i (Z.of_nat n)); [|lia].
  reflexivity.
Qed.

Lemma zero_missing_completes (l : list Z) (n_sctx : nat) (m : list (list npfloat)) :
  Forall (fun i => 0 <= i <= 33) l ->
  (n_sctx + 34 <= length m)%nat ->
  (n_sctx + 34 <= ncols m)%nat ->
  exists m', zero_missing (map LInt l) n_sctx m = Ok m'.
Proof.
  intros Hl. revert m. induction Hl as [|i l Hi _ IH]; intros m HL HC.
  - exists m. reflexivity.
  - cbn [map zero_missing]. unfold rbind.
    destruct (zero_col (i + Z.of_nat n_sctx) m) as [m1|] eqn:E1.
    2:{ unfold zero_col, rbind in E1.
        rewrite py_index_in_range in E1 by lia. discriminate E1. }
    destruct (zero_col_shape _ _ _ E1) as [L1 C1].
    destruct (zero_row (i + Z.of_nat n_sctx) m1) as [m2|] eqn:E2.
    2:{ unfold zero_row, rbind in E2.
        rewrite py_index_in_range in E2 by lia. discriminate E2. }
    destruct (zero_row_shape _ _ _ E2) as [L2 C2].
    apply IH; lia.
Qed.

(** With a non-empty missing set inside 0..33, a square matrix over the
    subcortical, cerebellar and cortical columns is always masked. *)
Lemma mask_connectome_completes (l : list Z) (n_sctx : nat) (m : list (list npfloat)) :
  l <> [] ->
  Forall (fun i => 0 <= i <= 33) l ->
  (n_sctx + 34 <= length m)%nat ->
  (n_sctx + 34 <= ncols m)%nat ->
  exists m', mask_connectome (map LInt l) n_sctx m = Ok m'.
Proof.
  intros Hne Hl HL HC. destruct l as [|i l]; [contradiction|].
  destruct (zero_missing_completes (i :: l) n_sctx m Hl HL HC) as [m1 Hm1].
  unfold mask_connectome. cbn [map] in *. unfold rbind. rewrite Hm1.
  eexists. reflexivity.
Qed.

(** * Further properties of the script *)

(** ** The regressor with a spike file *)

Lemma hstack_rows_same_length (m1 m2 : matrix) :
  length m1 = length m2 -> exists m, hstack_rows m1 m2 = Ok m.
Proof.
  revert m2. induction m1 as [|r1 m1 IH]; intros [|r2 m2] Hlen; try discriminate.
  - exists []. reflexivity.
  - injection Hlen as Hlen. destruct (IH m2 Hlen) as [m Hm].
    eexists. cbn [hstack_rows]. rewrite Hm. reflexivity.
Qed.

Lemma np_append_axis1_wide (a b c : ndarray) :
  wide a -> np_append_axis1 a b = Ok c -> wide c.
Proof.
  intros (c1 & x & y & t & m & ->).
  destruct b as [?|?|c2 [|r2 m2]]; cbn [np_append_axis1 hstack_rows]; try discriminate.
  destruct (hstack_rows m m2) as [m'|]; [|discriminate].
  intros [= <-]. exists (c1 + c2)%nat, x, y, (t ++ r2), m'. reflexivity.
Qed.

Lemma np_append_axis1_ones_wide (rest : matrix) (b c : ndarray) :
  has_entries b ->
  np_append_axis1 (Arr2 1 ([1%Qc] :: rest)) b = Ok c -> wide c.
Proof.
  destruct b as [?|?|c2 [|[|s st] m2]]; cbn [has_entries]; try contradiction.
  intros _. cbn [np_append_axis1 hstack_rows].
  destruct (hstack_rows rest m2) as [m'|]; [|discriminate].
  intros [= <-]. exists (1 + c2)%nat, 1%Qc, s, st, m'. reflexivity.
Qed.

Lemma longer_first_row_differs (c d : nat) (x y : Qc) (t : list Qc) (m rest : matrix) :
  array_equal (Arr2 c ((x :: y :: t) :: m)) (Arr2 d ([1%Qc] :: rest)) = false.
Proof.
  cbn [array_equal list_eqb]. rewrite (andb_false_r (Qc_eqb x 1)). cbn [andb].
  apply andb_false_r.
Qed.

Section SpikeModels.

Variable np_loadtxt : string -> result ndarray.
Variable fit : matrix -> matrix -> result matrix.
Variables x_dof x_csf x_wm x_gs x_spike : string.
Variables dof csf wm gs spike : ndarray.
Hypothesis load_dof : np_loadtxt x_dof = Ok dof.
Hypothesis load_csf : np_loadtxt x_csf = Ok csf.
Hypothesis load_wm : np_loadtxt x_wm = Ok wm.
Hypothesis load_gs : np_loadtxt x_gs = Ok gs.
Hypothesis load_spike : np_loadtxt x_spike = Ok spike.
Hypothesis spike_found : str_truthy x_spike = true.

(** The branch taken when [x_spike] names a file, after the five loads. *)
Lemma assemble_mdl_spike_start (nsr gsr : pyval) (Data_name : string) (w : world) :
  assemble_mdl np_loadtxt x_dof x_csf x_wm x_gs x_spike nsr gsr Data_name w
  = (k <~ lift (tuple_get (shape (expand_dim spike)) 0) ;;
     let ones := np_ones_col k in
     if py_eq nsr (PyStr "1") then
       print (Data_name +:+ " model : func ~ spikes + dof + wm + csf") ;;;
       a <~ lift (np_append_axis1 ones (expand_dim spike)) ;;
       a <~ lift (np_append_axis1 a dof) ;;
       a <~ lift (np_append_axis1 a (expand_dim wm)) ;;
       mdl <~ lift (np_append_axis1 a (expand_dim csf)) ;;
       ret (mdl, ones)
     else if py_eq gsr (PyStr "1") then
       print (Data_name +:+ " model : func ~ spikes + dof + wm + csf + gs") ;;;
       a <~ lift (np_append_axis1 ones (expand_dim spike)) ;;
       a <~ lift (np_append_axis1 a dof) ;;
       a <~ lift (np_append_axis1 a (expand_dim wm)) ;;
       a <~ lift (np_append_axis1 a (expand_dim csf)) ;;
       mdl <~ lift (np_append_axis1 a (expand_dim gs)) ;;
       ret (mdl, ones)
     else
       print (Data_name +:+ "Default model : func ~ spikes") ;;;
       mdl <~ lift (np_append_axis1 ones (expand_dim spike)) ;;
       ret (mdl, ones))
      {| stdout := stdout w ++ [""]; files := files w |}.
Proof.
  unfold assemble_mdl. cbv zeta.
  rewrite load_dof, bind_lift_ok, load_csf, bind_lift_ok, load_wm, bind_lift_ok,
    load_gs, bind_lift_ok.
  run_print. rewrite spike_found. cbv iota. rewrite load_spike, bind_lift_ok.
  reflexivity.
Qed.

(** X1. With a spike file that holds at least one regressor value, the
    model assembled by [get_regressed_data] never equals the intercept
    column, whatever the two flags are: every one of the three designs
    starts with [ones] followed by the spike columns.  So [check_arrays]
    always takes the branch that fits the regression. *)
Theorem spike_model_is_never_degenerate (nsr gsr : pyval) (Data_name : string)
    (w w' : world) (mdl ones : ndarray) :
  has_entries (expand_dim spike) ->
  assemble_mdl np_loadtxt x_dof x_csf x_wm x_gs x_spike nsr gsr Data_name w
  = (Ret (mdl, ones), w') ->
  array_equal mdl ones = false.
Proof.
  intros Hspike. rewrite assemble_mdl_spike_start.
  destruct (expand_dim spike) as [?|?|c0 [|[|s st] sm]] eqn:Es;
    cbn [has_entries] in Hspike; try contradiction.
  cbn [shape tuple_get length lookup list_lookup]. rewrite bind_lift_ok. cbv zeta.
  change (np_ones_col (S (length sm)))
    with (Arr2 1 ([1%Qc] :: replicate (length sm) [1%Qc])).
  assert (Hfinal : forall c, wide c ->
            array_equal c (Arr2 1 ([1%Qc] :: replicate (length sm) [1%Qc])) = false).
  { intros c (c1 & x & y & t & m & ->). apply longer_first_row_differs. }
  assert (Hfirst : forall c,
            np_append_axis1 (Arr2 1 ([1%Qc] :: replicate (length sm) [1%Qc]))
              (Arr2 c0 ((s :: st) :: sm)) = Ok c -> wide c).
  { intros c. apply np_append_axis1_ones_wide. exact I. }
  destruct (py_eq nsr (PyStr "1")); [|destruct (py_eq gsr (PyStr "1"))]; run_print;
    repeat (unfold bind at 1;
            match goal with
            | |- context [lift (np_append_axis1 ?a ?b)] =>
                let E := fresh "E" in
                destruct (np_append_axis1 a b) eqn:E; cbn [lift ret raise];
                [|discriminate]
            end);
    unfold ret; intros [= <- <- <-]; apply Hfinal;
    eauto 10 using np_append_axis1_wide.
Qed.

(** X3. The motion parameters are the one confound that is not passed
    through [expand_dim].  When their file loads as a 1-D array (a single
    row or a single column) and a flag selects a design with [dof] in it,
    [np.append(..., dof, axis=1)] raises [ValueError] and
    [get_regressed_data] returns nothing. *)
Theorem one_dimensional_dof_is_rejected (v : list Qc) (Data : matrix)
    (nsr gsr : pyval) (Data_name : string) (w : world) :
  dof = Arr1 v ->
  ndim spike <> O ->
  py_eq nsr (PyStr "1") || py_eq gsr (PyStr "1") = true ->
  fst (get_regressed_data np_loadtxt fit x_dof x_csf x_wm x_gs x_spike
         Data nsr gsr Data_name w) = Raised ValueError.
Proof.
  intros Hdof Hnd Hflag. unfold get_regressed_data, bind at 1.
  rewrite assemble_mdl_spike_start.
  assert (Hm : exists c m, expand_dim spike = Arr2 c m).
  { destruct spike; cbn; [contradiction Hnd; reflexivity | eauto | eauto]. }
  destruct Hm as (c & m & Hm). rewrite Hm.
  cbn [shape tuple_get length lookup list_lookup]. rewrite bind_lift_ok. cbv zeta.
  destruct (hstack_rows_same_length (replicate (length m) [1%Qc]) m) as [a Ha].
  { apply length_replicate. }
  assert (Happ : np_append_axis1 (np_ones_col (length m)) (Arr2 c m)
                 = Ok (Arr2 (1 + c) a)).
  { unfold np_ones_col. cbn [np_append_axis1]. rewrite Ha. reflexivity. }
  subst dof.
  destruct (py_eq nsr (PyStr "1")); [|destruct (py_eq gsr (PyStr "1"))];
    [| |discriminate Hflag];
    run_print; rewrite Happ, bind_lift_ok; reflexivity.
Qed.

End SpikeModels.

(** A spike file that exists and is empty gives a design of shape (0, 2)
    next to an intercept of shape (0, 1): the two differ although neither
    has a row, "apply regression" is printed and the fit is called. *)
Lemma empty_spike_file_is_fitted :
  fst (assemble_mdl Runs.loadtxt_empty_spike "dof.1D" "CSF.txt" "WM.txt" "global.txt"
         "spikeRegressors_FD.1D" (PyStr "0") (PyStr "0") "conte69" initial_world)
  = Ret (Arr2 2 [], Arr2 1 []) /\
  array_equal (Arr2 2 []) (Arr2 1 []) = false /\
  get_regressed_data Runs.loadtxt_empty_spike Runs.fit_needs_samples
    "dof.1D" "CSF.txt" "WM.txt" "global.txt" "spikeRegressors_FD.1D"
    Sample.Data (PyStr "0") (PyStr "0") "conte69" initial_world
  = (Raised ValueError,
     {| stdout := [""; "conte69Default model : func ~ spikes"; "apply regression"];
        files := ∅ |}).
Proof.
  split; [vm_compute; reflexivity|]. split; [reflexivity|].
  vm_compute. reflexivity.
Qed.

Lemma spike_model_is_never_degenerate_witness :
  has_entries (expand_dim Sample.spike) /\
  fst (assemble_mdl Sample.np_loadtxt "dof.1D" "CSF.txt" "WM.txt" "global.txt"
         "spikeRegressors_FD.1D" (PyStr "1") (PyStr "0") "conte69" initial_world)
  = Ret (Runs.mdl_nsr, np_ones_col 2) /\
  array_equal Runs.mdl_nsr (np_ones_col 2) = false.
Proof.
  split; [exact I|]. split; [vm_compute; reflexivity|].
  apply (spike_model_is_never_degenerate Sample.np_loadtxt
           "dof.1D" "CSF.txt" "WM.txt" "global.txt" "spikeRegressors_FD.1D"
           Sample.dof Sample.csf Sample.wm Sample.gs Sample.spike
           eq_refl eq_refl eq_refl eq_refl eq_refl eq_refl
           (PyStr "1") (PyStr "0") "conte69" initial_world
           (snd (assemble_mdl Sample.np_loadtxt "dof.1D" "CSF.txt" "WM.txt"
                   "global.txt" "spikeRegressors_FD.1D" (PyStr "1") (PyStr "0")
                   "conte69" initial_world))
           Runs.mdl_nsr (np_ones_col 2)).
  - exact I.
  - vm_compute. reflexivity.
Defined.

Lemma one_dimensional_dof_is_rejected_witness :
  Runs.loadtxt_flat_dof "dof.1D" = Ok (Arr1 Runs.flat_dof) /\
  fst (get_regressed_data Runs.loadtxt_flat_dof Sample.no_fit
         "dof.1D" "CSF.txt" "WM.txt" "global.txt" "spikeRegressors_FD.1D"
         Sample.Data (PyStr "1") (PyStr "0") "conte69" initial_world)
  = Raised ValueError.
Proof.
  split; [reflexivity|].
  apply (one_dimensional_dof_is_rejected Runs.loadtxt_flat_dof Sample.no_fit
           "dof.1D" "CSF.txt" "WM.txt" "global.txt" "spikeRegressors_FD.1D"
           (Arr1 Runs.flat_dof) Sample.csf Sample.wm Sample.gs Sample.spike
           eq_refl eq_refl eq_refl eq_refl eq_refl eq_refl
           Runs.flat_dof Sample.Data (PyStr "1") (PyStr "0") "conte69" initial_world).
  - reflexivity.
  - simpl. discriminate.
  - reflexivity.
Defined.

(** ** The confound files *)

Section MissingGlobalSignal.

Variable np_loadtxt : string -> result ndarray.
Variable fit : matrix -> matrix -> result matrix.
Variables x_dof x_csf x_wm x_gs : string.
Variables dof csf wm : ndarray.
Variable e : exn.
Hypothesis load_dof : np_loadtxt x_dof = Ok dof.
Hypothesis load_csf : np_loadtxt x_csf = Ok csf.
Hypothesis load_wm : np_loadtxt x_wm = Ok wm.
Hypothesis load_gs : np_loadtxt x_gs = Err e.

(** X2. [get_regressed_data] loads the four confound files before it looks
    at its arguments.  A global-signal file that cannot be read stops it
    with that exception for every spike file and every pair of flags, the
    ones that never use the global signal included; nothing is printed or
    written. *)
Theorem global_signal_file_is_always_needed (x_spike : string) (Data : matrix)
    (nsr gsr : pyval) (Data_name : string) (w : world) :
  get_regressed_data np_loadtxt fit x_dof x_csf x_wm x_gs x_spike
    Data nsr gsr Data_name w = (Raised e, w).
Proof.
  unfold get_regressed_data, bind at 1, assemble_mdl. cbv zeta.
  rewrite load_dof, bind_lift_ok, load_csf, bind_lift_ok, load_wm, bind_lift_ok,
    load_gs.
  reflexivity.
Qed.

End MissingGlobalSignal.

Lemma global_signal_file_is_always_needed_witness :
  Runs.loadtxt_no_gs "global.txt" = Err OSError /\
  get_regressed_data Runs.loadtxt_no_gs Sample.no_fit
    "dof.1D" "CSF.txt" "WM.txt" "global.txt" ""
    Sample.Data (PyStr "0") (PyStr "0") "conte69" initial_world
  = (Raised OSError, initial_world).
Proof.
  split; [reflexivity|].
  apply (global_signal_file_is_always_needed Runs.loadtxt_no_gs Sample.no_fit
           "dof.1D" "CSF.txt" "WM.txt" "global.txt"
           Sample.dof Sample.csf Sample.wm OSError); reflexivity.
Defined.

(** ** Scripts that leave the disk alone *)

Lemma keeps_files_ret {A} (a : A) : keeps_files (ret a).
Proof. intros w o w' [= _ <-]. reflexivity. Qed.

Lemma keeps_files_lift {A} (r : result A) : keeps_files (lift r).
Proof. destruct r; intros w o w' [= _ <-]; reflexivity. Qed.

Lemma keeps_files_print (s : string) : keeps_files (print s).
Proof. intros w o w' [= _ <-]. reflexivity. Qed.

Lemma keeps_files_bind {A B} (m : Script A) (k : A -> Script B) :
  keeps_files m -> (forall a, keeps_files (k a)) -> keeps_files (bind m k).
Proof.
  intros Hm Hk w o w'. unfold bind. destruct (m w) as [[a| |e] w1] eqn:E.
  - intros H. rewrite (Hk a w1 o w' H). exact (Hm w _ w1 E).
  - intros [= _ <-]. exact (Hm w _ w1 E).
  - intros [= _ <-]. exact (Hm w _ w1 E).
Qed.

Lemma keeps_files_if {A} (b : bool) (m1 m2 : Script A) :
  keeps_files m1 -> keeps_files m2 -> keeps_files (if b then m1 else m2).
Proof. destruct b; auto. Qed.

(** ** The shape of the cleaned timeseries *)

Section Shape.

Variable np_loadtxt : string -> result ndarray.
Variable fit : matrix -> matrix -> result matrix.
Variables x_dof x_csf x_wm x_gs : string.

Lemma get_regressed_data_keeps_files (x_spike : string) (Data : matrix)
    (nsr gsr : pyval) (Data_name : string) :
  keeps_files (get_regressed_data np_loadtxt fit x_dof x_csf x_wm x_gs x_spike
                 Data nsr gsr Data_name).
Proof.
  unfold get_regressed_data, assemble_mdl, check_arrays. cbv zeta.
  repeat first
    [ apply keeps_files_ret
    | apply keeps_files_lift
    | apply keeps_files_print
    | apply keeps_files_if
    | apply keeps_files_bind; [|intros ?] ].
Qed.

Lemma check_arrays_shape (mdl ones : ndarray) (Data R : matrix) (w w' : world) :
  check_arrays fit mdl ones Data w = (Ret R, w') ->
  same_row_lengths Data R.
Proof.
  unfold check_arrays. destruct (negb (array_equal mdl ones)).
  - run_print. unfold bind at 1.
    destruct (match mdl with Arr2 _ m => Ok m | _ => _ end) as [X|]; [|discriminate].
    cbn [lift ret]. unfold bind at 1.
    destruct (fit X Data) as [coef_|]; [|discriminate].
    cbn [lift ret]. unfold bind at 1.
    destruct (np_dot X (transpose coef_)) as [fitted|]; [|discriminate].
    cbn [lift ret]. destruct (np_sub Data fitted) as [R'|] eqn:E; [|discriminate].
    cbn [lift ret]. intros [= <- <-].
    apply np_sub_inv in E as [-> Hrows].
    clear -Hrows. induction Hrows as [|r1 r2 a b Hr _ IH]; [constructor|].
    cbn [zip_with]. constructor; [|exact IH]. rewrite length_zip_with. lia.
  - unfold ret. intros [= <- <-].
    unfold same_row_lengths. clear. induction Data; constructor; auto.
Qed.

(** X4. Whatever model is selected and whatever the fit returns, the array
    that [get_regressed_data] returns has the shape of its input: as many
    rows (timepoints), and row by row as many entries.  The function writes
    no file. *)
Theorem cleaned_timeseries_keep_the_shape (x_spike : string) (Data R : matrix)
    (nsr gsr : pyval) (Data_name : string) (w w' : world) :
  get_regressed_data np_loadtxt fit x_dof x_csf x_wm x_gs x_spike
    Data nsr gsr Data_name w = (Ret R, w') ->
  length R = length Data /\ same_row_lengths Data R /\ files w' = files w.
Proof.
  intros Hrun.
  pose proof (get_regressed_data_keeps_files _ _ _ _ _ _ _ _ Hrun) as Hfiles.
  revert Hrun. unfold get_regressed_data, bind at 1.
  destruct (assemble_mdl _ _ _ _ _ _ _ _ _ w) as [[[mdl ones]| |e] w1];
    [|discriminate|discriminate].
  cbn [fst snd]. intros Hcheck. apply check_arrays_shape in Hcheck.
  split; [|split; [exact Hcheck | exact Hfiles]].
  symmetry. exact (Forall2_length _ _ _ Hcheck).
Qed.

End Shape.

Lemma cleaned_timeseries_keep_the_shape_witness :
  fst (get_regressed_data Sample.np_loadtxt Sample.fit
         "dof.1D" "CSF.txt" "WM.txt" "global.txt" "spikeRegressors_FD.1D"
         Sample.Data (PyStr "0") (PyStr "0") "conte69" initial_world)
  = Ret [[of_Z 1]; [of_Z 1]] /\
  length [[of_Z 1]; [of_Z 1]] = length Sample.Data /\
  same_row_lengths Sample.Data [[of_Z 1]; [of_Z 1]] /\
  files (snd (get_regressed_data Sample.np_loadtxt Sample.fit
                "dof.1D" "CSF.txt" "WM.txt" "global.txt" "spikeRegressors_FD.1D"
                Sample.Data (PyStr "0") (PyStr "0") "conte69" initial_world))
  = files initial_world.
Proof.
  split; [qc_eval|].
  apply (cleaned_timeseries_keep_the_shape Sample.np_loadtxt Sample.fit
           "dof.1D" "CSF.txt" "WM.txt" "global.txt" "spikeRegressors_FD.1D"
           Sample.Data [[of_Z 1]; [of_Z 1]] (PyStr "0") (PyStr "0") "conte69"
           initial_world).
  apply injective_projections; [qc_eval | reflexivity].
Defined.

(** ** The cerebellar regions that are missing *)

Lemma sorted_nodup_strict (l : list Z) :
  StronglySorted Z.le l -> NoDup l -> StronglySorted Z.lt l.
Proof.
  induction 1 as [|x l Hl IH Hx]; intros Hnd; [constructor|].
  apply NoDup_cons in Hnd as [Hnin Hnd]. constructor; [auto|].
  apply Forall_forall. intros y Hy.
  rewrite Forall_forall in Hx. specialize (Hx y Hy).
  assert (x <> y) by (intros ->; contradiction). lia.
Qed.

(** X5. [missing_elements] returns exactly the indices 0..33 that do not
    occur in its argument, in strictly increasing order (so without
    repetition); there are at most 34 of them.  Entries of the argument
    outside 0..33 and repeated entries change nothing. *)
Theorem missing_elements_is_the_sorted_complement (roiList : list Z) :
  (forall i, i ∈ missing_elements roiList <-> (0 <= i <= 33 /\ i ∉ roiList)) /\
  StronglySorted Z.lt (missing_elements roiList) /\
  (length (missing_elements roiList) <= 34)%nat.
Proof.
  split; [apply missing_elements_spec|]. split.
  - apply sorted_nodup_strict; [|apply missing_elements_NoDup].
    unfold missing_elements. cbv zeta. apply (StronglySorted_merge_sort Z.le).
  - change 34%nat with (length (seqZ 0 34)).
    apply submseteq_length, NoDup_submseteq; [apply missing_elements_NoDup|].
    intros i Hi. apply missing_elements_spec in Hi as [Hi _].
    apply elem_of_seqZ. lia.
Qed.

(** ** The rebuilt cerebellar array *)

Lemma py_index_lt (n : nat) (i : Z) (j : nat) : py_index n i = Ok j -> (j < n)%nat.
Proof.
  unfold py_index.
  destruct (Z.leb_spec 0 i); destruct (Z.ltb_spec i (Z.of_nat n)); cbn.
  - intros [= <-]. lia.
  - destruct (Z.leb_spec (- Z.of_nat n) i); destruct (Z.ltb_spec i 0); cbn;
      try discriminate. lia.
  - destruct (Z.leb_spec (- Z.of_nat n) i); destruct (Z.ltb_spec i 0); cbn;
      try discriminate; try lia. intros [= <-]. lia.
  - destruct (Z.leb_spec (- Z.of_nat n) i); destruct (Z.ltb_spec i 0); cbn;
      try discriminate; try lia.
Qed.

Lemma mapM_py_index_lt (labels : list Z) (targets : list nat) :
  mapM_result (py_index 34) labels = Ok targets ->
  Forall (fun j => (j < 34)%nat) targets.
Proof.
  revert targets. induction labels as [|l labels IH]; intros targets; cbn [mapM_result].
  - intros [= <-]. constructor.
  - unfold rbind. destruct (py_index 34 l) as [j|] eqn:E; [|discriminate].
    destruct (mapM_result (py_index 34) labels) as [ts|]; [|discriminate].
    intros [= <-]. constructor; [eapply py_index_lt; exact E | apply IH; reflexivity].
Qed.

(** X6. When the scatter loop of the reconciliation runs to its end on a
    2-D float array [m], starting from the zero array of 34 columns, every
    label is a valid column index, the result has the rows of [m] and each
    of them has 34 entries.  A target column holds at every timepoint the
    [int8] cast of the last input column that was scattered to it (a label
    can occur twice: the later column overwrites the earlier one), and
    every column that is no target is zero. *)
Theorem scattered_columns_hold_the_int8_casts (k : nat) (m : matrix)
    (labels : list Z) (c : list (list Z)) :
  scatter_columns (Arr2 k m) 0 labels (replicate (length m) (replicate 34%nat 0)) = Ok c ->
  exists targets,
    mapM_result (py_index 34) labels = Ok targets /\
    Forall (fun j => (j < 34)%nat) targets /\
    length c = length m /\
    forall t row, m !! t = Some row ->
      exists r, c !! t = Some r /\ length r = 34%nat /\
        (forall p j, targets !! p = Some j ->
                     (forall p', (p < p')%nat -> targets !! p' <> Some j) ->
                     r !! j = Some (cast_int8 (entry row p))) /\
        (forall j, (j < 34)%nat -> j ∉ targets -> r !! j = Some 0).
Proof.
  intros Hscatter.
  destruct (scatter_columns_spec k m labels 0 _ c Hscatter)
    as (targets & Ht & Hlen & Hrows).
  { apply length_replicate. }
  pose proof (mapM_py_index_lt _ _ Ht) as Hlt.
  exists targets. split; [exact Ht|]. split; [exact Hlt|]. split; [exact Hlen|].
  intros t row Hrow.
  destruct (Hrows t row (replicate 34%nat 0) Hrow) as (r & Hr & Hlr & Hset & Hkeep).
  { apply lookup_replicate_2. apply lookup_lt_Some in Hrow. exact Hrow. }
  rewrite length_replicate in Hlr, Hset.
  exists r. split; [exact Hr|]. split; [exact Hlr|]. split.
  - intros p j Hp Hlast. apply (Hset p j Hp); [|exact Hlast].
    rewrite Forall_lookup in Hlt. exact (Hlt p j Hp).
  - intros j Hj Hnin. rewrite (Hkeep j Hnin). apply lookup_replicate_2. exact Hj.
Qed.

Lemma scattered_columns_hold_the_int8_casts_witness :
  scatter_columns Sample.cereb_tmp 0 [1; 0; 1]
    [replicate 34%nat 0; replicate 34%nat 0]
  = Err IndexError /\
  scatter_columns Sample.cereb_tmp 0 [1; 1]
    [replicate 34%nat 0; replicate 34%nat 0]
  = Ok [Sample.of_list_34 [0; 3]; Sample.of_list_34 [0; 4]] /\
  exists targets,
    mapM_result (py_index 34) [1; 1] = Ok targets /\
    Forall (fun j => (j < 34)%nat) targets /\
    length [Sample.of_list_34 [0; 3]; Sample.of_list_34 [0; 4]] = 2%nat /\
    forall t row, [[frac 1 2; of_Z 3]; [frac 3 2; of_Z 4]] !! t = Some row ->
      exists r, [Sample.of_list_34 [0; 3]; Sample.of_list_34 [0; 4]] !! t = Some r /\
        length r = 34%nat /\
        (forall p j, targets !! p = Some j ->
                     (forall p', (p < p')%nat -> targets !! p' <> Some j) ->
                     r !! j = Some (cast_int8 (entry row p))) /\
        (forall j, (j < 34)%nat -> j ∉ targets -> r !! j = Some 0).
Proof.
  split; [vm_compute; reflexivity|].
  split; [vm_compute; reflexivity|].
  apply (scattered_columns_hold_the_int8_casts 2
           [[frac 1 2; of_Z 3]; [frac 3 2; of_Z 4]] [1; 1]
           [Sample.of_list_34 [0; 3]; Sample.of_list_34 [0; 4]]).
  vm_compute. reflexivity.
Defined.

(** ** The masking block *)

Section Masking.

Variable np_corrcoef : list (list npfloat) -> list (list npfloat).

(** X7. The masking block reads [exclude_labels[0]].  When the label count
    differs from 34 and yet every index 0..33 occurs among the labels (a
    label was listed twice), [missing_elements] returns the empty list and
    the block raises [IndexError]: no connectivity matrix is written. *)
Theorem no_missing_region_without_34_labels_raises (roiList : list Z)
    (n_sctx : nat) (ts : list (list npfloat)) (fname : string) (w : world) :
  (forall i, 0 <= i <= 33 -> i ∈ roiList) ->
  save_connectome np_corrcoef (map LInt (missing_elements roiList)) n_sctx ts fname w
  = (Raised IndexError, w).
Proof.
  intros Hall.
  assert (Hnil : missing_elements roiList = []).
  { destruct (missing_elements roiList) as [|i l] eqn:E; [reflexivity|].
    assert (Hi : i ∈ missing_elements roiList) by (rewrite E; apply elem_of_cons; auto).
    apply missing_elements_spec in Hi as [Hrange Hnin].
    exfalso. apply Hnin, Hall, Hrange. }
  rewrite Hnil. reflexivity.
Qed.

(** X8. With a non-empty list of missing regions, all within 0..33, and a
    correlation matrix that has a row and a column for every subcortical
    and cerebellar region, the masking block cannot fail: the matrix is
    saved under the given name with the format [%.6f], and nothing is
    printed. *)
Theorem masking_completes_on_a_full_matrix (l : list Z) (n_sctx : nat)
    (ts : list (list npfloat)) (fname : string) (w : world) :
  l <> [] ->
  Forall (fun i => 0 <= i <= 33) l ->
  (n_sctx + 34 <= length (np_corrcoef (transpose_of NaN ts)))%nat ->
  (n_sctx + 34 <= ncols (np_corrcoef (transpose_of NaN ts)))%nat ->
  exists m,
    save_connectome np_corrcoef (map LInt l) n_sctx ts fname w
    = (Ret tt, {| stdout := stdout w;
                  files := <[fname := {| fmt := "%.6f"; content := m |}]> (files w) |}).
Proof.
  intros Hne Hl HL HC.
  destruct (mask_connectome_completes l n_sctx _ Hne Hl HL HC) as [m Hm].
  exists m. unfold save_connectome. cbv zeta. rewrite Hm. reflexivity.
Qed.

End Masking.

Lemma no_missing_region_without_34_labels_raises_witness :
  length Runs.roiList = 35%nat /\
  save_connectome Sample.np_corrcoef (map LInt (missing_elements Runs.roiList))
    Sample.n_sctx Sample.ts "FC.txt" initial_world
  = (Raised IndexError, initial_world).
Proof.
  split; [reflexivity|].
  apply (no_missing_region_without_34_labels_raises Sample.np_corrcoef Runs.roiList
           Sample.n_sctx Sample.ts "FC.txt" initial_world).
  intros i Hi. apply elem_of_app. left. apply elem_of_seqZ. lia.
Defined.

Lemma masking_completes_on_a_full_matrix_witness :
  exists m,
    save_connectome Sample.np_corrcoef Sample.exclude_labels Sample.n_sctx
      Sample.ts "FC.txt" initial_world
    = (Ret tt, {| stdout := stdout initial_world;
                  files := <["FC.txt" := {| fmt := "%.6f"; content := m |}]>
                             (files initial_world) |}).
Proof.
  apply (masking_completes_on_a_full_matrix Sample.np_corrcoef (seqZ 2 32)
           Sample.n_sctx Sample.ts "FC.txt" initial_world).
  - discriminate.
  - apply Forall_forall. intros i Hi. apply elem_of_seqZ in Hi. lia.
  - vm_compute. lia.
  - vm_compute. lia.
Defined.

(** ** The entries the masking block leaves alone *)

Lemma zero_col_cell (j : Z) (m m' : list (list npfloat)) :
  zero_col j m = Ok m' ->
  exists j', py_index (ncols m) j = Ok j' /\
             forall r c, c <> j' -> cell m' r c = cell m r c.
Proof.
  unfold zero_col, rbind. destruct (py_index (ncols m) j) as [j'|]; [|discriminate].
  intros [= <-]. exists j'. split; [reflexivity|].
  intros r c Hc. unfold cell. rewrite lookup_map.
  destruct (m !! r) as [row|]; [|reflexivity]. cbn.
  apply list_lookup_insert_ne. congruence.
Qed.

Lemma zero_row_cell (j : Z) (m m' : list (list npfloat)) :
  zero_row j m = Ok m' ->
  exists j', py_index (length m) j = Ok j' /\
             forall r c, r <> j' -> cell m' r c = cell m r c.
Proof.
  unfold zero_row, rbind. destruct (py_index (length m) j) as [j'|]; [|discriminate].
  intros [= <-]. exists j'. split; [reflexivity|].
  intros r c Hr. unfold cell. rewrite list_lookup_insert_ne by congruence. reflexivity.
Qed.

Lemma np_triu_cell (m : list (list npfloat)) (r c : nat) :
  (r <= c)%nat -> cell (np_triu m) r c = cell m r c.
Proof.
  intros Hrc. assert (Hlt : (c <? r)%nat = false) by (apply Nat.ltb_ge; lia).
  unfold cell, np_triu. rewrite list_lookup_imap.
  destruct (m !! r) as [row|]; [|reflexivity]. cbn -[Nat.ltb].
  rewrite list_lookup_imap. destruct (row !! c) as [x|]; [|reflexivity].
  cbn -[Nat.ltb]. rewrite Hlt. reflexivity.
Qed.

Lemma zero_missing_cell (excl : list pylabel) (n_sctx : nat)
    (m m' : list (list npfloat)) (r c : nat) :
  zero_missing excl n_sctx m = Ok m' ->
  (forall i, LInt i ∈ excl ->
             0 <= i /\ r <> (Z.to_nat i + n_sctx)%nat /\ c <> (Z.to_nat i + n_sctx)%nat) ->
  cell m' r c = cell m r c.
Proof.
  revert m. induction excl as [|[i|] rest IH]; intros m; cbn [zero_missing].
  - intros [= <-] _. reflexivity.
  - unfold rbind.
    destruct (zero_col _ m) as [m1|] eqn:E1; [|discriminate].
    destruct (zero_row _ m1) as [m2|] eqn:E2; [|discriminate].
    intros Hrest Hother.
    destruct (Hother i) as (Hi & Hr & Hc); [apply elem_of_cons; auto|].
    destruct (zero_col_cell _ _ _ E1) as (j1 & Hj1 & Hcell1).
    destruct (zero_row_cell _ _ _ E2) as (j2 & Hj2 & Hcell2).
    apply py_index_nonneg in Hj1 as [-> _]; [|lia].
    apply py_index_nonneg in Hj2 as [-> _]; [|lia].
    rewrite (IH m2 Hrest) by (intros i' Hi'; apply Hother, elem_of_cons; auto).
    rewrite Hcell2 by lia. apply Hcell1. lia.
  - discriminate.
Qed.

(** X9. The masking block touches nothing else on and above the diagonal:
    an entry at row [r] and column [c] with [r <= c], where neither [r] nor
    [c] is the index [i + n_sctx] of a missing region, is in the masked
    matrix what it was in the correlation matrix. *)
Theorem masking_keeps_the_other_upper_entries (excl : list pylabel) (n_sctx : nat)
    (ts_r m : list (list npfloat)) (r c : nat) :
  mask_connectome excl n_sctx ts_r = Ok m ->
  (r <= c)%nat ->
  (forall i, LInt i ∈ excl ->
             0 <= i /\ r <> (Z.to_nat i + n_sctx)%nat /\ c <> (Z.to_nat i + n_sctx)%nat) ->
  cell m r c = cell ts_r r c.
Proof.
  intros Hmask Hrc Hother. revert Hmask. unfold mask_connectome, rbind.
  destruct excl as [|[i|] rest]; [discriminate| |].
  - destruct (zero_missing _ _ _) as [m1|] eqn:E; [|discriminate].
    intros [= <-]. rewrite np_triu_cell by exact Hrc.
    exact (zero_missing_cell _ _ _ _ r c E Hother).
  - intros [= <-]. apply np_triu_cell, Hrc.
Qed.

Lemma masking_keeps_the_other_upper_entries_witness :
  mask_connectome [LInt 0] 0 Runs.ts_r = Ok Runs.masked /\
  cell Runs.masked 1 1 = cell Runs.ts_r 1 1.
Proof.
  split; [vm_compute; reflexivity|].
  apply (masking_keeps_the_other_upper_entries [LInt 0] 0 Runs.ts_r Runs.masked 1 1).
  - vm_compute. reflexivity.
  - lia.
  - intros i Hi. apply list_elem_of_singleton in Hi. injection Hi as ->. lia.
Defined.

(** ** The averaging loops run to the end *)

Lemma bool_index_ok (m : matrix) (mask : list bool) :
  length mask = ncols m -> bool_index m mask = Ok (map (select mask) m).
Proof. intros H. unfold bool_index. rewrite H, Nat.eqb_refl. reflexivity. Qed.

Lemma bool_index_mismatch (m : matrix) (mask : list bool) :
  length mask <> ncols m -> bool_index m mask = Err IndexError.
Proof.
  intros H. unfold bool_index. apply Nat.eqb_neq in H. rewrite H. reflexivity.
Qed.

Lemma ts_ctx_loop_total (data : matrix) (thisparc : list Qc) (labs : list nat) :
  length thisparc = ncols data ->
  forall ts, exists ts', ts_ctx_loop data thisparc labs ts = Ok ts'.
Proof.
  intros Hlen. induction labs as [|lab labs IH]; intros ts; cbn [ts_ctx_loop].
  - eexists. reflexivity.
  - rewrite bool_index_ok by (rewrite length_map; exact Hlen). cbn [rbind]. apply IH.
Qed.

(** X10. When the label vector of a conte69 parcellation has one entry per
    cortical vertex, the averaging loop runs to its end.  The regional
    timeseries have one row per timepoint and one column per distinct
    label, and column [lab] holds the mean over the vertices whose label
    equals the position [lab] ([nan] when there is none). *)
Theorem conte_regions_average_by_position (data_corr : matrix) (n_vertex : nat)
    (thisparc : list Qc) :
  length thisparc = ncols (last_cols n_vertex data_corr) ->
  exists ts_ctx,
    parcellate_conte data_corr n_vertex thisparc = Ok ts_ctx /\
    length ts_ctx = length data_corr /\
    forall t row, last_cols n_vertex data_corr !! t = Some row ->
      exists r, ts_ctx !! t = Some r /\
        length r = length (np_unique thisparc) /\
        forall lab, (lab < length (np_unique thisparc))%nat ->
          r !! lab = Some (np_mean (select (position_mask thisparc lab) row)).
Proof.
  intros Hlen.
  destruct (ts_ctx_loop_total (last_cols n_vertex data_corr) thisparc
              (seq 0 (length (np_unique thisparc))) Hlen
              (replicate (length (last_cols n_vertex data_corr))
                 (replicate (length (np_unique thisparc)) (Fin 0%Qc))))
    as [ts_ctx Hts].
  exists ts_ctx. split; [exact Hts|]. apply parcellate_conte_spec. exact Hts.
Qed.

Lemma conte_regions_average_by_position_witness :
  length Sample.thisparc = ncols (last_cols 3 Sample.data_corr_ctx) /\
  exists ts_ctx,
    parcellate_conte Sample.data_corr_ctx 3 Sample.thisparc = Ok ts_ctx /\
    length ts_ctx = length Sample.data_corr_ctx /\
    forall t row, last_cols 3 Sample.data_corr_ctx !! t = Some row ->
      exists r, ts_ctx !! t = Some r /\
        length r = length (np_unique Sample.thisparc) /\
        forall lab, (lab < length (np_unique Sample.thisparc))%nat ->
          r !! lab = Some (np_mean (select (position_mask Sample.thisparc lab) row)).
Proof.
  split; [reflexivity|].
  apply (conte_regions_average_by_position Sample.data_corr_ctx 3 Sample.thisparc).
  reflexivity.
Defined.

Lemma np_unique_nonempty (v : list Qc) : v <> [] -> np_unique v <> [].
Proof.
  intros Hv Hnil. destruct v as [|x v]; [contradiction|].
  assert (Hx : x ∈ np_unique (x :: v)).
  { unfold np_unique. rewrite merge_sort_Permutation, elem_of_remove_dups.
    apply elem_of_cons. auto. }
  rewrite Hnil in Hx. apply elem_of_nil in Hx. exact Hx.
Qed.

(** X11. A conte69 label vector that is not empty and whose length differs
    from the number of cortical vertices makes the first boolean column
    selection raise [IndexError]: nothing is averaged for that
    parcellation. *)
Theorem conte_labels_of_wrong_length_raise (data_corr : matrix) (n_vertex : nat)
    (thisparc : list Qc) :
  thisparc <> [] ->
  length thisparc <> ncols (last_cols n_vertex data_corr) ->
  parcellate_conte data_corr n_vertex thisparc = Err IndexError.
Proof.
  intros Hne Hlen. unfold parcellate_conte. cbv zeta.
  destruct (np_unique thisparc) as [|u us] eqn:E.
  { exfalso. exact (np_unique_nonempty thisparc Hne E). }
  cbn [length seq ts_ctx_loop].
  rewrite bool_index_mismatch by (rewrite length_map; exact Hlen). reflexivity.
Qed.

Lemma conte_labels_of_wrong_length_raise_witness :
  ncols (last_cols 3 Sample.data_corr_ctx) = 3%nat /\
  parcellate_conte Sample.data_corr_ctx 3 [of_Z 0; of_Z 1] = Err IndexError.
Proof.
  split; [reflexivity|].
  apply (conte_labels_of_wrong_length_raise Sample.data_corr_ctx 3 [of_Z 0; of_Z 1]).
  - discriminate.
  - simpl. lia.
Defined.

(** ** The native averaging loop *)

Lemma ts_native_loop_spec (data : matrix) (parc : list Z) (us : list Z) :
  length parc = ncols data ->
  forall (lab0 : nat) (ts : list (list npfloat)),
    length ts = length data ->
    exists ts',
      ts_native_loop data parc us lab0 ts = Ok ts' /\
      length ts' = length data /\
      forall t row r, data !! t = Some row -> ts !! t = Some r ->
        exists r', ts' !! t = Some r' /\ length r' = length r /\
          forall p, (p < length r)%nat ->
            r' !! p = if decide (lab0 <= p < lab0 + length us)%nat
                      then (fun u => np_mean (select (label_mask parc u) row))
                             <$> us !! (p - lab0)%nat
                      else r !! p.
Proof.
  intros Hparc. induction us as [|u us IH]; intros lab0 ts Hlen; cbn [ts_native_loop].
  - exists ts. split; [reflexivity|]. split; [exact Hlen|].
    intros t row r _ Hr. exists r. split; [exact Hr|]. split; [reflexivity|].
    intros p _. rewrite decide_False by (cbn; lia). reflexivity.
  - fold (label_mask parc u).
    rewrite bool_index_ok by (unfold label_mask; rewrite length_map; exact Hparc).
    cbn [rbind].
    destruct (IH (S lab0)
                (set_col lab0 (map np_mean (map (select (label_mask parc u)) data)) ts))
      as (ts' & Hloop & Hlen' & Hrows).
    { rewrite length_set_col; [exact Hlen|]. rewrite !length_map. lia. }
    exists ts'. split; [exact Hloop|]. split; [exact Hlen'|].
    intros t row r Hrow Hr.
    destruct (Hrows t row (<[lab0 := np_mean (select (label_mask parc u) row)]> r))
      as (r' & Hr' & Hlr & Hent).
    { exact Hrow. }
    { apply lookup_set_col; [exact Hr|].
      rewrite !lookup_map. unfold matrix in *. rewrite Hrow. reflexivity. }
    rewrite length_insert in Hlr, Hent.
    exists r'. split; [exact Hr'|]. split; [exact Hlr|].
    intros p Hp. rewrite (Hent p Hp). cbn [length].
    destruct (decide (S lab0 <= p < S lab0 + length us)%nat) as [Hin|Hout].
    + rewrite decide_True by lia.
      replace (p - lab0)%nat with (S (p - S lab0)) by lia. reflexivity.
    + destruct (decide (p = lab0)) as [->|Hne].
      * rewrite decide_True by lia. rewrite Nat.sub_diag. cbn.
        apply list_lookup_insert_eq. exact Hp.
      * rewrite decide_False by lia. apply list_lookup_insert_ne. congruence.
Qed.

Lemma select_nonempty (parc : list Z) (u : Z) (row : list Qc) :
  length row = length parc -> u ∈ parc -> select (label_mask parc u) row <> [].
Proof.
  revert row. induction parc as [|x parc IH]; intros row Hlen Hin.
  - apply elem_of_nil in Hin. contradiction.
  - destruct row as [|y row]; [discriminate|]. injection Hlen as Hlen.
    cbn [label_mask map select]. destruct (Z.eqb_spec x u) as [->|Hne]; [discriminate|].
    apply elem_of_cons in Hin as [->|Hin]; [contradiction|].
    exact (IH row Hlen Hin).
Qed.

Lemma np_mean_finite (l : list Qc) : l <> [] -> exists q, np_mean l = Fin q.
Proof. destruct l; [contradiction|]. intros _. eexists. reflexivity. Qed.

Lemma elem_of_np_unique_Z (v : list Z) (u : Z) : u ∈ np_unique_Z v <-> u ∈ v.
Proof. unfold np_unique_Z. rewrite merge_sort_Permutation. apply elem_of_remove_dups. Qed.

(** X12. On native timeseries with one column per vertex of the
    parcellation, the native averaging loop runs to its end, and column
    [lab] of its result is the mean over the vertices that carry the label
    [uparcel[lab]] itself.  Every region has a vertex, so no entry is
    [nan]. *)
Theorem native_regions_average_by_label (dataNative_corr : matrix)
    (native_parc : list Z) :
  length native_parc = ncols dataNative_corr ->
  Forall (fun row => length row = length native_parc) dataNative_corr ->
  exists ts,
    parcellate_native dataNative_corr native_parc = Ok ts /\
    length ts = length dataNative_corr /\
    forall t row, dataNative_corr !! t = Some row ->
      exists r, ts !! t = Some r /\
        length r = length (np_unique_Z native_parc) /\
        forall lab u, np_unique_Z native_parc !! lab = Some u ->
          exists q,
            r !! lab = Some (Fin q) /\
            np_mean (select (label_mask native_parc u) row) = Fin q.
Proof.
  intros Hparc Hrect. unfold parcellate_native. cbv zeta.
  destruct (ts_native_loop_spec dataNative_corr native_parc (np_unique_Z native_parc)
              Hparc 0
              (replicate (length dataNative_corr)
                 (replicate (length (np_unique_Z native_parc)) (Fin 0%Qc))))
    as (ts & Hloop & Hlen & Hrows).
  { apply length_replicate. }
  exists ts. split; [exact Hloop|]. split; [exact Hlen|].
  intros t row Hrow.
  destruct (Hrows t row (replicate (length (np_unique_Z native_parc)) (Fin 0%Qc)) Hrow)
    as (r & Hr & Hlr & Hent).
  { apply lookup_replicate_2. apply lookup_lt_Some in Hrow. exact Hrow. }
  rewrite length_replicate in Hlr, Hent.
  exists r. split; [exact Hr|]. split; [exact Hlr|].
  intros lab u Hu.
  assert (Hlab : (lab < length (np_unique_Z native_parc))%nat)
    by (apply lookup_lt_Some in Hu; exact Hu).
  destruct (np_mean_finite (select (label_mask native_parc u) row)) as [q Hq].
  { apply select_nonempty.
    - rewrite Forall_lookup in Hrect. exact (Hrect t row Hrow).
    - apply elem_of_np_unique_Z. apply list_elem_of_lookup. eauto. }
  exists q. split; [|exact Hq].
  rewrite (Hent lab Hlab), decide_True by lia.
  rewrite Nat.sub_0_r, Hu. cbn. rewrite Hq. reflexivity.
Qed.

Lemma native_regions_average_by_label_witness :
  length [1; 2; 2] = ncols Sample.data_corr_ctx /\
  exists ts,
    parcellate_native Sample.data_corr_ctx [1; 2; 2] = Ok ts /\
    length ts = length Sample.data_corr_ctx /\
    forall t row, Sample.data_corr_ctx !! t = Some row ->
      exists r, ts !! t = Some r /\
        length r = length (np_unique_Z [1; 2; 2]) /\
        forall lab u, np_unique_Z [1; 2; 2] !! lab = Some u ->
          exists q,
            r !! lab = Some (Fin q) /\
            np_mean (select (label_mask [1; 2; 2] u) row) = Fin q.
Proof.
  split; [reflexivity|].
  apply (native_regions_average_by_label Sample.data_corr_ctx [1; 2; 2]).
  - reflexivity.
  - repeat constructor.
Defined.

(** ** The colour-table lookup *)

(** X13. The lookup [np.where(ctab[:,4] == label)[0][0]] returns the row
    of the first colour-table entry that carries the label: the entry at
    that row is the label and no earlier row is.  It raises [IndexError]
    exactly when no row of the table carries the label. *)
Theorem first_index_is_the_first_match (ids : list Z) (label : Z) :
  match first_index ids label 0 with
  | Ok z => exists i, z = Z.of_nat i /\ ids !! i = Some label /\
                      forall j, (j < i)%nat -> ids !! j <> Some label
  | Err e => e = IndexError /\ label ∉ ids
  end.
Proof.
  assert (H : forall i0,
             match first_index ids label i0 with
             | Ok z => exists i, z = Z.of_nat (i0 + i) /\ ids !! i = Some label /\
                                 forall j, (j < i)%nat -> ids !! j <> Some label
             | Err e => e = IndexError /\ label ∉ ids
             end).
  { induction ids as [|x ids IH]; intros i0; cbn [first_index].
    - split; [reflexivity|]. apply not_elem_of_nil.
    - destruct (Z.eqb_spec x label) as [->|Hne].
      + exists 0%nat. split; [f_equal; lia|]. split; [reflexivity|]. intros j Hj. lia.
      + specialize (IH (S i0)). destruct (first_index ids label (S i0)) as [z|e].
        * destruct IH as (i & -> & Hi & Hfirst). exists (S i).
          split; [f_equal; lia|]. split; [exact Hi|].
          intros [|j] Hj; cbn; [congruence|]. apply Hfirst. lia.
        * destruct IH as [-> Hnin]. split; [reflexivity|].
          apply not_elem_of_cons. split; [congruence | exact Hnin]. }
  exact (H 0%nat).
Qed.

Lemma first_index_found (ids : list Z) (label : Z) (i0 : nat) (z : Z) :
  first_index ids label i0 = Ok z -> label ∈ ids.
Proof.
  revert i0. induction ids as [|x ids IH]; intros i0; cbn [first_index]; [discriminate|].
  destruct (Z.eqb_spec x label) as [->|Hne].
  - intros _. apply elem_of_cons. left. reflexivity.
  - intros H. apply elem_of_cons. right. exact (IH _ H).
Qed.

Lemma first_index_error (ids : list Z) (label : Z) (i0 : nat) (e : exn) :
  first_index ids label i0 = Err e -> e = IndexError.
Proof.
  revert i0. induction ids as [|x ids IH]; intros i0; cbn [first_index].
  - intros [= <-]. reflexivity.
  - destruct (Z.eqb x label); [discriminate | apply IH].
Qed.

Lemma lookup_labels_fails (ids labels : list Z) :
  (exists l, l ∈ labels /\ l ∉ ids) ->
  mapM_result (fun l => first_index ids l 0) labels = Err IndexError.
Proof.
  induction labels as [|x labels IH]; intros (l & Hin & Hnin).
  - apply elem_of_nil in Hin. contradiction.
  - cbn [mapM_result]. unfold rbind.
    destruct (first_index ids x 0) as [z|e] eqn:E.
    + apply elem_of_cons in Hin as [->|Hin].
      * exfalso. apply Hnin. exact (first_index_found _ _ _ _ E).
      * rewrite IH by eauto. reflexivity.
    + apply first_index_error in E. subst e. reflexivity.
Qed.

Section ColourTable.

Variable read_annot : string -> result annot.
Variable np_corrcoef : list (list npfloat) -> list (list npfloat).
Variables subject funcDir labelDir : string.

(** X14. When the annotation of a parcellation matches the native surface
    in length but some left-hemisphere vertex carries a label that the
    colour table does not list, the iteration of the native loop raises
    [IndexError] before anything is printed or written: the parcellation
    is not skipped, the exception ends the loop. *)
Theorem label_outside_colour_table_aborts (dataNative_corr sctx_cereb_corr : matrix)
    (n_sctx : nat) (excl : list pylabel) (parcellation : string) (w : world)
    (lh rh : annot) (ids : list Z) (l : Z) :
  read_annot (os_path_join labelDir ("lh." +:+ parcellation +:+ "_mics.annot")) = Ok lh ->
  read_annot (os_path_join labelDir ("rh." +:+ parcellation +:+ "_mics.annot")) = Ok rh ->
  ncols dataNative_corr = (length (labels lh) + length (labels rh))%nat ->
  ctab_ids (ctab lh) = Ok ids ->
  l ∈ labels lh ->
  l ∉ ids ->
  native_iteration read_annot np_corrcoef subject funcDir labelDir
    dataNative_corr sctx_cereb_corr n_sctx excl parcellation w
  = (Raised IndexError, w).
Proof.
  intros Hlh Hrh Hlen Hids Hin Hnin. unfold native_iteration. cbv zeta.
  rewrite Hlh, bind_lift_ok, Hrh, bind_lift_ok, Hlen, Nat.eqb_refl. cbn [negb].
  destruct (labels lh) as [|x ls] eqn:El.
  { apply elem_of_nil in Hin. contradiction. }
  rewrite Hids, bind_lift_ok.
  rewrite lookup_labels_fails by eauto. reflexivity.
Qed.

End ColourTable.

Lemma label_outside_colour_table_aborts_witness :
  Runs.annots "/labels/lh.schaefer-100_mics.annot"
  = Ok {| labels := [5; 9]; ctab := [[0; 0; 0; 0; 5]] |} /\
  native_iteration Runs.annots Sample.np_corrcoef "sub-01" "/func" "/labels"
    Sample.dataNative_corr Sample.sctx_cereb_corr 1 [LNaN] "schaefer-100"
    initial_world
  = (Raised IndexError, initial_world).
Proof.
  split; [reflexivity|].
  apply (label_outside_colour_table_aborts Runs.annots Sample.np_corrcoef
           "sub-01" "/func" "/labels" Sample.dataNative_corr Sample.sctx_cereb_corr
           1 [LNaN] "schaefer-100" initial_world
           {| labels := [5; 9]; ctab := [[0; 0; 0; 0; 5]] |}
           {| labels := []; ctab := [[0; 0; 0; 0; 7]] |} [5] 9).
  - vm_compute. reflexivity.
  - vm_compute. reflexivity.
  - reflexivity.
  - reflexivity.
  - cbn [labels]. apply elem_of_cons. right. apply elem_of_cons. left. reflexivity.
  - intros H. apply list_elem_of_singleton in H. discriminate H.
Defined.

(** ** The two hemispheres of a native parcellation *)

Lemma mapM_result_length {A B} (f : A -> result B) (l : list A) (l' : list B) :
  mapM_result f l = Ok l' -> length l' = length l.
Proof.
  revert l'. induction l as [|x l IH]; intros l'; cbn [mapM_result].
  - intros [= <-]. reflexivity.
  - unfold rbind. destruct (f x); [|discriminate].
    destruct (mapM_result f l) as [ys|]; [|discriminate].
    intros [= <-]. cbn. rewrite (IH ys); reflexivity.
Qed.

Lemma mapM_result_elem {A B} (f : A -> result B) (l : list A) (l' : list B) (y : B) :
  mapM_result f l = Ok l' -> y ∈ l' -> exists x, x ∈ l /\ f x = Ok y.
Proof.
  revert l'. induction l as [|x l IH]; intros l'; cbn [mapM_result].
  - intros [= <-] Hy. apply elem_of_nil in Hy. contradiction.
  - unfold rbind. destruct (f x) as [y0|] eqn:E; [|discriminate].
    destruct (mapM_result f l) as [ys|]; [|discriminate].
    intros [= <-] Hy. apply elem_of_cons in Hy as [->|Hy].
    + exists x. split; [apply elem_of_cons; auto | exact E].
    + destruct (IH ys eq_refl Hy) as (x' & Hx' & Hfx').
      exists x'. split; [apply elem_of_cons; auto | exact Hfx'].
Qed.

Lemma first_index_range (ids : list Z) (label z : Z) :
  first_index ids label 0 = Ok z -> 0 <= z < Z.of_nat (length ids).
Proof.
  assert (H : forall i0, first_index ids label i0 = Ok z ->
                         Z.of_nat i0 <= z < Z.of_nat (i0 + length ids)).
  { induction ids as [|x ids IH]; intros i0; cbn [first_index]; [discriminate|].
    destruct (Z.eqb x label).
    - intros [= <-]. cbn [length]. lia.
    - intros Hz. apply IH in Hz. cbn [length]. lia. }
  intros Hz. apply H in Hz. lia.
Qed.

(** X15. In the native loop the region index of a left-hemisphere vertex
    is a row of the left colour table, and the index of a right-hemisphere
    vertex is shifted by the length of that table: every left index is
    below every right index, so no region of the parcellation mixes
    vertices of both hemispheres. *)
Theorem hemispheres_never_share_a_region (lh rh : annot)
    (ids_lh ids_rh parc_lh parc_rh : list Z) :
  match labels lh with [] => Ok [] | _ => ctab_ids (ctab lh) end = Ok ids_lh ->
  mapM_result (fun l => first_index ids_lh l 0) (labels lh) = Ok parc_lh ->
  mapM_result (fun l => i <-? first_index ids_rh l 0 ;;
                        Ok (i + Z.of_nat (length (ctab lh))))
    (labels rh) = Ok parc_rh ->
  forall a b, a ∈ parc_lh -> b ∈ parc_rh ->
    0 <= a < Z.of_nat (length (ctab lh)) /\ Z.of_nat (length (ctab lh)) <= b.
Proof.
  intros Hids Hlh Hrh a b Ha Hb.
  destruct (mapM_result_elem _ _ _ a Hlh Ha) as (l & Hl & Hfa).
  destruct (mapM_result_elem _ _ _ b Hrh Hb) as (l' & _ & Hfb).
  apply first_index_range in Hfa.
  assert (Hlen : length ids_lh = length (ctab lh)).
  { destruct (labels lh) as [|x xs]; [apply elem_of_nil in Hl; contradiction|].
    unfold ctab_ids in Hids. apply mapM_result_length in Hids. exact Hids. }
  unfold rbind in Hfb. destruct (first_index ids_rh l' 0) as [i|] eqn:E; [|discriminate].
  apply first_index_range in E. injection Hfb as <-. lia.
Qed.

Lemma hemispheres_never_share_a_region_witness :
  mapM_result (fun l => first_index [3; 5] l 0) (labels Runs.lh) = Ok [1; 0; 1] /\
  mapM_result (fun l => i <-? first_index [7] l 0 ;;
                        Ok (i + Z.of_nat (length (ctab Runs.lh))))
    (labels Runs.rh) = Ok [2; 2] /\
  forall a b, a ∈ [1; 0; 1] -> b ∈ [2; 2] ->
    0 <= a < Z.of_nat (length (ctab Runs.lh)) /\ Z.of_nat (length (ctab Runs.lh)) <= b.
Proof.
  split; [reflexivity|]. split; [reflexivity|].
  apply (hemispheres_never_share_a_region Runs.lh Runs.rh [3; 5] [7] [1; 0; 1] [2; 2]);
    reflexivity.
Defined.

(** ** The test for a single scan *)

Lemma prefix_char (c a : ascii) (s : string) :
  String.prefix (String c "") (String a s) = Ascii.eqb c a.
Proof.
  cbn [String.prefix]. destruct (ascii_dec c a) as [<-|Hne].
  - rewrite Ascii.eqb_refl. destruct s; reflexivity.
  - symmetry. apply Ascii.eqb_neq. exact Hne.
Qed.

Lemma split_go_space_length (s cur : string) :
  length (split_go " " 0 cur s) = S (count_char " " s).
Proof.
  revert cur. induction s as [|a s IH]; intros cur; [reflexivity|].
  cbn [split_go count_char]. rewrite prefix_char.
  destruct (Ascii.eqb " " a).
  - cbn [length String.length Nat.sub]. rewrite IH. reflexivity.
  - rewrite IH. reflexivity.
Qed.

Lemma count_char_append (c : ascii) (s t : string) :
  count_char c (s +:+ t) = (count_char c s + count_char c t)%nat.
Proof.
  induction s as [|a s IH]; [reflexivity|].
  change (String a s +:+ t) with (String a (s +:+ t)).
  cbn [count_char]. rewrite IH. lia.
Qed.

Lemma count_char_concat (files : list string) :
  count_char " " (String.concat " " files)
  = (foldr (fun f n => count_char " " f + n) 0 files + (length files - 1))%nat.
Proof.
  induction files as [|f [|g rest] IH]; [reflexivity| |].
  - cbn. lia.
  - change (String.concat " " (f :: g :: rest))
      with (f +:+ " " +:+ String.concat " " (g :: rest)).
    rewrite !count_char_append, IH. cbn. lia.
Qed.

Lemma no_blank_anywhere (files : list string) :
  foldr (fun f n => count_char " " f + n)%nat O files = O
  <-> Forall (fun f => count_char " " f = O) files.
Proof.
  induction files as [|f files IH]; cbn [foldr].
  - split; [constructor | reflexivity].
  - rewrite Forall_cons, <- IH. lia.
Qed.

(** X16. The test [len(x_lh.split(" ")) == 1] on the joined result of
    [glob] passes exactly when [glob] found at most one file and no file
    name holds a blank.  It passes when no file was found, and it fails
    for a single scan whose path holds a blank. *)
Theorem one_scan_test_passes_iff (files : list string) :
  Nat.eqb (length (str_split " " (String.concat " " files))) 1 = true
  <-> (length files <= 1)%nat /\ Forall (fun f => count_char " " f = O) files.
Proof.
  unfold str_split.
  rewrite split_go_space_length, count_char_concat, Nat.eqb_eq, <- no_blank_anywhere.
  lia.
Qed.

(** ** The preconditions of the script *)

Section Preconditions.

Variable os_listdir : string -> result (list string).
Variable glob : string -> list string.
Variable nib_load_fdata : string -> result matrix.
Variable np_loadtxt : string -> result ndarray.
Variable read_text : string -> result string.
Variable py_float : string -> result Qc.
Variable read_annot : string -> result annot.
Variable fit : matrix -> matrix -> result matrix.
Variable np_corrcoef : list (list npfloat) -> list (list npfloat).
Variable additional_QC : Script unit.
Variables subject funcDir labelDir parcDir volmDir : string.
Variables performNSR performGSR func_lab noFC : string.

(** X17. When the surfaces directory exists and is empty, the script
    prints the six lines of its farewell and exits, whatever the other
    inputs hold; it writes no file. *)
Theorem empty_surfaces_directory_exits (w : world) :
  os_listdir (funcDir +:+ "/surfaces/") = Ok [] ->
  main os_listdir glob nib_load_fdata np_loadtxt read_text py_float read_annot
    fit np_corrcoef additional_QC subject funcDir labelDir parcDir volmDir
    performNSR performGSR func_lab noFC w
  = (Exited,
     {| stdout := stdout w ++ [""; ":( sad face :( sad face :( sad face :(";
                               "No surface directory. Exiting. Bye-bye";
                               "Run the module -proc_freesurfer first!";
                               ":( sad face :( sad face :( sad face :("; ""];
        files := files w |}).
Proof.
  intros Hdir. unfold main. rewrite Hdir, bind_lift_ok.
  unfold no_surfaces_banner. unfold bind, print, exit. cbn [stdout files].
  rewrite <- !app_assoc. reflexivity.
Qed.

(** X18. When the surfaces directory cannot be listed (it does not exist),
    the script ends on the exception of [os.listdir]: the message
    "No surface directory" is not printed, nothing is. *)
Theorem absent_surfaces_directory_raises (e : exn) (w : world) :
  os_listdir (funcDir +:+ "/surfaces/") = Err e ->
  main os_listdir glob nib_load_fdata np_loadtxt read_text py_float read_annot
    fit np_corrcoef additional_QC subject funcDir labelDir parcDir volmDir
    performNSR performGSR func_lab noFC w
  = (Raised e, w).
Proof.
  intros Hdir. unfold main. rewrite Hdir. reflexivity.
Qed.

(** X19. The left surface timeseries are loaded from the joined [glob]
    result before the number of scans is tested.  When that load fails (no
    file is named by the joined string, as with no scan or with several)
    the script ends on its exception right after the opening banner: the
    line "more than one scan found" is not printed. *)
Theorem unreadable_scan_raises_before_the_scan_test (e : exn) (f : string)
    (fs : list string) (w : world) :
  os_listdir (funcDir +:+ "/surfaces/") = Ok (f :: fs) ->
  nib_load_fdata
    (String.concat " "
       (glob (funcDir +:+ "/surfaces/" +:+ "*space-conte69-32k_lh_10mm*")))
  = Err e ->
  main os_listdir glob nib_load_fdata np_loadtxt read_text py_float read_annot
    fit np_corrcoef additional_QC subject funcDir labelDir parcDir volmDir
    performNSR performGSR func_lab noFC w
  = (Raised e,
     {| stdout := stdout w
          ++ [""; "-+-+-+-+-+-+-+-+-+-+-+-+-+-+-+-+-+-+-+-+-+-+-+-+-+-+-";
              "surfaces directory found; lets get the party started!";
              "-+-+-+-+-+-+-+-+-+-+-+-+-+-+-+-+-+-+-+-+-+-+-+-+-+-+-"; ""];
        files := files w |}).
Proof.
  intros Hdir Hload. unfold main. rewrite Hdir, bind_lift_ok.
  cbv zeta. unfold surfaces_found_banner.
  unfold bind at 1. repeat run_print. unfold print at 1. cbv beta iota.
  unfold bind at 1. rewrite Hload. cbn [lift raise stdout files].
  rewrite <- !app_assoc. reflexivity.
Qed.

(** X20. What the subcortical block does depends on the dimension of the
    loaded array alone: a 0-d array (a file holding one number) prints the
    "file is empty" line and exits; a 1-D array (an empty file, one row or
    one column) raises [IndexError] without printing; a 2-D array is
    returned with its number of columns. *)
Theorem subcortical_array_decides (sctx : ndarray) (w : world) :
  np_loadtxt (sctx_path funcDir subject func_lab) = Ok sctx ->
  load_subcortex np_loadtxt subject funcDir func_lab w
  = match sctx with
    | Arr0 _ =>
        (Exited,
         {| stdout := stdout w
              ++ ["Uh oh, your subcortical timeseries file is empty; exiting. Bye-bye"];
            files := files w |})
    | Arr1 _ => (Raised IndexError, w)
    | Arr2 c _ => (Ret (sctx, c), w)
    end.
Proof.
  intros Hload. unfold load_subcortex. rewrite Hload, bind_lift_ok.
  destruct sctx; reflexivity.
Qed.

End Preconditions.

Lemma empty_surfaces_directory_exits_witness :
  main Runs.listdir_empty Sample.glob Sample.nib_load_fdata Sample.loadtxt_empty
    Sample.read_text Sample.py_float Sample.read_annot Sample.no_fit
    Sample.np_corrcoef Sample.additional_QC
    "sub-01" "/data/func" "/labels" "/parc" "/volm" "0" "0" "" "FALSE"
    initial_world
  = (Exited,
     {| stdout := stdout initial_world
          ++ [""; ":( sad face :( sad face :( sad face :(";
              "No surface directory. Exiting. Bye-bye";
              "Run the module -proc_freesurfer first!";
              ":( sad face :( sad face :( sad face :("; ""];
        files := files initial_world |}).
Proof.
  apply (empty_surfaces_directory_exits Runs.listdir_empty Sample.glob
           Sample.nib_load_fdata Sample.loadtxt_empty Sample.read_text
           Sample.py_float Sample.read_annot Sample.no_fit Sample.np_corrcoef
           Sample.additional_QC "sub-01" "/data/func" "/labels" "/parc" "/volm"
           "0" "0" "" "FALSE" initial_world).
  reflexivity.
Defined.

Lemma absent_surfaces_directory_raises_witness :
  main Runs.listdir_absent Sample.glob Sample.nib_load_fdata Sample.loadtxt_empty
    Sample.read_text Sample.py_float Sample.read_annot Sample.no_fit
    Sample.np_corrcoef Sample.additional_QC
    "sub-01" "/data/func" "/labels" "/parc" "/volm" "0" "0" "" "FALSE"
    initial_world
  = (Raised OSError, initial_world).
Proof.
  apply (absent_surfaces_directory_raises Runs.listdir_absent Sample.glob
           Sample.nib_load_fdata Sample.loadtxt_empty Sample.read_text
           Sample.py_float Sample.read_annot Sample.no_fit Sample.np_corrcoef
           Sample.additional_QC "sub-01" "/data/func" "/labels" "/parc" "/volm"
           "0" "0" "" "FALSE" OSError initial_world).
  reflexivity.
Defined.

Lemma unreadable_scan_raises_before_the_scan_test_witness :
  main Sample.os_listdir Sample.glob Runs.nib_unreadable Sample.loadtxt_empty
    Sample.read_text Sample.py_float Sample.read_annot Sample.no_fit
    Sample.np_corrcoef Sample.additional_QC
    "sub-01" "/data/func" "/labels" "/parc" "/volm" "0" "0" "" "FALSE"
    initial_world
  = (Raised OSError,
     {| stdout := stdout initial_world
          ++ [""; "-+-+-+-+-+-+-+-+-+-+-+-+-+-+-+-+-+-+-+-+-+-+-+-+-+-+-";
              "surfaces directory found; lets get the party started!";
              "-+-+-+-+-+-+-+-+-+-+-+-+-+-+-+-+-+-+-+-+-+-+-+-+-+-+-"; ""];
        files := files initial_world |}).
Proof.
  apply (unreadable_scan_raises_before_the_scan_test Sample.os_listdir Sample.glob
           Runs.nib_unreadable Sample.loadtxt_empty Sample.read_text
           Sample.py_float Sample.read_annot Sample.no_fit Sample.np_corrcoef
           Sample.additional_QC "sub-01" "/data/func" "/labels" "/parc" "/volm"
           "0" "0" "" "FALSE" OSError
           "sub-01_func_space-conte69-32k_lh_10mm.mgh" [] initial_world).
  - reflexivity.
  - reflexivity.
Defined.

Lemma subcortical_array_decides_witness :
  load_subcortex Runs.loadtxt_scalar "sub-01" "/data/func" "" initial_world
  = (Exited,
     {| stdout := stdout initial_world
          ++ ["Uh oh, your subcortical timeseries file is empty; exiting. Bye-bye"];
        files := files initial_world |}).
Proof.
  apply (subcortical_array_decides Runs.loadtxt_scalar "sub-01" "/data/func" ""
           (Arr0 (of_Z 5)) initial_world).
  reflexivity.
Defined.

(** ** The labels read from the ROI statistics file *)

Lemma append_assoc_char (cur : string) (a : ascii) (f : string) :
  (cur +:+ String a "") +:+ f = cur +:+ String a f.
Proof.
  induction cur as [|x cur IH]; [reflexivity|].
  change (String x ((cur +:+ String a "") +:+ f) = String x (cur +:+ String a f)).
  f_equal. exact IH.
Qed.

Lemma append_empty_r (s : string) : s +:+ "" = s.
Proof.
  induction s as [|x s IH]; [reflexivity|].
  change (String x (s +:+ "") = String x s). f_equal. exact IH.
Qed.

Lemma split_go_last (c : ascii) (f cur : string) :
  lacks c f -> split_go (String c "") 0 cur f = [cur +:+ f].
Proof.
  revert cur. induction f as [|a f IH]; intros cur Hf.
  - cbn. rewrite append_empty_r. reflexivity.
  - destruct Hf as [Ha Hf]. cbn [split_go]. rewrite prefix_char.
    replace (Ascii.eqb c a) with false by (symmetry; apply Ascii.eqb_neq; congruence).
    rewrite (IH _ Hf), append_assoc_char. reflexivity.
Qed.

Lemma split_go_field (c : ascii) (f cur rest : string) :
  lacks c f ->
  split_go (String c "") 0 cur (f +:+ String c rest)
  = (cur +:+ f) :: split_go (String c "") 0 "" rest.
Proof.
  revert cur. induction f as [|a f IH]; intros cur Hf.
  - change ("" +:+ String c rest) with (String c rest).
    cbn [split_go]. rewrite prefix_char, Ascii.eqb_refl, append_empty_r. reflexivity.
  - destruct Hf as [Ha Hf].
    change (String a f +:+ String c rest) with (String a (f +:+ String c rest)).
    cbn [split_go]. rewrite prefix_char.
    replace (Ascii.eqb c a) with false by (symmetry; apply Ascii.eqb_neq; congruence).
    rewrite (IH _ Hf), append_assoc_char. reflexivity.
Qed.

(** Splitting on a character undoes joining with it. *)
Lemma str_split_concat (c : ascii) (fields : list string) :
  fields <> [] ->
  Forall (lacks c) fields ->
  str_split (String c "") (String.concat (String c "") fields) = fields.
Proof.
  intros Hne Hf. unfold str_split.
  induction Hf as [|f [|g rest] Hf _ IH]; [contradiction| |].
  - cbn [String.concat]. apply (split_go_last c f "" Hf).
  - change (String.concat (String c "") (f :: g :: rest))
      with (f +:+ String c (String.concat (String c "") (g :: rest))).
    rewrite (split_go_field c f "" _ Hf). cbn [String.append].
    rewrite IH by discriminate. reflexivity.
Qed.

Lemma str_from_append (header body : string) :
  str_from (String.length header) (header +:+ body) = body.
Proof.
  induction header as [|a h IH]; [destruct body; reflexivity|]. exact IH.
Qed.

Section StatsFile.

Variable np_loadtxt : string -> result ndarray.
Variable read_text : string -> result string.
Variable py_float : string -> result Qc.
Variables subject funcDir func_lab : string.

(** X21. The cerebellar labels are every other tab-separated field of the
    ROI statistics file, counted from the twelfth character after the
    start of the first "nii.gz": when the text from there on is the join
    of [fields] with tabs, the reconciliation runs on the fields 0, 2,
    4, ... and the fields in between (the regional means) are never
    looked at. *)
Theorem roi_labels_are_every_other_field (cereb_tmp : ndarray)
    (header : string) (fields : list string) (w : world) :
  np_loadtxt (funcDir +:+ "/volumetric/" +:+ subject +:+ func_lab
                +:+ "_timeseries_cerebellum.txt") = Ok cereb_tmp ->
  read_text (funcDir +:+ "/volumetric/" +:+ subject +:+ func_lab
               +:+ "_cerebellum_roi_stats.txt")
  = Ok (header +:+ String.concat (String tab "") fields) ->
  str_find "nii.gz" (header +:+ String.concat (String tab "") fields) + 12
  = Z.of_nat (String.length header) ->
  fields <> [] ->
  Forall (lacks tab) fields ->
  load_cerebellum np_loadtxt read_text py_float subject funcDir func_lab w
  = reconcile_cerebellum py_float cereb_tmp (evens fields) w.
Proof.
  intros Hload Hread Hfind Hne Hfields. unfold load_cerebellum.
  rewrite Hload, bind_lift_ok, Hread, bind_lift_ok. cbv zeta.
  change (Z.of_nat (String.length "nii.gz")) with 6.
  replace (str_find "nii.gz" (header +:+ String.concat (String tab "") fields) + 6 + 6)
    with (Z.of_nat (String.length header)) by lia.
  rewrite Nat2Z.id, str_from_append.
  change (String (ascii_of_nat 9) "") with (String tab "").
  rewrite (str_split_concat tab fields Hne Hfields). reflexivity.
Qed.

End StatsFile.

Lemma roi_labels_are_every_other_field_witness :
  str_find "nii.gz" (Runs.stats_header +:+ String.concat (String tab "") Runs.stats_fields)
  = 18 /\
  String.length Runs.stats_header = 30%nat /\
  evens Runs.stats_fields = Sample.roiLabels /\
  load_cerebellum Runs.loadtxt_cereb Runs.read_stats Sample.py_float
    "sub-01" "/data/func" "" initial_world
  = reconcile_cerebellum Sample.py_float Sample.cereb_tmp (evens Runs.stats_fields)
      initial_world.
Proof.
  split; [vm_compute; reflexivity|]. split; [reflexivity|]. split; [reflexivity|].
  apply (roi_labels_are_every_other_field Runs.loadtxt_cereb Runs.read_stats
           Sample.py_float "sub-01" "/data/func" "" Sample.cereb_tmp
           Runs.stats_header Runs.stats_fields initial_world).
  - reflexivity.
  - reflexivity.
  - vm_compute. reflexivity.
  - discriminate.
  - repeat constructor; discriminate.
Defined.

(** ** The slices of the cleaned timeseries *)

(** X22. The two slices a conte69 iteration takes of the cleaned
    timeseries, the first [n] columns and the last [v] columns, split every
    row into two parts without overlap or gap, whenever the rows have
    [n + v] entries and there is at least one cortical vertex. *)
Theorem slices_partition_the_columns {A} (n v : nat) (m : list (list A)) :
  Forall (fun r => length r = (n + v)%nat) m ->
  (0 < v)%nat ->
  zip_with app (first_cols n m) (last_cols v m) = m.
Proof.
  intros Hm Hv. unfold first_cols, last_cols.
  induction Hm as [|r m Hr _ IH]; [reflexivity|].
  cbn [map zip_with]. rewrite IH. f_equal.
  destruct (Nat.eqb_spec v 0); [lia|].
  replace (length r - v)%nat with n by lia. apply take_drop.
Qed.

Lemma slices_partition_the_columns_witness :
  ncols Sample.data_corr = 37%nat /\
  zip_with app (first_cols 35 Sample.data_corr) (last_cols 2 Sample.data_corr)
  = Sample.data_corr.
Proof.
  split; [reflexivity|].
  apply (slices_partition_the_columns 35 2 Sample.data_corr).
  - repeat constructor.
  - lia.
Defined.

(** ** A parcellation file that cannot be read *)

Lemma for_each_app {A} (l1 l2 : list A) (body : A -> Script unit) (w w1 : world) :
  for_each l1 body w = (Ret tt, w1) ->
  for_each (l1 ++ l2) body w = for_each l2 body w1.
Proof.
  revert w. induction l1 as [|x l1 IH]; intros w; cbn [for_each app].
  - intros [= <-]. reflexivity.
  - unfold bind. destruct (body x w) as [[[]| |e] w0]; [|discriminate|discriminate].
    apply IH.
Qed.

Section UnreadableParcellation.

Variable np_loadtxt : string -> result ndarray.
Variable np_corrcoef : list (list npfloat) -> list (list npfloat).
Variables subject funcDir parcDir noFC : string.

(** X23. A conte69 parcellation whose csv file cannot be loaded is not
    skipped: when the loop has gone through the parcellations before it,
    the exception of [np.loadtxt] ends the loop there.  The world is the
    one those earlier parcellations left (their matrices stay on disk),
    and no parcellation after the failing one is processed. *)
Theorem unreadable_parcellation_ends_the_conte_loop
    (data_corr : matrix) (n_vertex n n_sctx : nat) (excl : list pylabel)
    (done_ rest : list string) (p : string) (e : exn) (w w1 : world) :
  noFC <> "TRUE" ->
  p <> "aparc-a2009s_conte69" ->
  np_loadtxt (os_path_join parcDir p +:+ ".csv") = Err e ->
  conte_connectomes np_loadtxt np_corrcoef subject funcDir parcDir noFC
    data_corr n_vertex n n_sctx excl done_ w = (Ret tt, w1) ->
  conte_connectomes np_loadtxt np_corrcoef subject funcDir parcDir noFC
    data_corr n_vertex n n_sctx excl (done_ ++ p :: rest) w = (Raised e, w1).
Proof.
  intros HnoFC Hp Hload. unfold conte_connectomes.
  apply String.eqb_neq in HnoFC. rewrite HnoFC. cbn [negb].
  intros Hdone. rewrite (for_each_app _ _ _ _ _ Hdone).
  cbn [for_each]. unfold bind at 1, conte_iteration. cbv zeta.
  apply String.eqb_neq in Hp. rewrite Hp, Hload. reflexivity.
Qed.

End UnreadableParcellation.

Lemma unreadable_parcellation_ends_the_conte_loop_witness :
  Sample.parc_loadtxt (os_path_join "/parc" "glasser-360_conte69" +:+ ".csv")
  = Err OSError /\
  is_Some (files (snd (conte_connectomes Sample.parc_loadtxt Sample.np_corrcoef
                         "sub-01" "/func" "/parc" "FALSE" Sample.data_corr 2 35 1
                         [LNaN] Runs.done_ initial_world))
             !! conte_fc_name "/func" "sub-01" "schaefer-100_conte69") /\
  conte_connectomes Sample.parc_loadtxt Sample.np_corrcoef "sub-01" "/func" "/parc"
    "FALSE" Sample.data_corr 2 35 1 [LNaN]
    (Runs.done_ ++ "glasser-360_conte69" :: Runs.rest) initial_world
  = (Raised OSError,
     snd (conte_connectomes Sample.parc_loadtxt Sample.np_corrcoef
            "sub-01" "/func" "/parc" "FALSE" Sample.data_corr 2 35 1
            [LNaN] Runs.done_ initial_world)).
Proof.
  split; [vm_compute; reflexivity|].
  split; [vm_compute; eexists; reflexivity|].
  apply (unreadable_parcellation_ends_the_conte_loop Sample.parc_loadtxt
           Sample.np_corrcoef "sub-01" "/func" "/parc" "FALSE"
           Sample.data_corr 2 35 1 [LNaN] Runs.done_ Runs.rest
           "glasser-360_conte69" OSError initial_world).
  - discriminate.
  - discriminate.
  - vm_compute. reflexivity.
  - apply injective_projections; [vm_compute; reflexivity | reflexivity].
Defined.

(** * What a run leaves on disk *)

(** ** File names *)

Lemma string_app_inv_head (s a b : string) : s +:+ a = s +:+ b -> a = b.
Proof.
  induction s as [|c s IH]; [intros H; exact H|].
  change (String c (s +:+ a) = String c (s +:+ b) -> a = b).
  intros [= H]. exact (IH H).
Qed.

Lemma list_ascii_of_string_app (a b : string) :
  list_ascii_of_string (a +:+ b) = list_ascii_of_string a ++ list_ascii_of_string b.
Proof.
  induction a as [|c a IH]; [reflexivity|].
  change (c :: list_ascii_of_string (a +:+ b)
          = c :: (list_ascii_of_string a ++ list_ascii_of_string b)).
  f_equal. exact IH.
Qed.

Lemma fc_is_no_timeseries (p q : string) :
  p +:+ "_desc-FC.txt" <> q +:+ "_desc-timeseries.txt".
Proof.
  intros H. apply (f_equal list_ascii_of_string) in H.
  rewrite !list_ascii_of_string_app in H.
  apply (f_equal (@rev ascii)) in H. rewrite !rev_app_distr in H.
  cbn in H. discriminate H.
Qed.

Lemma clean_name_is_no_fc_file (funcDir subject : string) :
  ~ fc_file funcDir subject (clean_name funcDir subject).
Proof.
  intros [p [H|H]]; unfold clean_name, conte_fc_name, native_fc_name in H;
    apply string_app_inv_head in H;
    apply (string_app_inv_head "/surfaces/") in H;
    apply string_app_inv_head in H; cbn in H; discriminate H.
Qed.

Lemma native_ts_name_is_no_fc_file (funcDir subject q : string) :
  ~ fc_file funcDir subject (native_ts_name funcDir subject q).
Proof.
  intros [p [H|H]]; unfold native_ts_name, conte_fc_name, native_fc_name in H;
    apply string_app_inv_head in H;
    apply (string_app_inv_head "/surfaces/") in H;
    apply string_app_inv_head in H.
  - cbn in H. discriminate H.
  - apply (string_app_inv_head "_func_space-fsnative_atlas-") in H.
    symmetry in H. exact (fc_is_no_timeseries _ _ H).
Qed.

(** ** Guarded files *)

Lemma keeps_files_exit {A} : keeps_files (@exit A).
Proof. intros w o w' [= _ <-]. reflexivity. Qed.

Lemma keeps_files_raise {A} (e : exn) : keeps_files (@raise A e).
Proof. intros w o w' [= _ <-]. reflexivity. Qed.

Lemma guards_keeps {A} (P : string -> Prop) (G : saved -> Prop) (m : Script A) :
  keeps_files m -> guards P G m.
Proof.
  intros Hm w o w' f s Hrun _ Hs. left. rewrite <- (Hm w o w' Hrun). exact Hs.
Qed.

Lemma guards_bind {A B} (P : string -> Prop) (G : saved -> Prop)
    (m : Script A) (k : A -> Script B) :
  guards P G m ->
  (forall a wa wb, m wa = (Ret a, wb) -> guards P G (k a)) ->
  guards P G (bind m k).
Proof.
  intros Hm Hk w o w' f s. unfold bind.
  destruct (m w) as [[a| |e] w1] eqn:E.
  - intros Hrun Hf Hs.
    destruct (Hk a w w1 E w1 o w' f s Hrun Hf Hs) as [Hs1|HG]; [|right; exact HG].
    exact (Hm w _ w1 f s E Hf Hs1).
  - intros [= <- <-]. exact (Hm w _ w1 f s E).
  - intros [= <- <-]. exact (Hm w _ w1 f s E).
Qed.

Lemma guards_savetxt (P : string -> Prop) (G : saved -> Prop)
    (fname : string) (X : list (list npfloat)) (f : string) :
  (P fname -> G {| fmt := f; content := X |}) ->
  guards P G (np_savetxt fname X f).
Proof.
  intros HG w o w' f' s [= _ <-] Hf. cbn [files].
  destruct (decide (f' = fname)) as [->|Hne].
  - rewrite lookup_insert_eq. intros [= <-]. right. exact (HG Hf).
  - rewrite lookup_insert_ne by congruence. intros Hs. left. exact Hs.
Qed.

Lemma guards_for_each {A} (P : string -> Prop) (G : saved -> Prop)
    (l : list A) (body : A -> Script unit) :
  (forall x, guards P G (body x)) -> guards P G (for_each l body).
Proof.
  intros Hbody. induction l as [|x l IH]; cbn [for_each].
  - apply guards_keeps, keeps_files_ret.
  - apply guards_bind; [apply Hbody | intros _ _ _ _; exact IH].
Qed.

Lemma lift_ret_inv {A} (r : result A) (a : A) (wa wb : world) :
  lift r wa = (Ret a, wb) -> r = Ok a.
Proof. destruct r; cbn; [intros [= -> _]; reflexivity | discriminate]. Qed.

Lemma keeps_files_surfaces_found_banner : keeps_files surfaces_found_banner.
Proof.
  unfold surfaces_found_banner.
  repeat first [apply keeps_files_print | apply keeps_files_bind; [|intros ?]].
Qed.

Lemma keeps_files_no_surfaces_banner : keeps_files no_surfaces_banner.
Proof.
  unfold no_surfaces_banner.
  repeat first [apply keeps_files_print | apply keeps_files_bind; [|intros ?]].
Qed.

Lemma keeps_files_one_scan_banner : keeps_files one_scan_banner.
Proof.
  unfold one_scan_banner.
  repeat first [apply keeps_files_print | apply keeps_files_bind; [|intros ?]].
Qed.

Lemma keeps_files_no_FC_notice : keeps_files no_FC_notice.
Proof.
  unfold no_FC_notice.
  repeat first [apply keeps_files_print | apply keeps_files_bind; [|intros ?]].
Qed.

Section GuardedRun.

Variable os_listdir : string -> result (list string).
Variable glob : string -> list string.
Variable nib_load_fdata : string -> result matrix.
Variable np_loadtxt : string -> result ndarray.
Variable read_text : string -> result string.
Variable py_float : string -> result Qc.
Variable read_annot : string -> result annot.
Variable fit : matrix -> matrix -> result matrix.
Variable np_corrcoef : list (list npfloat) -> list (list npfloat).
Variable additional_QC : Script unit.
Variables subject funcDir labelDir parcDir volmDir : string.
Variables performNSR performGSR func_lab noFC : string.

Lemma keeps_files_load_subcortex :
  keeps_files (load_subcortex np_loadtxt subject funcDir func_lab).
Proof.
  unfold load_subcortex.
  apply keeps_files_bind; [apply keeps_files_lift | intros sctx].
  destruct (shape sctx).
  - apply keeps_files_bind; [apply keeps_files_print | intros _; apply keeps_files_exit].
  - apply keeps_files_bind; [apply keeps_files_lift | intros n_sctx; apply keeps_files_ret].
Qed.

Lemma keeps_files_reconcile_cerebellum (cereb_tmp : ndarray) (roiLabels : list string) :
  keeps_files (reconcile_cerebellum py_float cereb_tmp roiLabels).
Proof.
  unfold reconcile_cerebellum. cbv zeta.
  repeat first
    [ apply keeps_files_ret
    | apply keeps_files_lift
    | apply keeps_files_print
    | apply keeps_files_if
    | apply keeps_files_bind; [|intros ?] ].
Qed.

Lemma keeps_files_load_cerebellum :
  keeps_files (load_cerebellum np_loadtxt read_text py_float subject funcDir func_lab).
Proof.
  unfold load_cerebellum. cbv zeta.
  apply keeps_files_bind; [apply keeps_files_lift | intros cereb_tmp].
  apply keeps_files_bind; [apply keeps_files_lift | intros cerebLabels].
  apply keeps_files_reconcile_cerebellum.
Qed.

Lemma keeps_files_regress (x_spike : string) (Data : matrix) (Data_name : string) :
  keeps_files (regress glob np_loadtxt fit funcDir performNSR performGSR func_lab
                 x_spike Data Data_name).
Proof. unfold regress. cbv zeta. apply get_regressed_data_keeps_files. Qed.

Section Loops.

Variables (sctx : ndarray) (n_sctx : nat) (cereb : cereb_array) (excl : list pylabel).
Variables wa wb wc wd : world.
Hypothesis subcortex :
  load_subcortex np_loadtxt subject funcDir func_lab wa = (Ret (sctx, n_sctx), wb).
Hypothesis cerebellum :
  load_cerebellum np_loadtxt read_text py_float subject funcDir func_lab wc
  = (Ret (cereb, excl), wd).

Lemma guards_save_connectome (ts : list (list npfloat)) (fname : string) :
  guards (fc_file funcDir subject)
    (connectome_of_run np_loadtxt read_text py_float np_corrcoef subject funcDir
       func_lab) (save_connectome np_corrcoef excl n_sctx ts fname).
Proof.
  unfold save_connectome. cbv zeta.
  apply guards_bind; [apply guards_keeps, keeps_files_lift|].
  intros m w1 w2 Hmask. apply lift_ret_inv in Hmask.
  apply guards_savetxt. intros _.
  exists sctx, n_sctx, cereb, excl, wa, wb, wc, wd, ts.
  split; [exact subcortex|]. split; [exact cerebellum|].
  split; [exact Hmask | reflexivity].
Qed.

Lemma guards_conte_iteration (data_corr : matrix) (n_vertex n : nat) (p : string) :
  guards (fc_file funcDir subject)
    (connectome_of_run np_loadtxt read_text py_float np_corrcoef subject funcDir
       func_lab) (conte_iteration np_loadtxt np_corrcoef subject funcDir parcDir
                data_corr n_vertex n n_sctx excl p).
Proof.
  unfold conte_iteration. cbv zeta.
  destruct (String.eqb p "aparc-a2009s_conte69").
  - apply guards_keeps, keeps_files_print.
  - do 4 (apply guards_bind; [apply guards_keeps, keeps_files_lift | intros ? ? ? _]).
    apply guards_save_connectome.
Qed.

Lemma guards_native_iteration (dataNative_corr sctx_cereb_corr : matrix) (p : string) :
  guards (fc_file funcDir subject)
    (connectome_of_run np_loadtxt read_text py_float np_corrcoef subject funcDir
       func_lab) (native_iteration read_annot np_corrcoef subject funcDir labelDir
                dataNative_corr sctx_cereb_corr n_sctx excl p).
Proof.
  unfold native_iteration. cbv zeta.
  apply guards_bind; [apply guards_keeps, keeps_files_lift | intros lh ? ? _].
  apply guards_bind; [apply guards_keeps, keeps_files_lift | intros rh ? ? _].
  destruct (negb _).
  - apply guards_keeps, keeps_files_print.
  - do 6 (apply guards_bind; [apply guards_keeps, keeps_files_lift | intros ? ? ? _]).
    apply guards_bind; [|intros _ _ _ _; apply guards_save_connectome].
    apply guards_savetxt. intros Hfc. exfalso.
    exact (native_ts_name_is_no_fc_file funcDir subject p Hfc).
Qed.

Lemma guards_conte_connectomes (data_corr : matrix) (n_vertex n : nat)
    (l : list string) :
  guards (fc_file funcDir subject)
    (connectome_of_run np_loadtxt read_text py_float np_corrcoef subject funcDir
       func_lab) (conte_connectomes np_loadtxt np_corrcoef subject funcDir parcDir noFC
                data_corr n_vertex n n_sctx excl l).
Proof.
  unfold conte_connectomes. destruct (negb _).
  - apply guards_for_each. intros p. apply guards_conte_iteration.
  - apply guards_keeps, keeps_files_no_FC_notice.
Qed.

Lemma guards_native_connectomes (dataNative_corr sctx_cereb_corr : matrix)
    (l : list string) :
  guards (fc_file funcDir subject)
    (connectome_of_run np_loadtxt read_text py_float np_corrcoef subject funcDir
       func_lab) (native_connectomes read_annot np_corrcoef subject funcDir labelDir noFC
                dataNative_corr sctx_cereb_corr n_sctx excl l).
Proof.
  unfold native_connectomes. destruct (negb _).
  - apply guards_for_each. intros p. apply guards_native_iteration.
  - apply guards_keeps, keeps_files_no_FC_notice.
Qed.

End Loops.

Hypothesis QC_spares : spares_connectomes funcDir subject additional_QC.

Lemma guards_additional_QC : guards (fc_file funcDir subject)
    (connectome_of_run np_loadtxt read_text py_float np_corrcoef subject funcDir
       func_lab) additional_QC.
Proof.
  intros w o w' f s Hrun Hf Hs. left.
  rewrite <- (QC_spares w o w' f Hrun Hf). exact Hs.
Qed.

(** Whatever the script does, a connectivity matrix on disk is either
    the file that was there before the run or one that the masking block
    has saved. *)
Lemma guards_main :
  guards (fc_file funcDir subject)
    (connectome_of_run np_loadtxt read_text py_float np_corrcoef subject funcDir
       func_lab)
    (main os_listdir glob nib_load_fdata np_loadtxt read_text py_float read_annot
       fit np_corrcoef additional_QC subject funcDir labelDir parcDir volmDir
       performNSR performGSR func_lab noFC).
Proof.
  unfold main. cbv zeta.
  apply guards_bind; [apply guards_keeps, keeps_files_lift | intros listing ? ? _].
  apply guards_bind.
  { apply guards_keeps. destruct listing as [|f fs].
    - apply keeps_files_bind; [apply keeps_files_no_surfaces_banner|].
      intros _. apply keeps_files_exit.
    - apply keeps_files_surfaces_found_banner. }
  intros _ _ _ _.
  apply guards_bind; [apply guards_keeps, keeps_files_lift | intros lh_data ? ? _].
  apply guards_bind; [apply guards_keeps, keeps_files_lift | intros rh_data ? ? _].
  apply guards_bind.
  { apply guards_keeps, keeps_files_if; [apply keeps_files_one_scan_banner|].
    apply keeps_files_bind; [apply keeps_files_print | intros _; apply keeps_files_exit]. }
  intros _ _ _ _.
  apply guards_bind; [apply guards_keeps, keeps_files_lift | intros data ? ? _].
  apply guards_bind; [apply guards_keeps, keeps_files_load_subcortex|].
  intros [sctx n_sctx] w_a w_b Hsctx.
  apply guards_bind; [apply guards_keeps, keeps_files_load_cerebellum|].
  intros [cereb excl] w_c w_d Hcereb. cbn [fst snd].
  repeat (apply guards_bind; [apply guards_keeps, keeps_files_lift | intros ? ? ? _]).
  apply guards_bind; [apply guards_keeps, keeps_files_regress | intros data_corr ? ? _].
  apply guards_bind.
  { apply guards_savetxt. intros Hfc. exfalso.
    exact (clean_name_is_no_fc_file funcDir subject Hfc). }
  intros _ _ _ _.
  repeat (apply guards_bind; [apply guards_keeps, keeps_files_lift | intros ? ? ? _]).
  apply guards_bind.
  { exact (guards_conte_connectomes sctx n_sctx cereb excl w_a w_b w_c w_d Hsctx Hcereb
             _ _ _ _). }
  intros _ _ _ _.
  apply guards_bind; [apply guards_keeps, keeps_files_lift | intros ? ? ? _].
  apply guards_bind; [apply guards_keeps, keeps_files_regress | intros ? ? ? _].
  apply guards_bind; [apply guards_keeps, keeps_files_lift | intros ? ? ? _].
  apply guards_bind; [apply guards_keeps, keeps_files_regress | intros ? ? ? _].
  repeat (apply guards_bind; [apply guards_keeps, keeps_files_lift | intros ? ? ? _]).
  apply guards_bind; [apply guards_keeps, keeps_files_regress | intros ? ? ? _].
  apply guards_bind.
  { exact (guards_native_connectomes sctx n_sctx cereb excl w_a w_b w_c w_d Hsctx Hcereb
             _ _ _). }
  intros _ _ _ _. exact guards_additional_QC.
Qed.

End GuardedRun.

(** ** The connectivity matrices of a run *)

Section Persisted.

Variable os_listdir : string -> result (list string).
Variable glob : string -> list string.
Variable nib_load_fdata : string -> result matrix.
Variable np_loadtxt : string -> result ndarray.
Variable read_text : string -> result string.
Variable py_float : string -> result Qc.
Variable read_annot : string -> result annot.
Variable fit : matrix -> matrix -> result matrix.
Variable np_corrcoef : list (list npfloat) -> list (list npfloat).
Variable additional_QC : Script unit.
Variables subject funcDir labelDir parcDir volmDir : string.
Variables performNSR performGSR func_lab noFC : string.

Lemma load_cerebellum_inv (cereb : cereb_array) (excl : list pylabel) (wc wd : world) :
  load_cerebellum np_loadtxt read_text py_float subject funcDir func_lab wc
  = (Ret (cereb, excl), wd) ->
  exists cereb_tmp roiLabels,
    reconcile_cerebellum py_float cereb_tmp roiLabels wc = (Ret (cereb, excl), wd).
Proof.
  unfold load_cerebellum. cbv zeta. unfold bind at 1.
  destruct (np_loadtxt _) as [cereb_tmp|]; [|discriminate]. cbn [lift ret].
  unfold bind at 1. destruct (read_text _) as [cerebLabels|]; [|discriminate].
  cbn [lift ret]. intros H. eauto.
Qed.

(** C7. Every file that a run of the script leaves under the name of a
    functional-connectivity matrix, in conte69 or in native space and for
    any parcellation, is either the file that was there before the run,
    untouched, or a matrix saved by the masking block of one of the two
    loops.  In that matrix, for every region [i] of the missing set that
    the cerebellar block of the run has computed, the row and the column
    [i + n_sctx] exist and are zero throughout, [n_sctx] being the number
    of subcortical columns that the subcortical block has read.  This
    holds however the run ends, as long as the closing QC block leaves
    the connectivity matrices alone. *)
Theorem missing_regions_rows_and_columns_are_zero
    (w wf : world) (o : outcome unit) :
  spares_connectomes funcDir subject additional_QC ->
  main os_listdir glob nib_load_fdata np_loadtxt read_text py_float read_annot
    fit np_corrcoef additional_QC subject funcDir labelDir parcDir volmDir
    performNSR performGSR func_lab noFC w = (o, wf) ->
  forall f s,
    fc_file funcDir subject f ->
    files wf !! f = Some s ->
    files w !! f = Some s \/
    exists sctx n_sctx cereb excl wa wb wc wd,
      load_subcortex np_loadtxt subject funcDir func_lab wa = (Ret (sctx, n_sctx), wb) /\
      load_cerebellum np_loadtxt read_text py_float subject funcDir func_lab wc
      = (Ret (cereb, excl), wd) /\
      forall i, LInt i ∈ excl ->
        0 <= i <= 33 /\
        (Z.to_nat i + n_sctx < length (content s))%nat /\
        (Z.to_nat i + n_sctx < ncols (content s))%nat /\
        row_zero (Z.to_nat i + n_sctx) (content s) /\
        col_zero (Z.to_nat i + n_sctx) (content s).
Proof.
  intros HQC Hrun f s Hf Hs.
  destruct (guards_main os_listdir glob nib_load_fdata np_loadtxt read_text py_float
              read_annot fit np_corrcoef additional_QC subject funcDir labelDir
              parcDir volmDir performNSR performGSR func_lab noFC HQC
              w o wf f s Hrun Hf Hs)
    as [Hold|(sctx & n_sctx & cereb & excl & wa & wb & wc & wd & ts
              & Hsctx & Hcereb & Hmask & _)].
  { left. exact Hold. }
  right. exists sctx, n_sctx, cereb, excl, wa, wb, wc, wd.
  split; [exact Hsctx|]. split; [exact Hcereb|].
  destruct (load_cerebellum_inv _ _ _ _ Hcereb) as (cereb_tmp & roiLabels & Hrec).
  apply reconcile_cerebellum_labels in Hrec as [Hform Hrange].
  intros i Hin. specialize (Hrange i Hin). split; [exact Hrange|].
  destruct (mask_connectome_zeroes _ _ _ _ Hform Hmask i Hin)
    as (B1 & B2 & Hc & Hr); [lia|].
  repeat split; assumption.
Qed.

(** C8. Every file that a run of the script leaves under the name of a
    functional-connectivity matrix, in conte69 or in native space and for
    any parcellation, is either the file that was there before the run,
    untouched, or was saved with the format [%.6f] by the masking block:
    it has the rows and columns of a correlation matrix [np.corrcoef]
    returned, and all its entries strictly below the main diagonal are
    zero, whether or not cerebellar regions are missing.  This holds
    however the run ends, as long as the closing QC block leaves the
    connectivity matrices alone. *)
Theorem persisted_connectome_is_upper_triangular
    (w wf : world) (o : outcome unit) :
  spares_connectomes funcDir subject additional_QC ->
  main os_listdir glob nib_load_fdata np_loadtxt read_text py_float read_annot
    fit np_corrcoef additional_QC subject funcDir labelDir parcDir volmDir
    performNSR performGSR func_lab noFC w = (o, wf) ->
  forall f s,
    fc_file funcDir subject f ->
    files wf !! f = Some s ->
    files w !! f = Some s \/
    (fmt s = "%.6f" /\
     upper_triangular (content s) /\
     exists ts, same_shape (np_corrcoef (transpose_of NaN ts)) (content s)).
Proof.
  intros HQC Hrun f s Hf Hs.
  destruct (guards_main os_listdir glob nib_load_fdata np_loadtxt read_text py_float
              read_annot fit np_corrcoef additional_QC subject funcDir labelDir
              parcDir volmDir performNSR performGSR func_lab noFC HQC
              w o wf f s Hrun Hf Hs)
    as [Hold|(sctx & n_sctx & cereb & excl & wa & wb & wc & wd & ts
              & _ & _ & Hmask & Hfmt)].
  { left. exact Hold. }
  right. split; [exact Hfmt|]. split.
  - exact (mask_connectome_upper_triangular _ _ _ _ Hmask).
  - exists ts. exact (mask_connectome_shape _ _ _ _ Hmask).
Qed.

End Persisted.

(** The complete run has no QC block to speak of. *)
Lemma sample_QC_spares_connectomes :
  spares_connectomes "/func" "sub-01" Sample.additional_QC.
Proof. intros w o w' f [= _ <-] _. reflexivity. Qed.

Lemma missing_regions_rows_and_columns_are_zero_witness :
  fst Full.run = Ret tt /\
  files (snd Full.run) !! conte_fc_name "/func" "sub-01" "schaefer-100_conte69"
  = Some Full.conte_fc /\
  length (content Full.conte_fc) = 38%nat /\
  exists sctx n_sctx cereb excl wa wb wc wd,
    load_subcortex Full.np_loadtxt "sub-01" "/func" "" wa = (Ret (sctx, n_sctx), wb) /\
    load_cerebellum Full.np_loadtxt Runs.read_stats Sample.py_float "sub-01" "/func" "" wc
    = (Ret (cereb, excl), wd) /\
    forall i, LInt i ∈ excl ->
      0 <= i <= 33 /\
      (Z.to_nat i + n_sctx < length (content Full.conte_fc))%nat /\
      (Z.to_nat i + n_sctx < ncols (content Full.conte_fc))%nat /\
      row_zero (Z.to_nat i + n_sctx) (content Full.conte_fc) /\
      col_zero (Z.to_nat i + n_sctx) (content Full.conte_fc).
Proof.
  split; [vm_compute; reflexivity|].
  split; [vm_compute; reflexivity|].
  split; [vm_compute; reflexivity|].
  destruct (missing_regions_rows_and_columns_are_zero
              Full.os_listdir Full.glob Sample.nib_load_fdata Full.np_loadtxt
              Runs.read_stats Sample.py_float Full.read_annot Sample.no_fit
              Sample.np_corrcoef Sample.additional_QC
              "sub-01" "/func" "/labels" "/parc" "/volm" "1" "0" "" "FALSE"
              initial_world (snd Full.run) (fst Full.run)
              sample_QC_spares_connectomes
              (surjective_pairing Full.run)
              (conte_fc_name "/func" "sub-01" "schaefer-100_conte69") Full.conte_fc)
    as [Hold|Hnew].
  - exists "schaefer-100_conte69". left. reflexivity.
  - vm_compute. reflexivity.
  - unfold initial_world in Hold. cbn [files] in Hold.
    rewrite lookup_empty in Hold. discriminate Hold.
  - exact Hnew.
Defined.

Lemma persisted_connectome_is_upper_triangular_witness :
  fst Full.run = Ret tt /\
  files (snd Full.run) !! native_fc_name "/func" "sub-01" "schaefer-100"
  = Some Full.native_fc /\
  length (content Full.native_fc) = 39%nat /\
  fmt Full.native_fc = "%.6f" /\
  upper_triangular (content Full.native_fc) /\
  exists ts, same_shape (Sample.np_corrcoef (transpose_of NaN ts)) (content Full.native_fc).
Proof.
  split; [vm_compute; reflexivity|].
  split; [vm_compute; reflexivity|].
  split; [vm_compute; reflexivity|].
  destruct (persisted_connectome_is_upper_triangular
              Full.os_listdir Full.glob Sample.nib_load_fdata Full.np_loadtxt
              Runs.read_stats Sample.py_float Full.read_annot Sample.no_fit
              Sample.np_corrcoef Sample.additional_QC
              "sub-01" "/func" "/labels" "/parc" "/volm" "1" "0" "" "FALSE"
              initial_world (snd Full.run) (fst Full.run)
              sample_QC_spares_connectomes
              (surjective_pairing Full.run)
              (native_fc_name "/func" "sub-01" "schaefer-100") Full.native_fc)
    as [Hold|Hnew].
  - exists "schaefer-100". right. reflexivity.
  - vm_compute. reflexivity.
  - unfold initial_world in Hold. cbn [files] in Hold.
    rewrite lookup_empty in Hold. discriminate Hold.
  - exact Hnew.
Defined.
